(** * Recurring-expense detection of mofodox/leftover, embedded in Rocq

    Shallow embedding of [RecurringExpenseDetector] and
    [RecurringExpenseManager] (src/lib/validation.ts, the part that is
    lib/recurring-expenses.ts) and of the merge loop of the
    [RecurringExpensePatterns] component
    (src/components/ui/RecurringExpensePatterns.tsx).

    Modelling choices:
    - JS numbers holding money, similarities and confidences are real
      numbers [R] (the code uses [Math.sqrt]); comparisons of the code are
      the boolean tests [Rleb], [Rltb] below.  The code divides by zero
      only where the result is later discarded ([1 - 0/0] for a zero mean
      interval, see [determineFrequency]).
    - a date is a JS time value: milliseconds since the epoch, as [Z], in
      a UTC host time zone.  A Date whose time value leaves the range
      [-8.64e15, 8.64e15] is the Invalid Date, and [toISOString] throws a
      [RangeError] on it; that exception is the [Throw] of [outcome].
    - [Array.prototype.sort] is stable (ES2019); it is modelled as a stable
      insertion sort, the order any stable sort gives for the comparators
      of the code.
    - strings compared character by character are lists of [ascii];
      [toLowerCase] is modelled on ASCII letters. *)

From Stdlib Require Import Reals Lra Lia ZArith List Bool Ascii String.
From Stdlib Require Import Sorting.Sorted Sorting.Permutation.
Import ListNotations.

Open Scope R_scope.

(** ** Boolean comparisons on JS numbers *)

Definition Rleb (x y : R) : bool := if Rle_dec x y then true else false.
Definition Rltb (x y : R) : bool := if Rlt_dec x y then true else false.

(** [a >= b] and [a > b] of the source. *)
Definition Rgeb (x y : R) : bool := Rleb y x.
Definition Rgtb (x y : R) : bool := Rltb y x.

(** ** Exceptions *)

(** A computation that returns normally ([Ok]) or raises the
    [RangeError] of [Date.prototype.toISOString] ([Throw]). *)
Inductive outcome (A : Type) : Type :=
| Ok (a : A)
| Throw.
Arguments Ok {A} a.
Arguments Throw {A}.

(** ** Stable sort with a comparator *)

Section Sort.
Context {A : Type}.

(** [after a b] is [compare(a, b) > 0]: [a] goes after [b]. *)
Variable after : A -> A -> bool.

Fixpoint insert_by (x : A) (l : list A) : list A :=
  match l with
  | [] => [x]
  | y :: l' => if after y x then x :: y :: l' else y :: insert_by x l'
  end.

Definition sort_by (l : list A) : list A :=
  fold_left (fun acc x => insert_by x acc) l [].

End Sort.

(** ** Data model (src/lib/types.ts) *)

Inductive RecurringFrequency : Type :=
| weekly
| monthly
| quarterly
| yearly.

Module Expense.
Record t : Type := mk {
  id : string;
  amount : R;
  date : Z;            (** [new Date(date).getTime()] *)
  description : string;
  category : string
}.
End Expense.

Module Pattern.
Record t : Type := mk {
  id : string;
  description : string;
  category : string;
  averageAmount : R;
  frequency : RecurringFrequency;
  confidence : R;
  expenseIds : list string;
  lastOccurrence : Z;
  nextExpectedDate : Z;
  isConfirmed : bool
}.
End Pattern.

(** ** Constants of [RecurringExpenseDetector] *)

Definition SIMILARITY_THRESHOLD : R := 0.8.
Definition MIN_OCCURRENCES : nat := 2.
Definition AMOUNT_TOLERANCE : R := 0.15.

(** ** [calculateAmountSimilarity] *)

Definition calculateAmountSimilarity (amount1 amount2 : R) : R :=
  let diff := Rabs (amount1 - amount2) in
  let avg := (amount1 + amount2) / 2 in
  let tolerance := avg * AMOUNT_TOLERANCE in
  if Rleb diff tolerance then 1 - diff / tolerance else 0.

(** ** [calculateStringSimilarity] *)

(** [String.prototype.toLowerCase], on ASCII letters. *)
Definition lower_ascii (c : ascii) : ascii :=
  let n := nat_of_ascii c in
  if (65 <=? n)%nat && (n <=? 90)%nat then ascii_of_nat (n + 32) else c.

Definition toLowerCase (s : string) : list ascii :=
  map lower_ascii (list_ascii_of_string s).

(** One row [i] of [matrix] past its first cell: [up] is the rest of row
    [i - 1] from column [j], [diag] is [matrix[i-1][j-1]] and [left] is
    [matrix[i][j-1]]. *)
Fixpoint fill_row (c1 : ascii) (str2 : list ascii) (up : list nat)
    (diag left : nat) : list nat :=
  match str2, up with
  | c2 :: str2', u :: up' =>
      let cost := if ascii_dec c1 c2 then 0%nat else 1%nat in
      let v := Nat.min (Nat.min (u + 1) (left + 1)) (diag + cost) in
      v :: fill_row c1 str2' up' u v
  | _, _ => []
  end.

(** Rows [i + 1 .. len1] of [matrix], from row [i] ([prev]). *)
Fixpoint fill_rows (str1 str2 : list ascii) (i : nat) (prev : list nat)
    : list (list nat) :=
  match str1 with
  | [] => []
  | c1 :: str1' =>
      let row := S i :: fill_row c1 str2 (tl prev) (hd 0%nat prev) (S i) in
      row :: fill_rows str1' str2 (S i) row
  end.

(** [matrix]: row 0 is [0, 1, .., len2]; [matrix[i] = [i]] then filled. *)
Definition levenshteinMatrix (str1 str2 : list ascii) : list (list nat) :=
  let row0 := seq 0 (S (List.length str2)) in
  row0 :: fill_rows str1 str2 0 row0.

Definition calculateStringSimilarity (str1 str2 : list ascii) : R :=
  let len1 := List.length str1 in
  let len2 := List.length str2 in
  if (len1 =? 0)%nat then (if (len2 =? 0)%nat then 1 else 0)
  else if (len2 =? 0)%nat then 0
  else
    let matrix := levenshteinMatrix str1 str2 in
    let maxLen := Nat.max len1 len2 in
    (INR maxLen - INR (nth len2 (nth len1 matrix []) 0%nat)) / INR maxLen.

(** The similarity of two descriptions as [findSimilarExpenses] computes
    it: on the lower-cased strings. *)
Definition stringSimilarity (a b : string) : R :=
  calculateStringSimilarity (toLowerCase a) (toLowerCase b).

(** Classic Levenshtein distance, by the recurrence on prefixes:
    [lev i j] is the distance between the first [i] characters of [s] and
    the first [j] characters of [t]. *)
Fixpoint lev (s t : list ascii) (i j : nat) {struct i} : nat :=
  match i with
  | O => j
  | S i' =>
      (fix lev_row (j : nat) : nat :=
         match j with
         | O => i
         | S j' =>
             Nat.min (Nat.min (lev s t i' (S j') + 1) (lev_row j' + 1))
               (lev s t i' j'
                + (if ascii_dec (nth i' s "000"%char) (nth j' t "000"%char)
                   then 0 else 1))
         end) j
  end.

Definition levenshtein (s t : list ascii) : nat := lev s t (List.length s) (List.length t).

(** ** [findSimilarExpenses] *)

(** The predicate of the [filter] in [findSimilarExpenses]. *)
Definition isSimilarTo (targetExpense expense : Expense.t) : bool :=
  if String.eqb (Expense.id expense) (Expense.id targetExpense) then true
  else
    let descriptionSimilarity :=
      calculateStringSimilarity (toLowerCase (Expense.description targetExpense))
        (toLowerCase (Expense.description expense)) in
    let amountSimilarity :=
      calculateAmountSimilarity (Expense.amount targetExpense) (Expense.amount expense) in
    let categoryMatch :=
      String.eqb (Expense.category targetExpense) (Expense.category expense) in
    let overallSimilarity :=
      descriptionSimilarity * 0.5 + amountSimilarity * 0.3
      + (if categoryMatch then 0.2 else 0) in
    Rgeb overallSimilarity SIMILARITY_THRESHOLD.

Definition findSimilarExpenses (targetExpense : Expense.t) (allExpenses : list Expense.t)
    : list Expense.t :=
  filter (isSimilarTo targetExpense) allExpenses.

(** ** Dates: ECMAScript time values *)

Open Scope Z_scope.

Definition msPerDay : Z := 86400000.

(** The largest time value of a Date: 275760-09-13T00:00:00Z. *)
Definition maxTimeValue : Z := 8640000000000000.

(** [TimeClip]: [None] is [NaN], the Invalid Date. *)
Definition TimeClip (t : Z) : option Z :=
  if Z.abs t <=? maxTimeValue then Some t else None.

(** Day number of a proleptic Gregorian date (month [1..12]). *)
Definition daysFromCivil (y m d : Z) : Z :=
  let y' := if m <=? 2 then y - 1 else y in
  let era := y' / 400 in
  let yoe := y' - era * 400 in
  let mp := (m + 9) mod 12 in
  let doy := (153 * mp + 2) / 5 + d - 1 in
  let doe := yoe * 365 + yoe / 4 - yoe / 100 + doy in
  era * 146097 + doe - 719468.

(** [YearFromTime], [MonthFromTime] (0-based) and [DateFromTime] of a day
    number. *)
Definition civilFromDays (z : Z) : Z * Z * Z :=
  let z' := z + 719468 in
  let era := z' / 146097 in
  let doe := z' - era * 146097 in
  let yoe := (doe - doe / 1460 + doe / 36524 - doe / 146096) / 365 in
  let y := yoe + era * 400 in
  let doy := doe - (365 * yoe + yoe / 4 - yoe / 100) in
  let mp := (5 * doy + 2) / 153 in
  let d := doy - (153 * mp + 2) / 5 + 1 in
  let m := if mp <? 10 then mp + 3 else mp - 9 in
  (if m <=? 2 then y + 1 else y, m - 1, d).

(** [MakeDay(year, month, date)]: month and date may overflow. *)
Definition MakeDay (year month date : Z) : Z :=
  let ym := year + month / 12 in
  let mn := month mod 12 in
  daysFromCivil ym (mn + 1) 1 + date - 1.

(** [calculateNextExpectedDate]: [new Date(lastDate)], one of
    [setDate]/[setMonth]/[setFullYear], then [toISOString], which throws a
    [RangeError] on the Invalid Date. *)
Definition calculateNextExpectedDate (lastDate : Z) (frequency : RecurringFrequency)
    : outcome Z :=
  match TimeClip lastDate with
  | None => Throw
  | Some t =>
      let day := t / msPerDay in
      let time := t mod msPerDay in
      let '(y, m, d) := civilFromDays day in
      let newDay :=
        match frequency with
        | weekly => MakeDay y m (d + 7)
        | monthly => MakeDay y (m + 1) d
        | quarterly => MakeDay y (m + 3) d
        | yearly => MakeDay (y + 1) m d
        end in
      match TimeClip (newDay * msPerDay + time) with
      | None => Throw
      | Some t' => Ok t'
      end
  end.

(** [Math.round(x / d)] and [Math.ceil(x / d)] for [d > 0]. *)
Definition roundDiv (x d : Z) : Z := (2 * x + d) / (2 * d).
Definition ceilDiv (x d : Z) : Z := - ((- x) / d).

Close Scope Z_scope.

(** ** [determineFrequency] *)

(** [xs.reduce((sum, x) => sum + x, 0)]. *)
Definition sumR (xs : list R) : R := fold_left Rplus xs 0.

Definition avgInterval (intervals : list Z) : R :=
  sumR (map IZR intervals) / INR (List.length intervals).

Definition variance (intervals : list Z) : R :=
  let avg := avgInterval intervals in
  sumR (map (fun interval => (IZR interval - avg) ^ 2) intervals)
  / INR (List.length intervals).

(** [Math.max(0, 1 - standardDeviation / avgInterval)].  For a zero mean
    the source computes [NaN] here (the model: [1]); the value is then
    dropped, as no band contains 0. *)
Definition consistencyScore (intervals : list Z) : R :=
  Rmax 0 (1 - sqrt (variance intervals) / avgInterval intervals).

(** The [if]/[else if] chain on [avgInterval]: the frequency and
    [frequencyConfidence] it assigns, [None] when it assigns none. *)
Definition frequencyBand (avg : R) : option (RecurringFrequency * R) :=
  if Rgeb avg 6 && Rleb avg 8 then Some (weekly, Rmax 0 (1 - Rabs (avg - 7) / 7))
  else if Rgeb avg 28 && Rleb avg 35 then Some (monthly, Rmax 0 (1 - Rabs (avg - 30) / 30))
  else if Rgeb avg 85 && Rleb avg 95 then Some (quarterly, Rmax 0 (1 - Rabs (avg - 90) / 90))
  else if Rgeb avg 360 && Rleb avg 370 then Some (yearly, Rmax 0 (1 - Rabs (avg - 365) / 365))
  else None.

Definition determineFrequency (intervals : list Z) : option RecurringFrequency * R :=
  match intervals with
  | [] => (None, 0)
  | _ =>
      let cs := consistencyScore intervals in
      match frequencyBand (avgInterval intervals) with
      | Some (frequency, frequencyConfidence) =>
          (Some frequency, cs * 0.6 + frequencyConfidence * 0.4)
      | None => (None, 0)
      end
  end.

(** ** [analyzePattern] *)

(** Comparator [(a, b) => new Date(a.date).getTime() - new Date(b.date).getTime()]. *)
Definition dateAfter (a b : Expense.t) : bool :=
  (Expense.date a - Expense.date b >? 0)%Z.

(** [Math.round((currDate - prevDate) / msPerDay)] over consecutive pairs. *)
Fixpoint intervalsOf (l : list Expense.t) : list Z :=
  match l with
  | a :: ((b :: _) as rest) =>
      roundDiv (Expense.date b - Expense.date a) msPerDay :: intervalsOf rest
  | _ => []
  end.

(** [patternId] stands for the generated
    [`pattern_${Date.now()}_${Math.random()...}`].  The source sorts
    [similarExpenses] in place, so the average and [expenseIds] are read
    from the sorted array. *)
Definition analyzePattern (patternId : string) (baseExpense : Expense.t)
    (similarExpenses : list Expense.t) : outcome (option Pattern.t) :=
  if (List.length similarExpenses <? MIN_OCCURRENCES)%nat then Ok None
  else
    let sortedExpenses := sort_by dateAfter similarExpenses in
    let intervals := intervalsOf sortedExpenses in
    let '(frequency, confidence) := determineFrequency intervals in
    match frequency with
    | None => Ok None
    | Some f =>
        if Rltb confidence 0.6 then Ok None
        else
          let averageAmount :=
            sumR (map Expense.amount sortedExpenses)
            / INR (List.length sortedExpenses) in
          let lastExpense := last sortedExpenses baseExpense in
          match calculateNextExpectedDate (Expense.date lastExpense) f with
          | Throw => Throw
          | Ok nextExpectedDate =>
              Ok (Some {| Pattern.id := patternId;
                          Pattern.description := Expense.description baseExpense;
                          Pattern.category := Expense.category baseExpense;
                          Pattern.averageAmount := averageAmount;
                          Pattern.frequency := f;
                          Pattern.confidence := confidence;
                          Pattern.expenseIds := map Expense.id sortedExpenses;
                          Pattern.lastOccurrence := Expense.date lastExpense;
                          Pattern.nextExpectedDate := nextExpectedDate;
                          Pattern.isConfirmed := false |})
          end
    end.

(** ** [detectPatterns] *)

(** The [for] loop over [sortedExpenses]: [processed] is the set
    [processedExpenses], [patterns] the array of accepted patterns;
    [newId n] is the id generated for the pattern built after [n]
    accepted ones. *)
Fixpoint detectLoop (newId : nat -> string) (sortedExpenses : list Expense.t)
    (todo : list Expense.t) (processed : list string) (patterns : list Pattern.t)
    : outcome (list Pattern.t) :=
  match todo with
  | [] => Ok patterns
  | expense :: rest =>
      if existsb (String.eqb (Expense.id expense)) processed
      then detectLoop newId sortedExpenses rest processed patterns
      else
        let similarExpenses := findSimilarExpenses expense sortedExpenses in
        if (MIN_OCCURRENCES <=? List.length similarExpenses)%nat then
          match analyzePattern (newId (List.length patterns)) expense similarExpenses with
          | Throw => Throw
          | Ok (Some pattern) =>
              if Rgeb (Pattern.confidence pattern) 0.6 then
                detectLoop newId sortedExpenses rest
                  (processed ++ map Expense.id similarExpenses) (patterns ++ [pattern])
              else detectLoop newId sortedExpenses rest processed patterns
          | Ok None => detectLoop newId sortedExpenses rest processed patterns
          end
        else detectLoop newId sortedExpenses rest processed patterns
  end.

(** Comparator [(a, b) => b.confidence - a.confidence]. *)
Definition confidenceAfter (a b : Pattern.t) : bool :=
  Rgtb (Pattern.confidence b - Pattern.confidence a) 0.

Definition detectPatterns (newId : nat -> string) (expenses : list Expense.t)
    : outcome (list Pattern.t) :=
  let sortedExpenses := sort_by dateAfter expenses in
  match detectLoop newId sortedExpenses sortedExpenses [] [] with
  | Throw => Throw
  | Ok patterns => Ok (sort_by confidenceAfter patterns)
  end.

(** ** [getUpcomingRecurringExpenses] *)

Record Upcoming : Type := mkUpcoming {
  pattern : Pattern.t;
  daysUntilDue : Z;
  isOverdue : bool
}.

(** The [.map] callback; [today] is [new Date().getTime()]. *)
Definition toUpcoming (today : Z) (p : Pattern.t) : Upcoming :=
  let nextDate := Pattern.nextExpectedDate p in
  let days := ceilDiv (nextDate - today) msPerDay in
  mkUpcoming p days (days <? 0)%Z.

(** Comparator [(a, b) => a.daysUntilDue - b.daysUntilDue]. *)
Definition dueAfter (a b : Upcoming) : bool :=
  (daysUntilDue a - daysUntilDue b >? 0)%Z.

Definition getUpcomingRecurringExpenses (today : Z) (patterns : list Pattern.t)
    : list Upcoming :=
  sort_by dueAfter (map (toUpcoming today) (filter Pattern.isConfirmed patterns)).

(** ** Merge of detected patterns (RecurringExpensePatterns.detectPatterns) *)

(** The [existingPatterns.some(...)] test. *)
Definition sameAsExisting (newPattern existing : Pattern.t) : bool :=
  String.eqb (Pattern.description existing) (Pattern.description newPattern)
  && String.eqb (Pattern.category existing) (Pattern.category newPattern)
  && Rltb (Rabs (Pattern.averageAmount existing - Pattern.averageAmount newPattern)) 1.

(** [allPatterns = [...existingPatterns]] then the [forEach] that pushes
    every detected pattern not found in [existingPatterns]. *)
Definition mergeDetected (existingPatterns detectedPatterns : list Pattern.t)
    : list Pattern.t :=
  fold_left
    (fun allPatterns newPattern =>
       if existsb (sameAsExisting newPattern) existingPatterns
       then allPatterns else allPatterns ++ [newPattern])
    detectedPatterns existingPatterns.

(** ** [RecurringExpenseManager.updatePatternAfterExpense] *)

(** The stored list is what [loadPatterns] returns and [savePatterns]
    writes back (a JSON round trip of these fields is the identity). *)
Definition setLastAndNext (newExpenseDate next : Z) (p : Pattern.t) : Pattern.t :=
  {| Pattern.id := Pattern.id p;
     Pattern.description := Pattern.description p;
     Pattern.category := Pattern.category p;
     Pattern.averageAmount := Pattern.averageAmount p;
     Pattern.frequency := Pattern.frequency p;
     Pattern.confidence := Pattern.confidence p;
     Pattern.expenseIds := Pattern.expenseIds p;
     Pattern.lastOccurrence := newExpenseDate;
     Pattern.nextExpectedDate := next;
     Pattern.isConfirmed := Pattern.isConfirmed p |}.

(** [patterns.find(p => p.id === patternId)] mutated in place: the first
    pattern with that id is replaced. *)
Fixpoint updateFirst (patternId : string) (f : Pattern.t -> Pattern.t)
    (patterns : list Pattern.t) : list Pattern.t :=
  match patterns with
  | [] => []
  | p :: rest =>
      if String.eqb (Pattern.id p) patternId then f p :: rest
      else p :: updateFirst patternId f rest
  end.

(** The new stored list, or [Throw] when [calculateNextExpectedDate]
    raises (then [savePatterns] is not reached and the store keeps its
    old contents). *)
Definition updatePatternAfterExpense (patternId : string) (newExpenseDate : Z)
    (stored : list Pattern.t) : outcome (list Pattern.t) :=
  let patterns := stored in
  match find (fun p => String.eqb (Pattern.id p) patternId) patterns with
  | None => Ok stored
  | Some pattern =>
      match calculateNextExpectedDate newExpenseDate (Pattern.frequency pattern) with
      | Throw => Throw
      | Ok next => Ok (updateFirst patternId (setLastAndNext newExpenseDate next) patterns)
      end
  end.

(** ** Specification predicates *)

(** A pattern built by [analyzePattern] from the cluster [cluster] of the
    seed [seed]. *)
Definition builtFrom (seed : Expense.t) (cluster : list Expense.t) (p : Pattern.t) : Prop :=
  let sorted := sort_by dateAfter cluster in
  let intervals := intervalsOf sorted in
  (MIN_OCCURRENCES <= List.length cluster)%nat
  /\ Pattern.expenseIds p = map Expense.id sorted
  /\ Pattern.description p = Expense.description seed
  /\ Pattern.category p = Expense.category seed
  /\ 0.6 <= Pattern.confidence p
  /\ exists frequencyConfidence,
       frequencyBand (avgInterval intervals)
         = Some (Pattern.frequency p, frequencyConfidence)
       /\ Pattern.confidence p
          = 0.6 * consistencyScore intervals + 0.4 * frequencyConfidence.

(** ** Concrete inputs of the examples *)

(** A gym fee paid on 2024-01-01, 2024-01-31 and 2024-03-01, raised by
    10% each time. *)
Definition gym1 : Expense.t := Expense.mk "e1" 100 1704067200000 "Gym" "health".
Definition gym2 : Expense.t := Expense.mk "e2" 110 1706659200000 "Gym" "health".
Definition gym3 : Expense.t := Expense.mk "e3" 121 1709251200000 "Gym" "health".

(** Ids standing for the generated pattern ids. *)
Definition scenarioIds (n : nat) : string :=
  match n with
  | O => "pattern_a"
  | _ => "pattern_b"
  end.

(** A weekly fee whose last payment falls on the last valid JS date,
    275760-09-13. *)
Definition late1 : Expense.t :=
  Expense.mk "w1" 5 (maxTimeValue - 7 * msPerDay)%Z "Paper" "other".
Definition late2 : Expense.t :=
  Expense.mk "w2" 5 maxTimeValue "Paper" "other".

(** The patterns of [acc] in acceptance order, each with its seed: the
    seed's id is among its own pattern's [expenseIds] and among those of no
    pattern accepted before it. *)
Definition seedsFresh (acc : list (Expense.t * Pattern.t)) : Prop :=
  forall pre seed p post,
    acc = pre ++ (seed, p) :: post ->
    In (Expense.id seed) (Pattern.expenseIds p)
    /\ forall q, In q (map snd pre) -> ~ In (Expense.id seed) (Pattern.expenseIds q).

(** The gym fee paid again 45 days after [gym1]. *)
Definition gym45 : Expense.t := Expense.mk "e4" 100 1707955200000 "Gym" "health".

(** Stored patterns for the upcoming list and the merge: [mkStored id
    description category amount frequency next confirmed]. *)
Definition mkStored (pid description category : string) (amount : R)
    (f : RecurringFrequency) (next : Z) (confirmed : bool) : Pattern.t :=
  Pattern.mk pid description category amount f 0.8 [] (next - 7 * msPerDay)%Z next
    confirmed.

(** A day taken as [today]: 2024-06-01T12:00:00Z. *)
Definition today0 : Z := 1717243200000.

(** A confirmed pattern due 3 days ago, one due in 5 days and an
    unconfirmed one due tomorrow. *)
Definition duePast : Pattern.t :=
  mkStored "p_past" "Rent" "housing" 900 monthly (today0 - 3 * msPerDay)%Z true.
Definition dueSoon : Pattern.t :=
  mkStored "p_soon" "Gym" "health" 40 monthly (today0 + 5 * msPerDay)%Z true.
Definition dueUnconfirmed : Pattern.t :=
  mkStored "p_new" "Coffee" "food" 4 weekly (today0 + msPerDay)%Z false.

(** The merge example: an existing Netflix pattern at 15.99 and a newly
    detected one at 15.50. *)
Definition netflixExisting : Pattern.t :=
  mkStored "p_netflix" "Netflix" "entertainment" 15.99 monthly today0 true.
Definition netflixDetected : Pattern.t :=
  mkStored "pattern_new" "Netflix" "entertainment" 15.50 monthly today0 false.

(** * Further code of the same files *)

(** ** Calendar facts checked over one 400-year cycle *)

Open Scope Z_scope.

(** Checking a boolean property on the [n] integers from [lo]. *)
Fixpoint forallZ (f : Z -> bool) (lo : Z) (n : nat) : bool :=
  match n with
  | O => true
  | S n' => f lo && forallZ f (lo + 1) n'
  end.

(** Day number of the first day of the month with index
    [monthIndex = 12 * year + month] (month 0-based). *)
Definition monthStart (monthIndex : Z) : Z :=
  daysFromCivil (monthIndex / 12) (monthIndex mod 12 + 1) 1.

(** [civilFromDays] inverts [daysFromCivil], with a month in [0..11]
    and a day in [1..31] within the month's length. *)
Definition civil_ok (z : Z) : bool :=
  let '(y, m, d) := civilFromDays z in
  (daysFromCivil y (m + 1) d =? z) && (0 <=? m) && (m <=? 11)
  && (1 <=? d) && (d <=? 31)
  && (d - 1 <? monthStart (12 * y + m + 1) - monthStart (12 * y + m)).

(** Month lengths, and the lengths of 3 and 12 consecutive months. *)
Definition months_ok (n : Z) : bool :=
  let s := monthStart n in
  (28 <=? monthStart (n + 1) - s) && (monthStart (n + 1) - s <=? 31)
  && (89 <=? monthStart (n + 3) - s) && (monthStart (n + 3) - s <=? 92)
  && (365 <=? monthStart (n + 12) - s) && (monthStart (n + 12) - s <=? 366).


Close Scope Z_scope.

(** ** Date setters and [DateUtils] *)

Open Scope Z_scope.

(** [Date.prototype.toString] of an integer number: its decimal digits
    ([fuel] bounds their count). *)
Fixpoint decimalDigits (fuel : nat) (n : Z) (acc : string) : string :=
  match fuel with
  | O => acc
  | S fuel' =>
      let acc' := String (ascii_of_nat (48 + Z.to_nat (n mod 10))) acc in
      if n <? 10 then acc' else decimalDigits fuel' (n / 10) acc'
  end.

(** [String(n)] for an integer number, [None] being [NaN]. *)
Definition numberToString (n : option Z) : string :=
  match n with
  | None => "NaN"
  | Some k =>
      if k <? 0 then String "-" (decimalDigits (S (Z.to_nat (Z.log2 (- k)))) (- k) EmptyString)
      else decimalDigits (S (Z.to_nat (Z.log2 k))) k EmptyString
  end.

(** The time value of a valid Date after [setDate(getDate() + 7)],
    [setMonth(getMonth() + 1)], [setMonth(getMonth() + 3)] or
    [setFullYear(getFullYear() + 1)] for the cadence [c] ([None]: the
    Invalid Date). *)
Definition advanceDate (t : Z) (c : RecurringFrequency) : option Z :=
  let day := t / msPerDay in
  let time := t mod msPerDay in
  let '(y, m, d) := civilFromDays day in
  let newDay :=
    match c with
    | weekly => MakeDay y m (d + 7)
    | monthly => MakeDay y (m + 1) d
    | quarterly => MakeDay y (m + 3) d
    | yearly => MakeDay (y + 1) m d
    end in
  TimeClip (newDay * msPerDay + time).


(** [setHours(0, 0, 0, 0)] on a Date. *)
Definition setHours0 (tv : option Z) : option Z :=
  match tv with
  | None => None
  | Some t => TimeClip (t / msPerDay * msPerDay)
  end.

(** [new Date(year, month, date)]: years 0 to 99 mean 1900 to 1999. *)
Definition newDateYMD (year month date : Z) : option Z :=
  let yr := if (0 <=? year) && (year <=? 99) then 1900 + year else year in
  TimeClip (MakeDay yr month date * msPerDay).

(** [a < b] and [a <= b] on Dates: false when either is [NaN]. *)
Definition dateLt (a b : option Z) : bool :=
  match a, b with Some x, Some y => x <? y | _, _ => false end.
Definition dateLe (a b : option Z) : bool :=
  match a, b with Some x, Some y => x <=? y | _, _ => false end.

(** [toISOString]: throws on the Invalid Date. *)
Definition toISOString (tv : option Z) : outcome Z :=
  match tv with None => Throw | Some t => Ok t end.

Definition BillingCycle := RecurringFrequency.

Module Subscription.
(** Date strings are represented by the time value they parse to
    ([None]: not a date). *)
Record t : Type := mk {
  id : string;
  name : string;
  cost : R;
  billingCycle : BillingCycle;
  category : string;
  nextBillingDate : option Z;
  description : option string;
  website : option string;
  isActive : bool;
  createdAt : option Z;
  updatedAt : option Z
}.
End Subscription.

(** [DateUtils.calculateNextBillingDate]. *)
Definition calculateNextBillingDate (currentDate : option Z) (billingCycle : BillingCycle)
    : outcome Z :=
  let date := currentDate in
  toISOString (match date with None => None | Some t => advanceDate t billingCycle end).

(** The [while (nextBillingDate <= today)] loop of
    [updateOverdueBillingDate], run for at most [fuel] iterations
    ([None]: still running). *)
Fixpoint advanceWhileNotAfter (fuel : nat) (today : Z) (c : BillingCycle)
    (nextBillingDate : option Z) : option (option Z) :=
  match fuel with
  | O => None
  | S fuel' =>
      if dateLe nextBillingDate (Some today) then
        match nextBillingDate with
        | Some t => advanceWhileNotAfter fuel' today c (advanceDate t c)
        | None => Some None
        end
      else Some nextBillingDate
  end.

(** [DateUtils.updateOverdueBillingDate]; [today] is [new Date()]. *)
Definition updateOverdueBillingDate (fuel : nat) (today : Z) (subscription : Subscription.t)
    : option (outcome Z) :=
  match advanceWhileNotAfter fuel today (Subscription.billingCycle subscription)
          (Subscription.nextBillingDate subscription) with
  | None => None
  | Some d => Some (toISOString d)
  end.

(** [{ ...subscription, nextBillingDate: newBillingDate, updatedAt: new
    Date().toISOString() }]. *)
Definition withBillingUpdate (subscription : Subscription.t) (newBillingDate now : Z)
    : Subscription.t :=
  {| Subscription.id := Subscription.id subscription;
     Subscription.name := Subscription.name subscription;
     Subscription.cost := Subscription.cost subscription;
     Subscription.billingCycle := Subscription.billingCycle subscription;
     Subscription.category := Subscription.category subscription;
     Subscription.nextBillingDate := Some newBillingDate;
     Subscription.description := Subscription.description subscription;
     Subscription.website := Subscription.website subscription;
     Subscription.isActive := Subscription.isActive subscription;
     Subscription.createdAt := Subscription.createdAt subscription;
     Subscription.updatedAt := Some now |}.

(** The [.map] callback of [Utils.updateOverdueSubscriptions]; [now] is
    the current time, read by every [new Date()] of the call. *)
Definition updateOverdueSubscription (fuel : nat) (now : Z) (subscription : Subscription.t)
    : option (outcome Subscription.t) :=
  let today := setHours0 (Some now) in
  let billingDate := setHours0 (Subscription.nextBillingDate subscription) in
  if dateLt billingDate today && Subscription.isActive subscription then
    match updateOverdueBillingDate fuel now subscription with
    | None => None
    | Some Throw => Some Throw
    | Some (Ok newBillingDate) =>
        Some (Ok (withBillingUpdate subscription newBillingDate now))
    end
  else Some (Ok subscription).

(** [Array.prototype.map] with a callback that may throw or not return:
    the first such element decides. *)
Fixpoint mapRun {A B} (f : A -> option (outcome B)) (l : list A) : option (outcome (list B)) :=
  match l with
  | [] => Some (Ok [])
  | x :: rest =>
      match f x with
      | None => None
      | Some Throw => Some Throw
      | Some (Ok y) =>
          match mapRun f rest with
          | None => None
          | Some Throw => Some Throw
          | Some (Ok ys) => Some (Ok (y :: ys))
          end
      end
  end.

Definition updateOverdueSubscriptions (fuel : nat) (now : Z) (subscriptions : list Subscription.t)
    : option (outcome (list Subscription.t)) :=
  mapRun (updateOverdueSubscription fuel now) subscriptions.

(** [DateUtils.getDaysUntil]; [now] is [new Date()] ([None]: [NaN]). *)
Definition getDaysUntil (date : option Z) (now : Z) : option Z :=
  match date with
  | None => None
  | Some targetDate => Some (ceilDiv (targetDate - now) msPerDay)
  end.


(** [DateUtils.isPastDate]. *)
Definition isPastDate (date : option Z) (now : Z) : bool :=
  let today := setHours0 (Some now) in
  dateLt (setHours0 date) today.

(** [DateUtils.formatRelativeDate]. *)
Definition formatRelativeDate (date : option Z) (now : Z) : string :=
  let diffDays := getDaysUntil date now in
  match diffDays with
  | Some 0 => "Today"
  | Some 1 => "Tomorrow"
  | Some (-1) => "Yesterday"
  | Some n =>
      if 0 <? n then
        let plural := if 1 <? n then "s"%string else EmptyString in
        String.append "in " (String.append (numberToString (Some n))
                              (String.append " day" plural))
      else
        let plural := if 1 <? Z.abs n then "s"%string else EmptyString in
        String.append (numberToString (Some (Z.abs n)))
          (String.append " day" (String.append plural " ago"))
  | None => "NaN day ago"
  end.

(** [DateUtils.getCurrentMonthRange] and [getCurrentYearRange]: start and
    end as time values (before [toISOString]). *)
Definition currentMonthRange (now : Z) : option Z * option Z :=
  let '(y, m, _) := civilFromDays (now / msPerDay) in
  (newDateYMD y m 1, newDateYMD y (m + 1) 0).

Definition currentYearRange (now : Z) : option Z * option Z :=
  let '(y, _, _) := civilFromDays (now / msPerDay) in
  (newDateYMD y 0 1, newDateYMD y 11 31).

Close Scope Z_scope.

(** ** Specification helpers *)

Open Scope Z_scope.

(** The number of days a cadence step adds, by cadence. *)
Definition cadenceDays (c : RecurringFrequency) (delta : Z) : Prop :=
  match c with
  | weekly => delta = 7
  | monthly => 28 <= delta <= 31
  | quarterly => 89 <= delta <= 92
  | yearly => 365 <= delta <= 366
  end.

(** The number of calendar months a cadence step adds. *)
Definition monthsOf (c : RecurringFrequency) : Z :=
  match c with weekly => 0 | monthly => 1 | quarterly => 3 | yearly => 12 end.

Close Scope Z_scope.

(** ** [CalculationUtils.getTotalExpensesForDateRange] *)

Definition getTotalExpensesForDateRange (expenses : list Expense.t) (startDate endDate : option Z)
    : R :=
  fold_left (fun total expense => total + Expense.amount expense)
    (filter (fun expense =>
               let expenseDate := Some (Expense.date expense) in
               dateLe startDate expenseDate && dateLe expenseDate endDate)
       expenses)
    0.

(** ** [RecurringExpenseManager]: the stored patterns *)

(** The value under the key [recurring_patterns]: [None] when the key is
    absent; [savePatterns] then [loadPatterns] gives back the saved list. *)
Definition PatternStore := option (list Pattern.t).

Definition loadPatterns (store : PatternStore) : list Pattern.t :=
  match store with
  | None => []
  | Some patterns => patterns
  end.

Definition setConfirmed (p : Pattern.t) : Pattern.t :=
  {| Pattern.id := Pattern.id p;
     Pattern.description := Pattern.description p;
     Pattern.category := Pattern.category p;
     Pattern.averageAmount := Pattern.averageAmount p;
     Pattern.frequency := Pattern.frequency p;
     Pattern.confidence := Pattern.confidence p;
     Pattern.expenseIds := Pattern.expenseIds p;
     Pattern.lastOccurrence := Pattern.lastOccurrence p;
     Pattern.nextExpectedDate := Pattern.nextExpectedDate p;
     Pattern.isConfirmed := true |}.

(** [confirmPattern]: the first pattern with the id is set confirmed and
    the list saved; nothing is saved when there is none. *)
Definition confirmPattern (patternId : string) (store : PatternStore) : PatternStore :=
  let patterns := loadPatterns store in
  match find (fun p => String.eqb (Pattern.id p) patternId) patterns with
  | Some _ => Some (updateFirst patternId setConfirmed patterns)
  | None => store
  end.

(** [dismissPattern]: always saves the filtered list. *)
Definition dismissPattern (patternId : string) (store : PatternStore) : PatternStore :=
  let patterns := loadPatterns store in
  Some (filter (fun p => negb (String.eqb (Pattern.id p) patternId)) patterns).

(** The component state updates of [handleConfirmPattern] and
    [handleDismissPattern] in RecurringExpensePatterns. *)
Definition confirmInState (patternId : string) (prev : list Pattern.t) : list Pattern.t :=
  map (fun p => if String.eqb (Pattern.id p) patternId then setConfirmed p else p) prev.

Definition dismissInState (patternId : string) (prev : list Pattern.t) : list Pattern.t :=
  filter (fun p => negb (String.eqb (Pattern.id p) patternId)) prev.

(** [getConfidenceText] and [getConfidenceColor] of the component. *)
Definition getConfidenceText (confidence : R) : string :=
  if Rgeb confidence 0.8 then "High"
  else if Rgeb confidence 0.6 then "Medium"
  else "Low".

Definition getConfidenceColor (confidence : R) : string :=
  if Rgeb confidence 0.8 then "text-green-600 bg-green-50"
  else if Rgeb confidence 0.6 then "text-yellow-600 bg-yellow-50"
  else "text-red-600 bg-red-50".

(** ** [RecurringExpenseDetector.createRecurringGroup] *)

Definition frequencyName (f : RecurringFrequency) : string :=
  match f with
  | weekly => "weekly"
  | monthly => "monthly"
  | quarterly => "quarterly"
  | yearly => "yearly"
  end.

Module Group.
Record t : Type := mk {
  id : string;
  name : string;
  description : string;
  category : string;
  frequency : RecurringFrequency;
  averageAmount : R;
  expenses : list Expense.t;
  isActive : bool;
  createdAt : Z;
  updatedAt : Z
}.
End Group.

(** [groupId] is the generated [`group_${Date.now()}_...`], [now] the
    time of [new Date()]. *)
Definition createRecurringGroup (groupId : string) (now : Z) (pattern : Pattern.t)
    (expenses : list Expense.t) : Group.t :=
  let groupExpenses :=
    filter (fun exp => existsb (String.eqb (Expense.id exp)) (Pattern.expenseIds pattern))
      expenses in
  {| Group.id := groupId;
     Group.name := Pattern.description pattern;
     Group.description :=
       String.append "Recurring " (String.append (frequencyName (Pattern.frequency pattern))
                                    " expense");
     Group.category := Pattern.category pattern;
     Group.frequency := Pattern.frequency pattern;
     Group.averageAmount := Pattern.averageAmount pattern;
     Group.expenses := groupExpenses;
     Group.isActive := true;
     Group.createdAt := now;
     Group.updatedAt := now |}.

(** ** [DataIntegrityValidation]: duplicate checks over arrays *)

Record ValidationResult : Type := mkValidationResult {
  isValid : bool;
  errors : list string
}.

(** [WhiteSpace] and [LineTerminator] code units of the ASCII range:
    what [trim] removes and [\s] matches. *)
Definition isJsSpace (c : ascii) : bool :=
  match nat_of_ascii c with
  | 9 | 10 | 11 | 12 | 13 | 32 => true
  | _ => false
  end%nat.

Fixpoint dropLeadingSpace (s : list ascii) : list ascii :=
  match s with
  | [] => []
  | c :: rest => if isJsSpace c then dropLeadingSpace rest else s
  end.

(** [String.prototype.trim]. *)
Definition jsTrim (s : list ascii) : list ascii :=
  rev (dropLeadingSpace (rev (dropLeadingSpace s))).

Definition list_ascii_eqb (a b : list ascii) : bool :=
  if list_eq_dec ascii_dec a b then true else false.

(** The [forEach] of [validateExpenseArray]: [seenIds] is the [Set]
    (membership only), the result the pushed errors in order. *)
Fixpoint validateExpenseArrayLoop (expenses : list Expense.t) (index : nat)
    (seenIds : list string) : list string :=
  match expenses with
  | [] => []
  | expense :: rest =>
      if existsb (String.eqb (Expense.id expense)) seenIds then
        String.append "Duplicate expense ID found at index "
          (String.append (numberToString (Some (Z.of_nat index)))
             (String.append ": " (Expense.id expense)))
        :: validateExpenseArrayLoop rest (S index) seenIds
      else validateExpenseArrayLoop rest (S index) (seenIds ++ [Expense.id expense])
  end.

Definition validateExpenseArray (expenses : list Expense.t) : ValidationResult :=
  let errors := validateExpenseArrayLoop expenses 0 [] in
  {| isValid := Nat.eqb (List.length errors) 0; errors := errors |}.

Fixpoint validateSubscriptionArrayLoop (subscriptions : list Subscription.t) (index : nat)
    (seenIds : list string) (seenNames : list (list ascii)) : list string :=
  match subscriptions with
  | [] => []
  | subscription :: rest =>
      let indexText := numberToString (Some (Z.of_nat index)) in
      let '(idErrors, seenIds') :=
        if existsb (String.eqb (Subscription.id subscription)) seenIds then
          ([String.append "Duplicate subscription ID found at index "
              (String.append indexText (String.append ": " (Subscription.id subscription)))],
           seenIds)
        else ([], seenIds ++ [Subscription.id subscription]) in
      let normalizedName := jsTrim (toLowerCase (Subscription.name subscription)) in
      let '(nameErrors, seenNames') :=
        if existsb (list_ascii_eqb normalizedName) seenNames then
          ([String.append "Duplicate subscription name found at index "
              (String.append indexText (String.append ": " (Subscription.name subscription)))],
           seenNames)
        else ([], seenNames ++ [normalizedName]) in
      idErrors ++ nameErrors
        ++ validateSubscriptionArrayLoop rest (S index) seenIds' seenNames'
  end.

Definition validateSubscriptionArray (subscriptions : list Subscription.t) : ValidationResult :=
  let errors := validateSubscriptionArrayLoop subscriptions 0 [] [] in
  {| isValid := Nat.eqb (List.length errors) 0; errors := errors |}.

(** ** [FormValidationHelpers] *)

(** A JS value of type [string | null], which may also be [undefined]. *)
Inductive nullable (A : Type) : Type :=
| Value (a : A)
| Null
| Undefined.
Arguments Value {A} a.
Arguments Null {A}.
Arguments Undefined {A}.

Fixpoint isPrefix (p s : list ascii) : bool :=
  match p, s with
  | [], _ => true
  | c :: p', d :: s' => Ascii.eqb c d && isPrefix p' s'
  | _ :: _, [] => false
  end.

(** [s.includes(p)]. *)
Fixpoint includes (s p : list ascii) : bool :=
  isPrefix p s || match s with [] => false | _ :: s' => includes s' p end.

Definition getFieldError (validationResult : ValidationResult) (fieldName : string)
    : nullable string :=
  if isValid validationResult then Null
  else
    let fieldErrors :=
      filter (fun error => includes (toLowerCase error) (toLowerCase fieldName))
        (errors validationResult) in
    match fieldErrors with
    | error :: _ => Value error
    | [] =>
        match errors validationResult with
        | error :: _ => Value error
        | [] => Undefined
        end
    end.

Definition hasErrors (validationResults : list ValidationResult) : bool :=
  existsb (fun result => negb (isValid result)) validationResults.

Definition getAllErrors (validationResults : list ValidationResult) : list string :=
  fold_left (fun allErrors result => allErrors ++ errors result) validationResults [].

(** ** [cn] *)

Inductive ClassValue : Type :=
| CString (s : string)
| CUndefined
| CNull
| CBool (b : bool).

(** [Boolean(value)]. *)
Definition truthy (v : ClassValue) : bool :=
  match v with
  | CString s => negb (String.eqb s EmptyString)
  | CBool b => b
  | CUndefined | CNull => false
  end.

(** The element text [join] uses. *)
Definition classText (v : ClassValue) : string :=
  match v with
  | CString s => s
  | CBool true => "true"
  | CBool false => "false"
  | CUndefined | CNull => EmptyString
  end.

Fixpoint joinWith (sep : string) (parts : list string) : string :=
  match parts with
  | [] => EmptyString
  | [p] => p
  | p :: rest => String.append p (String.append sep (joinWith sep rest))
  end.

(** [replace(/\s+/g, ' ')]: every maximal run of white space becomes one
    space; [inRun] is set inside a run already replaced. *)
Fixpoint replaceSpaceRuns (inRun : bool) (s : list ascii) : list ascii :=
  match s with
  | [] => []
  | c :: rest =>
      if isJsSpace c then
        if inRun then replaceSpaceRuns true rest else " "%char :: replaceSpaceRuns true rest
      else c :: replaceSpaceRuns false rest
  end.

Definition cn (classes : list ClassValue) : string :=
  string_of_list_ascii
    (jsTrim (replaceSpaceRuns false
       (list_ascii_of_string (joinWith " " (map classText (filter truthy classes)))))).

(** ** [Utils.sortBy] on a numeric property *)

Inductive Direction : Type := asc | desc.

Section SortBy.
Context {T : Type}.

(** [a[property]] for a property holding numbers. *)
Variable property : T -> R.

Definition sortByCompare (direction : Direction) (a b : T) : Z :=
  let aVal := property a in
  let bVal := property b in
  if Rltb aVal bVal then (match direction with asc => -1 | desc => 1 end)%Z
  else if Rgtb aVal bVal then (match direction with asc => 1 | desc => -1 end)%Z
  else 0%Z.

Definition sortBy (array : list T) (direction : Direction) : list T :=
  sort_by (fun a b => (sortByCompare direction a b >? 0)%Z) array.

End SortBy.

(** ** [DataIntegrityValidation.validateSubscriptionIntegrity] *)

(** [createdAt] and [updatedAt] are the time values their strings parse to,
    [None] for an empty or unparsable string.  For a non-empty unparsable
    string the code still enters the consistency check, where the Invalid
    Date compares false: no message, as for [None] here. *)
Definition validateSubscriptionIntegrity (subscription : Subscription.t) : ValidationResult :=
  let errors :=
    (if String.eqb (Subscription.id subscription) "" then ["Subscription ID is missing"%string] else [])
    ++ (match Subscription.createdAt subscription with
        | None => ["Invalid or missing creation date"%string]
        | Some _ => []
        end)
    ++ (match Subscription.updatedAt subscription with
        | None => ["Invalid or missing update date"%string]
        | Some _ => []
        end)
    ++ (match Subscription.createdAt subscription, Subscription.updatedAt subscription with
        | Some created, Some updated =>
            if (updated <? created)%Z then ["Update date cannot be before creation date"%string] else []
        | _, _ => []
        end) in
  {| isValid := Nat.eqb (List.length errors) 0; errors := errors |}.

(** ** [ValidationUtils.isValidString], [validateName], [validateDescription] *)

(** [typeof value === 'string'] holds of every string here. *)
Definition isValidString (value : string) (minLength maxLength : Z) : bool :=
  let trimmedLength := Z.of_nat (List.length (jsTrim (list_ascii_of_string value))) in
  (minLength <=? trimmedLength)%Z && (trimmedLength <=? maxLength)%Z.

(** [VALIDATION.MAX_NAME_LENGTH] comes from a constants module that is not
    part of the sources; it is a parameter. *)
Definition validateName (MAX_NAME_LENGTH : Z) (name : string) : ValidationResult :=
  let trimmedLength := Z.of_nat (List.length (jsTrim (list_ascii_of_string name))) in
  let errors :=
    if negb (isValidString name 1 MAX_NAME_LENGTH) then
      if String.eqb name "" || (trimmedLength =? 0)%Z then ["Subscription name is required"%string]
      else if (MAX_NAME_LENGTH <? trimmedLength)%Z then
        [String.append "Subscription name must be "
           (String.append (numberToString (Some MAX_NAME_LENGTH)) " characters or less")]
      else []
    else [] in
  {| isValid := Nat.eqb (List.length errors) 0; errors := errors |}.

Definition validateDescription (MAX_DESCRIPTION_LENGTH : Z) (description : string)
    : ValidationResult :=
  let trimmedLength := Z.of_nat (List.length (jsTrim (list_ascii_of_string description))) in
  let errors :=
    if negb (isValidString description 1 MAX_DESCRIPTION_LENGTH) then
      if String.eqb description "" || (trimmedLength =? 0)%Z then ["Expense description is required"%string]
      else if (MAX_DESCRIPTION_LENGTH <? trimmedLength)%Z then
        [String.append "Expense description must be "
           (String.append (numberToString (Some MAX_DESCRIPTION_LENGTH)) " characters or less")]
      else []
    else [] in
  {| isValid := Nat.eqb (List.length errors) 0; errors := errors |}.

(** ** [CalculationUtils] by category *)

(** A JS object holding numbers: its own properties in insertion order.
    The keys are category names; a key naming a member of
    [Object.prototype] (such as "constructor") would read that member
    instead of [undefined], which this model leaves out. *)
Definition NumberRecord := list (string * R).

(** [acc[key]]. *)
Fixpoint recordGet (acc : NumberRecord) (key : string) : option R :=
  match acc with
  | [] => None
  | (k, v) :: rest => if String.eqb k key then Some v else recordGet rest key
  end.

(** [acc[key] = value]: an existing property keeps its place, a new one is
    added last. *)
Fixpoint recordSet (acc : NumberRecord) (key : string) (value : R) : NumberRecord :=
  match acc with
  | [] => [(key, value)]
  | (k, v) :: rest =>
      if String.eqb k key then (k, value) :: rest else (k, v) :: recordSet rest key value
  end.

(** [x || 0] on a number or [undefined] ([0 || 0] is [0]). *)
Definition orZero (x : option R) : R :=
  match x with Some v => v | None => 0 end.

Definition getExpensesByCategory (expenses : list Expense.t) : NumberRecord :=
  fold_left (fun acc expense =>
      recordSet acc (Expense.category expense)
        (orZero (recordGet acc (Expense.category expense)) + Expense.amount expense))
    expenses [].

Definition getMonthlySubscriptionCost (subscription : Subscription.t) : R :=
  match Subscription.billingCycle subscription with
  | monthly => Subscription.cost subscription
  | yearly => Subscription.cost subscription / 12
  | weekly => Subscription.cost subscription * 4.33
  | quarterly => Subscription.cost subscription / 3
  end.

Definition getSubscriptionsByCategory (subscriptions : list Subscription.t) : NumberRecord :=
  fold_left (fun acc subscription =>
      let monthlyCost := getMonthlySubscriptionCost subscription in
      recordSet acc (Subscription.category subscription)
        (orZero (recordGet acc (Subscription.category subscription)) + monthlyCost))
    subscriptions [].

(** Keys in order of first occurrence, as a [Set] would keep them. *)
Definition firstOccurrences (keys : list string) : list string :=
  fold_left (fun seen k => if existsb (String.eqb k) seen then seen else seen ++ [k]) keys [].

(** ** Specification helpers of [cn] *)

(** White space of a class list: only single spaces, none after a space
    when [prev] is set. *)
Fixpoint singleSpaced (prev : bool) (l : list ascii) : Prop :=
  match l with
  | [] => True
  | c :: r =>
      if isJsSpace c then c = " "%char /\ prev = false /\ singleSpaced true r
      else singleSpaced false r
  end.

(** The characters of [l] that are not white space. *)
Definition nonSpace (l : list ascii) : list ascii := filter (fun c => negb (isJsSpace c)) l.

(** ** Sample data *)

(** A monthly subscription last billed on 2024-01-01. *)
Definition gymSubscription : Subscription.t :=
  Subscription.mk "s1" "Gym" 30 monthly "health" (Some 1704067200000%Z) None None true None None.

(** * Proofs *)

(** ** Facts about the comparisons *)

Lemma Rleb_true x y : x <= y -> Rleb x y = true.
Proof. unfold Rleb; destruct (Rle_dec x y); auto; contradiction. Qed.

Lemma Rleb_false x y : ~ x <= y -> Rleb x y = false.
Proof. unfold Rleb; destruct (Rle_dec x y); auto; contradiction. Qed.

Lemma Rltb_true x y : x < y -> Rltb x y = true.
Proof. unfold Rltb; destruct (Rlt_dec x y); auto; contradiction. Qed.

Lemma Rltb_false x y : ~ x < y -> Rltb x y = false.
Proof. unfold Rltb; destruct (Rlt_dec x y); auto; contradiction. Qed.

Lemma Rleb_spec x y : reflect (x <= y) (Rleb x y).
Proof. unfold Rleb; destruct (Rle_dec x y); constructor; auto. Qed.

Lemma Rltb_spec x y : reflect (x < y) (Rltb x y).
Proof. unfold Rltb; destruct (Rlt_dec x y); constructor; auto. Qed.

(** Decide the comparisons of a goal on concrete numbers. *)
Ltac decide_R :=
  repeat match goal with
  | |- context [Rleb ?a ?b] =>
      first [ rewrite (Rleb_true a b) by lra
            | rewrite (Rleb_false a b) by lra ]
  | |- context [Rltb ?a ?b] =>
      first [ rewrite (Rltb_true a b) by lra
            | rewrite (Rltb_false a b) by lra ]
  end; cbv beta iota.

Example amount_example : calculateAmountSimilarity 100 110 = 1 - 10 / 15.75.
Proof.
  unfold calculateAmountSimilarity, AMOUNT_TOLERANCE.
  replace (Rabs (100 - 110)) with 10 by (rewrite Rabs_left; lra).
  decide_R. f_equal. f_equal. lra.
Qed.

(** ** The matrix of [calculateStringSimilarity] is the Levenshtein table *)

Section LevMatrix.
Variables s t : list ascii.

Lemma lev_0_j j : lev s t 0 j = j.
Proof. reflexivity. Qed.

Lemma lev_i_0 i : lev s t i 0 = i.
Proof. destruct i; reflexivity. Qed.

Lemma lev_S_S i j :
  lev s t (S i) (S j) =
  Nat.min (Nat.min (lev s t i (S j) + 1) (lev s t (S i) j + 1))
    (lev s t i j + (if ascii_dec (nth i s "000"%char) (nth j t "000"%char)
                    then 0 else 1)).
Proof. reflexivity. Qed.

Lemma skipn_nth_cons {B} (l : list B) k d :
  (k < List.length l)%nat -> skipn k l = nth k l d :: skipn (S k) l.
Proof.
  revert k; induction l as [|x l IH]; intros k Hk; simpl in *; [lia|].
  destruct k; [reflexivity|]. simpl. apply IH. lia.
Qed.

Lemma nth_map_seq {B} (f : nat -> B) n k d :
  (k < n)%nat -> nth k (map f (seq 0 n)) d = f k.
Proof.
  intros Hk.
  rewrite (nth_indep _ d (f 0%nat)) by (rewrite length_map, length_seq; lia).
  rewrite map_nth, seq_nth by lia. reflexivity.
Qed.

Lemma fill_row_lev i m k :
  (k + m = List.length t)%nat ->
  fill_row (nth i s "000"%char) (skipn k t) (map (lev s t i) (seq (S k) m))
    (lev s t i k) (lev s t (S i) k)
  = map (lev s t (S i)) (seq (S k) m).
Proof.
  revert k; induction m as [|m IH]; intros k Hk.
  - simpl. rewrite skipn_all2 by lia. reflexivity.
  - rewrite (skipn_nth_cons t k "000"%char) by lia.
    cbn [seq map fill_row].
    rewrite <- (lev_S_S i k). f_equal. apply IH. lia.
Qed.

Lemma fill_rows_lev s' i :
  skipn i s = s' ->
  fill_rows s' t i (map (lev s t i) (seq 0 (S (List.length t))))
  = map (fun r => map (lev s t r) (seq 0 (S (List.length t))))
      (seq (S i) (List.length s')).
Proof.
  revert i; induction s' as [|c s' IH]; intros i Hs; [reflexivity|].
  assert (Hc : nth i s "000"%char = c).
  { assert (Hl : (i < List.length s)%nat).
    { destruct (Nat.lt_ge_cases i (List.length s)) as [H|H]; auto.
      rewrite skipn_all2 in Hs by lia. discriminate. }
    rewrite (skipn_nth_cons s i "000"%char Hl) in Hs. congruence. }
  assert (Hs' : skipn (S i) s = s').
  { destruct (Nat.lt_ge_cases i (List.length s)) as [H|H].
    - rewrite (skipn_nth_cons s i "000"%char H) in Hs. congruence.
    - rewrite skipn_all2 in Hs by lia. discriminate. }
  cbn [fill_rows seq map List.length tl hd].
  rewrite <- Hc.
  pose proof (fill_row_lev i (List.length t) 0 ltac:(lia)) as F.
  cbn [skipn] in F. rewrite (lev_i_0 (S i)) in F. rewrite F.
  replace (S i :: map (lev s t (S i)) (seq 1 (List.length t)))
    with (map (lev s t (S i)) (seq 0 (S (List.length t))))
    by reflexivity.
  rewrite (IH (S i) Hs'). reflexivity.
Qed.

Lemma map_lev_0 n : map (lev s t 0) (seq 0 n) = seq 0 n.
Proof.
  rewrite <- (map_id (seq 0 n)) at 2. apply map_ext. reflexivity.
Qed.

Lemma levenshteinMatrix_lev :
  levenshteinMatrix s t
  = map (fun r => map (lev s t r) (seq 0 (S (List.length t))))
      (seq 0 (S (List.length s))).
Proof.
  unfold levenshteinMatrix.
  rewrite <- (map_lev_0 (S (List.length t))) at 1 2.
  rewrite fill_rows_lev by reflexivity.
  reflexivity.
Qed.

Lemma levenshteinMatrix_corner :
  nth (List.length t) (nth (List.length s) (levenshteinMatrix s t) []) 0%nat
  = levenshtein s t.
Proof.
  rewrite levenshteinMatrix_lev.
  rewrite nth_map_seq by lia. rewrite nth_map_seq by lia. reflexivity.
Qed.

End LevMatrix.

Lemma calculateStringSimilarity_levenshtein s t :
  calculateStringSimilarity s t =
  let maxLen := Nat.max (List.length s) (List.length t) in
  if (maxLen =? 0)%nat then 1
  else (INR maxLen - INR (levenshtein s t)) / INR maxLen.
Proof.
  unfold calculateStringSimilarity, levenshtein; cbv zeta.
  destruct (List.length s) as [|n] eqn:Hs; destruct (List.length t) as [|m] eqn:Ht.
  - reflexivity.
  - cbn [Nat.eqb Nat.max]. rewrite lev_0_j.
    unfold Rdiv. rewrite Rminus_diag, Rmult_0_l. reflexivity.
  - cbn [Nat.eqb Nat.max]. rewrite lev_i_0.
    unfold Rdiv. rewrite Rminus_diag, Rmult_0_l. reflexivity.
  - cbn [Nat.eqb]. replace (Nat.max (S n) (S m) =? 0)%nat with false
      by (symmetry; apply Nat.eqb_neq; lia).
    rewrite <- Hs, <- Ht, levenshteinMatrix_corner. reflexivity.
Qed.

Lemma INR_IZR n : INR n = IZR (Z.of_nat n).
Proof. apply INR_IZR_INZ. Qed.

Lemma lev_diag s i : lev s s i i = 0%nat.
Proof.
  induction i as [|i IH]; [reflexivity|].
  rewrite lev_S_S, IH. destruct (ascii_dec _ _) as [_|n]; [|contradiction].
  lia.
Qed.

Lemma stringSimilarity_refl a : stringSimilarity a a = 1.
Proof.
  unfold stringSimilarity. rewrite calculateStringSimilarity_levenshtein.
  cbv zeta. rewrite Nat.max_id. unfold levenshtein. rewrite lev_diag.
  destruct (List.length (toLowerCase a)) as [|n]; [reflexivity|].
  cbn [Nat.eqb]. simpl (INR 0). rewrite Rminus_0_r. field.
  apply not_0_INR. lia.
Qed.

Ltac eval_amount :=
  unfold calculateAmountSimilarity, AMOUNT_TOLERANCE; cbv zeta;
  first [ rewrite (Rabs_left (_ - _)) by lra
        | rewrite (Rabs_right (_ - _)) by lra ];
  decide_R.

(** ** C3: amount similarity *)

(** C3 (counterexample): [amountSimilarity(100, 115)] is not 0: the
    tolerance is 15% of the average 107.5, i.e. 16.125, and the difference
    15 lies inside it. *)
Lemma amountSimilarity_100_115_positive : calculateAmountSimilarity 100 115 <> 0.
Proof. eval_amount. lra. Qed.

(** C3 (amended): [amountSimilarity x y] is [1 - diff/tolerance] when
    [diff <= tolerance] and [0] otherwise, with [diff = |x - y|] and
    [tolerance = (x + y)/2 * 0.15]; [amountSimilarity(100, 100) = 1],
    [amountSimilarity(100, 114.99)] is a small positive value,
    [amountSimilarity(100, 115) = 3/43] (about 0.07), and the score 0 is
    reached at [y = 100 * 43/37] (about 116.22), where [|x - y|] is exactly
    15% of the average. *)
Theorem amountSimilarity_amended :
  (forall x y,
     let diff := Rabs (x - y) in
     let tolerance := (x + y) / 2 * 0.15 in
     (diff <= tolerance /\ calculateAmountSimilarity x y = 1 - diff / tolerance)
     \/ (tolerance < diff /\ calculateAmountSimilarity x y = 0))
  /\ calculateAmountSimilarity 100 100 = 1
  /\ 0 < calculateAmountSimilarity 100 114.99 < 0.1
  /\ calculateAmountSimilarity 100 115 = 3 / 43
  /\ calculateAmountSimilarity 100 (100 * 43 / 37) = 0.
Proof.
  split; [|split; [|split; [|split]]].
  - intros x y. cbv zeta. unfold calculateAmountSimilarity, AMOUNT_TOLERANCE.
    cbv zeta. destruct (Rleb_spec (Rabs (x - y)) ((x + y) / 2 * 0.15)).
    + left. split; auto.
    + right. split; [lra | reflexivity].
  - unfold calculateAmountSimilarity, AMOUNT_TOLERANCE; cbv zeta.
    rewrite Rminus_diag, Rabs_R0. decide_R. unfold Rdiv. rewrite Rmult_0_l. ring.
  - eval_amount. lra.
  - eval_amount. lra.
  - eval_amount. lra.
Qed.

(** ** C4: string similarity *)

(** C4: [stringSimilarity a b] is [(maxLen - levenshtein)/maxLen] over the
    lower-cased strings, with [levenshtein] the classic recurrence
    (insertion, deletion and substitution cost 1); two empty strings score
    1, a non-empty string against the empty one scores 0;
    "netflix"/"netflix" scores 1 and "netflix"/"netflex" scores (7-1)/7. *)
Theorem stringSimilarity_classic_levenshtein :
  (forall a b,
     let s := toLowerCase a in
     let t := toLowerCase b in
     let maxLen := Nat.max (List.length s) (List.length t) in
     stringSimilarity a b =
     if (maxLen =? 0)%nat then 1
     else (INR maxLen - INR (levenshtein s t)) / INR maxLen)
  /\ stringSimilarity "" "" = 1
  /\ (forall c s, stringSimilarity (String c s) "" = 0)
  /\ stringSimilarity "netflix" "netflix" = 1
  /\ stringSimilarity "netflix" "netflex" = (7 - 1) / 7.
Proof.
  split; [|split; [|split; [|split]]].
  - intros a b. apply calculateStringSimilarity_levenshtein.
  - reflexivity.
  - intros c s. reflexivity.
  - apply stringSimilarity_refl.
  - unfold stringSimilarity. rewrite calculateStringSimilarity_levenshtein.
    vm_compute (toLowerCase _). vm_compute (levenshtein _ _).
    cbv zeta. cbn [List.length Nat.max Nat.eqb].
    rewrite !INR_IZR. simpl Z.of_nat. reflexivity.
Qed.

(** ** The stable insertion sort *)

Section SortFacts.
Context {A : Type}.
Variable after : A -> A -> bool.

Lemma insert_by_perm x l : Permutation (insert_by after x l) (x :: l).
Proof.
  induction l as [|y l IH]; simpl; [reflexivity|].
  destruct (after y x); [reflexivity|].
  rewrite IH. apply perm_swap.
Qed.

Lemma fold_insert_perm l acc :
  Permutation (fold_left (fun acc x => insert_by after x acc) l acc) (l ++ acc).
Proof.
  revert acc; induction l as [|x l IH]; intros acc; simpl; [reflexivity|].
  rewrite IH, insert_by_perm. symmetry. apply Permutation_middle.
Qed.

Lemma sort_by_perm l : Permutation (sort_by after l) l.
Proof. unfold sort_by. rewrite fold_insert_perm, app_nil_r. reflexivity. Qed.

Hypothesis after_asym : forall a b, after a b = true -> after b a = false.

Let le_after a b := after a b = false.

Lemma insert_by_hd y x l :
  le_after y x -> HdRel le_after y l -> HdRel le_after y (insert_by after x l).
Proof.
  intros Hyx Hl. destruct l as [|z l]; simpl.
  - constructor. exact Hyx.
  - destruct (after z x).
    + constructor. exact Hyx.
    + constructor. inversion Hl; assumption.
Qed.

Lemma insert_by_sorted x l :
  Sorted le_after l -> Sorted le_after (insert_by after x l).
Proof.
  induction l as [|y l IH]; intros Hs; simpl.
  - repeat constructor.
  - destruct (after y x) eqn:E.
    + constructor; [exact Hs|]. constructor. unfold le_after. auto.
    + inversion Hs; subst. constructor; [auto|].
      apply insert_by_hd; assumption.
Qed.

Lemma sort_by_sorted l : Sorted le_after (sort_by after l).
Proof.
  unfold sort_by.
  assert (H : forall acc, Sorted le_after acc ->
            Sorted le_after (fold_left (fun acc x => insert_by after x acc) l acc)).
  { induction l as [|x l IH]; intros acc Hacc; simpl; auto.
    apply IH. apply insert_by_sorted. exact Hacc. }
  apply H. constructor.
Qed.

End SortFacts.

Lemma Sorted_weaken {A} (R1 R2 : A -> A -> Prop) l :
  (forall a b, R1 a b -> R2 a b) -> Sorted R1 l -> Sorted R2 l.
Proof.
  intros HR Hs. induction Hs as [|a l Hs IH Hd]; constructor; auto.
  destruct Hd; constructor; auto.
Qed.

(** ** What an accepted pattern is made of *)

Lemma analyzePattern_built pid seed cluster p :
  analyzePattern pid seed cluster = Ok (Some p) -> builtFrom seed cluster p.
Proof.
  unfold analyzePattern, builtFrom.
  destruct (List.length cluster <? MIN_OCCURRENCES)%nat eqn:Hlen; [discriminate|].
  apply Nat.ltb_ge in Hlen.
  unfold determineFrequency.
  destruct (intervalsOf (sort_by dateAfter cluster)) as [|i0 is] eqn:Hiv;
    [discriminate|].
  rewrite <- Hiv.
  destruct (frequencyBand _) as [[f fc]|] eqn:Hband; [|discriminate].
  destruct (Rltb_spec (consistencyScore (intervalsOf (sort_by dateAfter cluster)) * 0.6
                       + fc * 0.4) 0.6) as [Hlt|Hge]; [discriminate|].
  destruct (calculateNextExpectedDate _ f); [|discriminate].
  intros H; injection H as <-; cbn.
  repeat split; auto; [lra|].
  exists fc. split; [reflexivity|]. ring.
Qed.

Lemma Rgeb_true_iff x y : Rgeb x y = true <-> x >= y.
Proof.
  unfold Rgeb. destruct (Rleb_spec y x); split; intros; auto; try lra; discriminate.
Qed.

Section Detect.
Variable newId : nat -> string.
Variable sortedExpenses : list Expense.t.

Let good (p : Pattern.t) : Prop :=
  exists seed, In seed sortedExpenses
               /\ builtFrom seed (findSimilarExpenses seed sortedExpenses) p.

Lemma detectLoop_good todo processed patterns result :
  incl todo sortedExpenses ->
  Forall good patterns ->
  detectLoop newId sortedExpenses todo processed patterns = Ok result ->
  Forall good result.
Proof.
  revert processed patterns.
  induction todo as [|e rest IH]; intros processed patterns Hincl Hgood Hrun.
  - simpl in Hrun. congruence.
  - assert (Hrest : incl rest sortedExpenses) by (intros x Hx; apply Hincl; right; auto).
    cbn [detectLoop] in Hrun.
    destruct (existsb _ processed); [eapply IH; eauto|].
    destruct (MIN_OCCURRENCES <=? List.length _)%nat; [|eapply IH; eauto].
    destruct (analyzePattern _ e _) as [[p|]|] eqn:Ha; [| eapply IH; eauto | discriminate].
    destruct (Rgeb (Pattern.confidence p) 0.6); [|eapply IH; eauto].
    eapply IH; [exact Hrest| |exact Hrun].
    apply Forall_app. split; [exact Hgood|]. constructor; [|constructor].
    exists e. split; [apply Hincl; left; reflexivity|].
    eapply analyzePattern_built. exact Ha.
Qed.

End Detect.

Lemma confidenceAfter_asym a b :
  confidenceAfter a b = true -> confidenceAfter b a = false.
Proof.
  unfold confidenceAfter, Rgtb.
  destruct (Rltb_spec 0 (Pattern.confidence b - Pattern.confidence a)); [|discriminate].
  intros _. apply Rltb_false. lra.
Qed.

Lemma confidence_sorted l :
  Sorted (fun a b => Pattern.confidence a >= Pattern.confidence b)
    (sort_by confidenceAfter l).
Proof.
  eapply Sorted_weaken; [|apply (sort_by_sorted confidenceAfter confidenceAfter_asym)].
  intros a b H. unfold confidenceAfter, Rgtb in H.
  destruct (Rltb_spec 0 (Pattern.confidence b - Pattern.confidence a)); [discriminate|].
  lra.
Qed.

(** ** C1: accepted patterns *)

(** C1: every pattern returned by [detectPatterns] was built by
    [analyzePattern] from the cluster of similar expenses of some input
    expense (its seed): the cluster has at least [MIN_OCCURRENCES = 2]
    members, the pattern's confidence is
    [0.6 * consistencyScore + 0.4 * frequencyConfidence] and at least 0.6;
    and the returned list is sorted by descending confidence. *)
Theorem detectPatterns_accepted_sorted newId expenses patterns :
  detectPatterns newId expenses = Ok patterns ->
  Forall (fun p => exists seed, In seed expenses
            /\ builtFrom seed (findSimilarExpenses seed (sort_by dateAfter expenses)) p)
    patterns
  /\ Sorted (fun a b => Pattern.confidence a >= Pattern.confidence b) patterns.
Proof.
  unfold detectPatterns.
  destruct (detectLoop _ _ _ _ _) as [acc|] eqn:Hloop; [|discriminate].
  intros H; injection H as <-. split; [|apply confidence_sorted].
  apply (Permutation_Forall (Permutation_sym (sort_by_perm confidenceAfter acc))).
  apply detectLoop_good in Hloop; [| apply incl_refl | constructor].
  eapply Forall_impl; [|exact Hloop].
  intros p [seed [Hin Hb]]. exists seed. split; [|exact Hb].
  eapply Permutation_in; [apply sort_by_perm | exact Hin].
Qed.

(** ** Evaluating the detector on concrete inputs *)

Lemma calculateStringSimilarity_refl s : calculateStringSimilarity s s = 1.
Proof.
  rewrite calculateStringSimilarity_levenshtein.
  cbv zeta. rewrite Nat.max_id. unfold levenshtein. rewrite lev_diag.
  destruct (List.length s) as [|n]; [reflexivity|].
  cbn [Nat.eqb]. simpl (INR 0). rewrite Rminus_0_r. field.
  apply not_0_INR. lia.
Qed.

Lemma isSimilarTo_self t e :
  Expense.id e = Expense.id t -> isSimilarTo t e = true.
Proof. intros H. unfold isSimilarTo. rewrite H, String.eqb_refl. reflexivity. Qed.

Lemma isSimilarTo_same_text t e :
  Expense.id e <> Expense.id t ->
  Expense.description e = Expense.description t ->
  Expense.category e = Expense.category t ->
  isSimilarTo t e
  = Rgeb (1 * 0.5 + calculateAmountSimilarity (Expense.amount t) (Expense.amount e) * 0.3
          + 0.2) 0.8.
Proof.
  intros Hid Hd Hc. unfold isSimilarTo.
  rewrite (proj2 (String.eqb_neq _ _) Hid), Hd, Hc, String.eqb_refl.
  rewrite calculateStringSimilarity_refl. reflexivity.
Qed.

Ltac similar_same_text :=
  rewrite isSimilarTo_same_text by (cbn; first [discriminate | reflexivity]);
  cbn [Expense.amount gym1 gym2 gym3]; unfold Rgeb; eval_amount; decide_R; reflexivity.

Lemma gym_sim_1_2 : isSimilarTo gym1 gym2 = true.
Proof. similar_same_text. Qed.

Lemma gym_sim_1_3 : isSimilarTo gym1 gym3 = false.
Proof. similar_same_text. Qed.

Lemma gym_sim_3_1 : isSimilarTo gym3 gym1 = false.
Proof. similar_same_text. Qed.

Lemma gym_sim_3_2 : isSimilarTo gym3 gym2 = true.
Proof. similar_same_text. Qed.

Ltac simpl_R :=
  repeat match goal with
  | |- context [Rabs ?x] =>
      first [ rewrite (Rabs_right x) by lra | rewrite (Rabs_left x) by lra ]
  | |- context [Rmax ?x ?y] =>
      first [ rewrite (Rmax_right x y) by lra | rewrite (Rmax_left x y) by lra ]
  end.

Ltac eval_R := repeat (progress (simpl_R; decide_R; cbn [andb orb])).

(** Replace a closed subterm [f a b] of a computable type by its value. *)
Ltac vm_subterm f :=
  match goal with
  | |- context [f ?a ?b] =>
      let v := eval vm_compute in (f a b) in change (f a b) with v
  end.

Lemma avgInterval_single k : avgInterval [k] = IZR k.
Proof. unfold avgInterval, sumR. cbn [map fold_left List.length INR]. field. Qed.

Lemma consistencyScore_single k : consistencyScore [k] = 1.
Proof.
  unfold consistencyScore.
  replace (variance [k]) with 0.
  - rewrite sqrt_0. unfold Rdiv. rewrite Rmult_0_l, Rminus_0_r.
    apply Rmax_right. lra.
  - unfold variance. rewrite avgInterval_single. unfold sumR.
    cbn [map fold_left List.length INR]. field.
Qed.

Lemma determineFrequency_single k :
  determineFrequency [k] =
  match frequencyBand (IZR k) with
  | Some (f, fc) => (Some f, 1 * 0.6 + fc * 0.4)
  | None => (None, 0)
  end.
Proof.
  unfold determineFrequency. rewrite consistencyScore_single, avgInterval_single.
  reflexivity.
Qed.

Lemma frequencyBand_7 : frequencyBand 7 = Some (weekly, 1).
Proof. unfold frequencyBand, Rgeb. eval_R. do 2 f_equal. lra. Qed.

Lemma frequencyBand_30 : frequencyBand 30 = Some (monthly, 1).
Proof. unfold frequencyBand, Rgeb. eval_R. do 2 f_equal. lra. Qed.

Lemma frequencyBand_45 : frequencyBand 45 = None.
Proof. unfold frequencyBand, Rgeb. eval_R. reflexivity. Qed.

(** One step of [detectLoop]. *)
Section LoopSteps.
Variables (newId : nat -> string) (all : list Expense.t) (e : Expense.t)
          (rest : list Expense.t) (processed : list string)
          (patterns : list Pattern.t).

Lemma detectLoop_skip :
  existsb (String.eqb (Expense.id e)) processed = true ->
  detectLoop newId all (e :: rest) processed patterns
  = detectLoop newId all rest processed patterns.
Proof. intros H. cbn [detectLoop]. rewrite H. reflexivity. Qed.

Lemma detectLoop_accept similar p :
  existsb (String.eqb (Expense.id e)) processed = false ->
  findSimilarExpenses e all = similar ->
  (MIN_OCCURRENCES <= List.length similar)%nat ->
  analyzePattern (newId (List.length patterns)) e similar = Ok (Some p) ->
  Rgeb (Pattern.confidence p) 0.6 = true ->
  detectLoop newId all (e :: rest) processed patterns
  = detectLoop newId all rest (processed ++ map Expense.id similar) (patterns ++ [p]).
Proof.
  intros H1 H2 H3 H4 H5. cbn [detectLoop]. rewrite H1, H2.
  apply Nat.leb_le in H3. rewrite H3, H4, H5. reflexivity.
Qed.

Lemma detectLoop_throw similar :
  existsb (String.eqb (Expense.id e)) processed = false ->
  findSimilarExpenses e all = similar ->
  (MIN_OCCURRENCES <= List.length similar)%nat ->
  analyzePattern (newId (List.length patterns)) e similar = Throw ->
  detectLoop newId all (e :: rest) processed patterns = Throw.
Proof.
  intros H1 H2 H3 H4. cbn [detectLoop]. rewrite H1, H2.
  apply Nat.leb_le in H3. rewrite H3, H4. reflexivity.
Qed.

End LoopSteps.

(** *** The gym scenario *)

Lemma find_gym1 : findSimilarExpenses gym1 [gym1; gym2; gym3] = [gym1; gym2].
Proof.
  unfold findSimilarExpenses. cbn [filter].
  rewrite (isSimilarTo_self gym1 gym1 eq_refl), gym_sim_1_2, gym_sim_1_3.
  reflexivity.
Qed.

Lemma find_gym3 : findSimilarExpenses gym3 [gym1; gym2; gym3] = [gym2; gym3].
Proof.
  unfold findSimilarExpenses. cbn [filter].
  rewrite (isSimilarTo_self gym3 gym3 eq_refl), gym_sim_3_1, gym_sim_3_2.
  reflexivity.
Qed.

Ltac eval_analyze sorted ivs band :=
  unfold analyzePattern; cbn [List.length MIN_OCCURRENCES Nat.ltb Nat.leb];
  replace (sort_by dateAfter sorted) with sorted by reflexivity;
  replace (intervalsOf sorted) with ivs by reflexivity;
  rewrite determineFrequency_single, band;
  cbv beta iota zeta; decide_R;
  vm_subterm calculateNextExpectedDate; cbv beta iota;
  eexists; split; [reflexivity | split; reflexivity].

Lemma analyze_gym12 pid :
  exists p, analyzePattern pid gym1 [gym1; gym2] = Ok (Some p)
            /\ Pattern.expenseIds p = ["e1"%string; "e2"%string]
            /\ Pattern.confidence p = 1 * 0.6 + 1 * 0.4.
Proof. eval_analyze [gym1; gym2] [30%Z] frequencyBand_30. Qed.

Lemma analyze_gym23 pid :
  exists p, analyzePattern pid gym3 [gym2; gym3] = Ok (Some p)
            /\ Pattern.expenseIds p = ["e2"%string; "e3"%string]
            /\ Pattern.confidence p = 1 * 0.6 + 1 * 0.4.
Proof. eval_analyze [gym2; gym3] [30%Z] frequencyBand_30. Qed.

Lemma detect_gym :
  exists pA pB,
    detectPatterns scenarioIds [gym1; gym2; gym3] = Ok [pA; pB]
    /\ Pattern.expenseIds pA = ["e1"%string; "e2"%string]
    /\ Pattern.expenseIds pB = ["e2"%string; "e3"%string].
Proof.
  destruct (analyze_gym12 (scenarioIds 0)) as (pA & HA & HidA & HcA).
  destruct (analyze_gym23 (scenarioIds 1)) as (pB & HB & HidB & HcB).
  exists pA, pB. split; [|auto].
  unfold detectPatterns.
  replace (sort_by dateAfter [gym1; gym2; gym3]) with [gym1; gym2; gym3]
    by reflexivity.
  rewrite (detectLoop_accept _ _ gym1 _ [] [] [gym1; gym2] pA);
    [| reflexivity | apply find_gym1 | unfold MIN_OCCURRENCES; simpl; lia | exact HA
     | rewrite HcA; unfold Rgeb; decide_R; reflexivity].
  cbn [app map].
  rewrite detectLoop_skip by reflexivity.
  rewrite (detectLoop_accept _ _ gym3 [] _ [pA] [gym2; gym3] pB);
    [| reflexivity | apply find_gym3 | unfold MIN_OCCURRENCES; simpl; lia | exact HB
     | rewrite HcB; unfold Rgeb; decide_R; reflexivity].
  cbn [detectLoop app map].
  unfold sort_by. cbn [fold_left insert_by].
  unfold confidenceAfter, Rgtb. rewrite HcA, HcB. decide_R. reflexivity.
Qed.

(** ** C1 witness *)

(** C1 witness: on the gym scenario [detectPatterns] returns, and C1 holds
    of its result. *)
Lemma detectPatterns_accepted_sorted_witness :
  exists patterns,
    detectPatterns scenarioIds [gym1; gym2; gym3] = Ok patterns
    /\ (Forall (fun p => exists seed, In seed [gym1; gym2; gym3]
           /\ builtFrom seed (findSimilarExpenses seed
                                (sort_by dateAfter [gym1; gym2; gym3])) p)
          patterns
        /\ Sorted (fun a b => Pattern.confidence a >= Pattern.confidence b) patterns).
Proof.
  destruct detect_gym as (pA & pB & H & _ & _).
  exists [pA; pB]. split; [exact H|].
  exact (detectPatterns_accepted_sorted scenarioIds [gym1; gym2; gym3] [pA; pB] H).
Defined.

(** ** C6: clusters and seeds *)

(** C6 (counterexample): on the gym scenario the two returned patterns
    both contain expense "e2": the seed "e3" is compared with the whole
    list, already processed expenses included. *)
Lemma detectPatterns_overlapping_clusters :
  exists patterns p q,
    detectPatterns scenarioIds [gym1; gym2; gym3] = Ok patterns
    /\ In p patterns /\ In q patterns /\ p <> q
    /\ In "e2"%string (Pattern.expenseIds p) /\ In "e2"%string (Pattern.expenseIds q).
Proof.
  destruct detect_gym as (pA & pB & H & HA & HB).
  exists [pA; pB], pA, pB. repeat split.
  - exact H.
  - left; reflexivity.
  - right; left; reflexivity.
  - intros E. subst pB. rewrite HA in HB. discriminate.
  - rewrite HA. right; left; reflexivity.
  - rewrite HB. left; reflexivity.
Qed.

Lemma app_snoc_split {A} (acc pre post : list A) x y :
  acc ++ [x] = pre ++ y :: post ->
  (pre = acc /\ y = x /\ post = []) \/ (exists post', acc = pre ++ y :: post').
Proof.
  revert acc; induction pre as [|z pre IH]; intros acc H.
  - destruct acc as [|a acc]; simpl in H.
    + injection H as -> ->. left; auto.
    + injection H as -> Hr. right. exists acc. reflexivity.
  - destruct acc as [|a acc]; simpl in H.
    + injection H as _ Hr. destruct pre; discriminate.
    + injection H as -> Hr. destruct (IH acc Hr) as [(-> & -> & ->)|(post' & ->)].
      * left; auto.
      * right. exists post'. reflexivity.
Qed.

Lemma existsb_eqb_In x l : existsb (String.eqb x) l = true <-> In x l.
Proof.
  rewrite existsb_exists. split.
  - intros (y & Hy & E). apply String.eqb_eq in E. subst. exact Hy.
  - intros H. exists x. split; [exact H | apply String.eqb_refl].
Qed.

Section Seeds.
Variable newId : nat -> string.
Variable sortedExpenses : list Expense.t.

Lemma detectLoop_seeds todo processed acc result :
  incl todo sortedExpenses ->
  (forall q x, In q (map snd acc) -> In x (Pattern.expenseIds q) -> In x processed) ->
  seedsFresh acc ->
  detectLoop newId sortedExpenses todo processed (map snd acc) = Ok result ->
  exists acc', map snd acc' = result /\ seedsFresh acc'.
Proof.
  revert processed acc.
  induction todo as [|e rest IH]; intros processed acc Hincl Hproc Hfresh Hrun.
  - cbn [detectLoop] in Hrun. injection Hrun as <-. exists acc. auto.
  - assert (Hrest : incl rest sortedExpenses) by (intros x Hx; apply Hincl; right; auto).
    cbn [detectLoop] in Hrun.
    destruct (existsb _ processed) eqn:Hseen; [eapply IH; eauto|].
    destruct (MIN_OCCURRENCES <=? List.length _)%nat; [|eapply IH; eauto].
    destruct (analyzePattern _ e _) as [[p|]|] eqn:Ha; [| eapply IH; eauto | discriminate].
    destruct (Rgeb (Pattern.confidence p) 0.6); [|eapply IH; eauto].
    apply analyzePattern_built in Ha.
    destruct Ha as (_ & Hids & _).
    assert (Hperm : forall x, In x (Pattern.expenseIds p) <->
                      In x (map Expense.id (findSimilarExpenses e sortedExpenses))).
    { intros x. rewrite Hids. split; apply Permutation_in;
        [|symmetry]; apply Permutation_map, sort_by_perm. }
    apply (IH (processed ++ map Expense.id (findSimilarExpenses e sortedExpenses)) (acc ++ [(e, p)]));
      [exact Hrest | | | rewrite map_app; exact Hrun].
    + intros q x Hq Hx. rewrite map_app in Hq. apply in_app_or in Hq.
      apply in_or_app. destruct Hq as [Hq|[<-|[]]].
      * left. eapply Hproc; eauto.
      * right. apply Hperm. exact Hx.
    + intros pre seed q post Hsplit.
      destruct (app_snoc_split _ _ _ _ _ Hsplit) as [(-> & Heq & ->)|(post' & Hacc)].
      * injection Heq as -> ->. split.
        -- apply Hperm. apply in_map. unfold findSimilarExpenses.
           apply filter_In. split; [apply Hincl; left; reflexivity|].
           apply isSimilarTo_self. reflexivity.
        -- intros q' Hq' Hin. apply (Hproc _ _ Hq') in Hin.
           apply existsb_eqb_In in Hin. congruence.
      * exact (Hfresh _ _ _ _ Hacc).
Qed.

End Seeds.

(** C6 (amended): the patterns returned by [detectPatterns] need not be
    disjoint; what the processed set guarantees is that the returned list
    is the list of accepted patterns re-sorted by confidence where, in
    acceptance order, each pattern's seed is among its own [expenseIds] and
    among those of no earlier-accepted pattern. *)
Theorem detectPatterns_seeds_fresh newId expenses patterns :
  detectPatterns newId expenses = Ok patterns ->
  exists acc, patterns = sort_by confidenceAfter (map snd acc) /\ seedsFresh acc.
Proof.
  unfold detectPatterns.
  destruct (detectLoop _ _ _ _ _) as [res|] eqn:Hloop; [|discriminate].
  intros H; injection H as <-.
  destruct (detectLoop_seeds newId (sort_by dateAfter expenses)
              (sort_by dateAfter expenses) [] [] res (incl_refl _))
    as (acc & Hacc & Hfresh).
  - intros q x [].
  - intros pre seed p post Hs. destruct pre; discriminate.
  - exact Hloop.
  - exists acc. rewrite Hacc. auto.
Qed.

(** C6 witness: the gym scenario. *)
Lemma detectPatterns_seeds_fresh_witness :
  exists patterns,
    detectPatterns scenarioIds [gym1; gym2; gym3] = Ok patterns
    /\ exists acc, patterns = sort_by confidenceAfter (map snd acc) /\ seedsFresh acc.
Proof.
  destruct detect_gym as (pA & pB & H & _ & _).
  exists [pA; pB]. split; [exact H|].
  exact (detectPatterns_seeds_fresh scenarioIds [gym1; gym2; gym3] [pA; pB] H).
Defined.

(** ** C2: frequency bands *)

Lemma avgInterval_pair k : avgInterval [k; k] = IZR k.
Proof. unfold avgInterval, sumR. cbn [map fold_left List.length INR]. field. Qed.

Lemma consistencyScore_pair k : consistencyScore [k; k] = 1.
Proof.
  unfold consistencyScore.
  replace (variance [k; k]) with 0.
  - rewrite sqrt_0. unfold Rdiv. rewrite Rmult_0_l, Rminus_0_r.
    apply Rmax_right. lra.
  - unfold variance. rewrite avgInterval_pair. unfold sumR.
    cbn [map fold_left List.length INR]. field.
Qed.

Lemma determineFrequency_pair k :
  determineFrequency [k; k] =
  match frequencyBand (IZR k) with
  | Some (f, fc) => (Some f, 1 * 0.6 + fc * 0.4)
  | None => (None, 0)
  end.
Proof.
  unfold determineFrequency. rewrite consistencyScore_pair, avgInterval_pair.
  reflexivity.
Qed.

Ltac pick_band :=
  first [ left; split; [lra | reflexivity]
        | right; pick_band
        | split; [lra | reflexivity] ].

(** C2: the frequency is classified by fixed, disjoint bands on the mean
    interval: weekly on [6,8] (center 7), monthly on [28,35] (center 30),
    quarterly on [85,95] (center 90), yearly on [360,370] (center 365), with
    [frequencyConfidence = max(0, 1 - |mean - center|/center)], and none
    outside them; [determineFrequency] takes its frequency from these bands
    for every non-empty interval list.  Consistent 30-day intervals are
    monthly with [frequencyConfidence = 1] (confidence 1), 7-day intervals
    weekly, and 45-day intervals get no frequency, so a cluster with them
    yields no pattern. *)
Theorem determineFrequency_fixed_bands :
  (forall avg,
     (6 <= avg <= 8
      /\ frequencyBand avg = Some (weekly, Rmax 0 (1 - Rabs (avg - 7) / 7)))
     \/ (28 <= avg <= 35
         /\ frequencyBand avg = Some (monthly, Rmax 0 (1 - Rabs (avg - 30) / 30)))
     \/ (85 <= avg <= 95
         /\ frequencyBand avg = Some (quarterly, Rmax 0 (1 - Rabs (avg - 90) / 90)))
     \/ (360 <= avg <= 370
         /\ frequencyBand avg = Some (yearly, Rmax 0 (1 - Rabs (avg - 365) / 365)))
     \/ ((~ (6 <= avg <= 8) /\ ~ (28 <= avg <= 35) /\ ~ (85 <= avg <= 95)
          /\ ~ (360 <= avg <= 370)) /\ frequencyBand avg = None))
  /\ (forall k rest,
        fst (determineFrequency (k :: rest))
        = option_map fst (frequencyBand (avgInterval (k :: rest))))
  /\ frequencyBand (avgInterval [30%Z; 30%Z]) = Some (monthly, 1)
  /\ determineFrequency [30%Z; 30%Z] = (Some monthly, 1)
  /\ fst (determineFrequency [7%Z; 7%Z]) = Some weekly
  /\ determineFrequency [45%Z; 45%Z] = (None, 0)
  /\ analyzePattern "pattern" gym1 [gym1; gym45] = Ok None.
Proof.
  split; [|split; [|split; [|split; [|split; [|split]]]]].
  - intros avg. unfold frequencyBand, Rgeb.
    destruct (Rleb_spec 6 avg); destruct (Rleb_spec avg 8);
    destruct (Rleb_spec 28 avg); destruct (Rleb_spec avg 35);
    destruct (Rleb_spec 85 avg); destruct (Rleb_spec avg 95);
    destruct (Rleb_spec 360 avg); destruct (Rleb_spec avg 370);
    cbn [andb]; first [exfalso; lra | pick_band].
  - intros k rest. unfold determineFrequency.
    destruct (frequencyBand _) as [[f fc]|]; reflexivity.
  - rewrite avgInterval_pair. apply frequencyBand_30.
  - rewrite determineFrequency_pair, frequencyBand_30. f_equal. lra.
  - rewrite determineFrequency_pair, frequencyBand_7. reflexivity.
  - rewrite determineFrequency_pair, frequencyBand_45. reflexivity.
  - unfold analyzePattern; cbn [List.length MIN_OCCURRENCES Nat.ltb Nat.leb].
    replace (sort_by dateAfter [gym1; gym45]) with [gym1; gym45] by reflexivity.
    replace (intervalsOf [gym1; gym45]) with [45%Z] by reflexivity.
    rewrite determineFrequency_single, frequencyBand_45. reflexivity.
Qed.

(** ** C5: the similarity predicate *)

Lemma amountSimilarity_same x : 0 < x -> calculateAmountSimilarity x x = 1.
Proof.
  intros Hx. unfold calculateAmountSimilarity, AMOUNT_TOLERANCE; cbv zeta.
  rewrite Rminus_diag, Rabs_R0, Rleb_true by lra.
  unfold Rdiv. rewrite Rmult_0_l. ring.
Qed.

(** C5: for records [a], [b] of the data model (positive amount, ids
    unique: equal ids are the same record), [a] is similar to [b] exactly
    when [0.5*stringSimilarity + 0.3*amountSimilarity + 0.2*categoryMatch]
    is at least 0.8; and every record is similar to itself. *)
Theorem isSimilarTo_score (a b : Expense.t) :
  0 < Expense.amount a ->
  (Expense.id a = Expense.id b -> a = b) ->
  (isSimilarTo a b = true <->
   0.5 * stringSimilarity (Expense.description a) (Expense.description b)
   + 0.3 * calculateAmountSimilarity (Expense.amount a) (Expense.amount b)
   + 0.2 * (if String.eqb (Expense.category a) (Expense.category b) then 1 else 0)
   >= SIMILARITY_THRESHOLD)
  /\ (forall e, isSimilarTo e e = true).
Proof.
  intros Hpos Huniq. split; [|intros e; apply isSimilarTo_self; reflexivity].
  destruct (String.eqb (Expense.id b) (Expense.id a)) eqn:Hid.
  - apply String.eqb_eq in Hid. symmetry in Hid. apply Huniq in Hid. subst b.
    rewrite isSimilarTo_self by reflexivity.
    rewrite stringSimilarity_refl, amountSimilarity_same, String.eqb_refl by exact Hpos.
    unfold SIMILARITY_THRESHOLD. split; intros _; [lra | reflexivity].
  - unfold isSimilarTo. rewrite Hid. rewrite Rgeb_true_iff. unfold stringSimilarity.
    destruct (String.eqb (Expense.category a) (Expense.category b));
      split; intros H; lra.
Qed.

(** C5 witness: two gym payments. *)
Lemma isSimilarTo_score_witness :
  0 < Expense.amount gym1
  /\ (Expense.id gym1 = Expense.id gym2 -> gym1 = gym2)
  /\ ((isSimilarTo gym1 gym2 = true <->
       0.5 * stringSimilarity (Expense.description gym1) (Expense.description gym2)
       + 0.3 * calculateAmountSimilarity (Expense.amount gym1) (Expense.amount gym2)
       + 0.2 * (if String.eqb (Expense.category gym1) (Expense.category gym2)
                then 1 else 0)
       >= SIMILARITY_THRESHOLD)
      /\ (forall e, isSimilarTo e e = true)).
Proof.
  assert (Hpos : 0 < Expense.amount gym1) by (cbn; lra).
  assert (Huniq : Expense.id gym1 = Expense.id gym2 -> gym1 = gym2)
    by (cbn; intros H; discriminate).
  split; [exact Hpos | split; [exact Huniq|]].
  exact (isSimilarTo_score gym1 gym2 Hpos Huniq).
Defined.

(** ** C7: degenerate inputs and the Date range *)

Lemma find_late1 : findSimilarExpenses late1 [late1; late2] = [late1; late2].
Proof.
  unfold findSimilarExpenses. cbn [filter].
  rewrite (isSimilarTo_self late1 late1 eq_refl).
  rewrite isSimilarTo_same_text by (cbn; first [discriminate | reflexivity]).
  cbn [Expense.amount late1 late2]. rewrite amountSimilarity_same by lra.
  unfold Rgeb, SIMILARITY_THRESHOLD. decide_R. reflexivity.
Qed.

Lemma analyze_late pid : analyzePattern pid late1 [late1; late2] = Throw.
Proof.
  unfold analyzePattern; cbn [List.length MIN_OCCURRENCES Nat.ltb Nat.leb].
  replace (sort_by dateAfter [late1; late2]) with [late1; late2] by reflexivity.
  replace (intervalsOf [late1; late2]) with [7%Z] by reflexivity.
  rewrite determineFrequency_single, frequencyBand_7.
  cbv beta iota zeta; decide_R.
  vm_subterm calculateNextExpectedDate. reflexivity.
Qed.

(** C7 (counterexample): a weekly fee paid on 275760-09-06 and on
    275760-09-13, the last valid JS date, makes [detectPatterns] raise:
    the next expected date 275760-09-20 is the Invalid Date and
    [toISOString] throws a [RangeError]. *)
Lemma detectPatterns_raises_at_date_limit :
  detectPatterns scenarioIds [late1; late2] = Throw.
Proof.
  unfold detectPatterns.
  replace (sort_by dateAfter [late1; late2]) with [late1; late2] by reflexivity.
  rewrite (detectLoop_throw _ _ late1 _ [] [] [late1; late2]);
    [reflexivity | reflexivity | apply find_late1
    | unfold MIN_OCCURRENCES; simpl; lia | apply analyze_late].
Qed.

Lemma In_last {A} (l : list A) d : In (last l d) (d :: l).
Proof.
  induction l as [|x l IH]; [left; reflexivity|].
  destruct l as [|y l]; [right; left; reflexivity|].
  cbn [last]. destruct IH as [E|H]; [left; exact E | right; right; exact H].
Qed.

Lemma analyzePattern_no_throw pid seed cluster :
  (forall e, In e (seed :: cluster) ->
     forall f, calculateNextExpectedDate (Expense.date e) f <> Throw) ->
  analyzePattern pid seed cluster <> Throw.
Proof.
  intros Hok. unfold analyzePattern.
  destruct (List.length cluster <? MIN_OCCURRENCES)%nat; [discriminate|].
  destruct (determineFrequency _) as [[f|] conf]; [|discriminate].
  destruct (Rltb conf 0.6); [discriminate|].
  destruct (calculateNextExpectedDate _ f) eqn:E; [discriminate|].
  exfalso. refine (Hok _ _ f E).
  destruct (In_last (sort_by dateAfter cluster) seed) as [H|H];
    [left; exact H|right].
  eapply Permutation_in; [apply sort_by_perm | exact H].
Qed.

Lemma detectLoop_no_throw newId S todo processed patterns :
  incl todo S ->
  (forall e, In e S -> forall f, calculateNextExpectedDate (Expense.date e) f <> Throw) ->
  detectLoop newId S todo processed patterns <> Throw.
Proof.
  revert processed patterns.
  induction todo as [|e rest IH]; intros processed patterns Hincl Hok;
    [discriminate|].
  assert (Hrest : incl rest S) by (intros x Hx; apply Hincl; right; auto).
  cbn [detectLoop].
  destruct (existsb _ processed); [apply IH; auto|].
  destruct (MIN_OCCURRENCES <=? List.length _)%nat; [|apply IH; auto].
  destruct (analyzePattern _ e _) as [[p|]|] eqn:Ha.
  - destruct (Rgeb _ _); apply IH; auto.
  - apply IH; auto.
  - exfalso. revert Ha. apply analyzePattern_no_throw.
    intros x [<-|Hx] f; apply Hok; [apply Hincl; left; reflexivity|].
    unfold findSimilarExpenses in Hx. apply filter_In in Hx. apply Hx.
Qed.

Lemma sumR_zeros l acc :
  Forall (fun i => i = 0%Z) l -> fold_left Rplus (map IZR l) acc = acc.
Proof.
  revert acc; induction l as [|i l IH]; intros acc H; [reflexivity|].
  inversion H; subst. cbn. rewrite Rplus_0_r. apply IH. assumption.
Qed.

Lemma intervalsOf_same_date d l :
  Forall (fun e => Expense.date e = d) l -> Forall (fun i => i = 0%Z) (intervalsOf l).
Proof.
  induction l as [|a l IH]; intros H; [constructor|].
  apply Forall_cons_iff in H as [Ha Hl].
  destruct l as [|b l]; [constructor|].
  pose proof Hl as Hl'. apply Forall_cons_iff in Hl' as [Hb _].
  cbn [intervalsOf]. constructor; [|apply IH; exact Hl].
  rewrite Hb, Ha, Z.sub_diag. reflexivity.
Qed.

Lemma frequencyBand_0 : frequencyBand 0 = None.
Proof. unfold frequencyBand, Rgeb. eval_R. reflexivity. Qed.

Lemma analyzePattern_no_band pid seed cluster :
  frequencyBand (avgInterval (intervalsOf (sort_by dateAfter cluster))) = None ->
  analyzePattern pid seed cluster = Ok None.
Proof.
  intros Hband. unfold analyzePattern.
  destruct (List.length cluster <? MIN_OCCURRENCES)%nat; [reflexivity|].
  unfold determineFrequency.
  destruct (intervalsOf (sort_by dateAfter cluster)) as [|i is] eqn:Hiv;
    [reflexivity|].
  rewrite Hband. reflexivity.
Qed.

Lemma analyzePattern_same_date pid seed cluster d :
  Forall (fun e => Expense.date e = d) cluster ->
  analyzePattern pid seed cluster = Ok None.
Proof.
  intros H. apply analyzePattern_no_band.
  assert (Hs : Forall (fun e => Expense.date e = d) (sort_by dateAfter cluster)).
  { eapply Permutation_Forall; [symmetry; apply sort_by_perm | exact H]. }
  apply intervalsOf_same_date in Hs.
  unfold avgInterval, sumR. rewrite sumR_zeros by exact Hs.
  unfold Rdiv. rewrite Rmult_0_l. apply frequencyBand_0.
Qed.

Lemma detectLoop_no_pattern newId S e rest processed patterns :
  analyzePattern (newId (List.length patterns)) e (findSimilarExpenses e S) = Ok None ->
  detectLoop newId S (e :: rest) processed patterns
  = detectLoop newId S rest processed patterns.
Proof.
  intros H. cbn [detectLoop].
  destruct (existsb _ processed); [reflexivity|].
  destruct (MIN_OCCURRENCES <=? List.length _)%nat; [rewrite H|]; reflexivity.
Qed.

(** C7 (amended): [detectPatterns] returns normally on every list of
    expenses whose dates can each be advanced by one cadence step within
    the JS Date range (otherwise [toISOString] may raise a [RangeError]);
    the empty list gives no pattern; a cluster whose expenses all fall on
    one date (zero mean interval), or whose mean interval is in no band,
    gives no pattern; and a seed whose cluster gives no pattern leaves the
    loop's state unchanged, the loop going on with the remaining
    expenses. *)
Theorem detectPatterns_degenerate_no_pattern newId expenses :
  (forall e, In e expenses ->
     forall f, calculateNextExpectedDate (Expense.date e) f <> Throw) ->
  (exists patterns, detectPatterns newId expenses = Ok patterns)
  /\ detectPatterns newId [] = Ok []
  /\ (forall pid seed cluster d,
        Forall (fun e => Expense.date e = d) cluster ->
        analyzePattern pid seed cluster = Ok None)
  /\ (forall pid seed cluster,
        frequencyBand (avgInterval (intervalsOf (sort_by dateAfter cluster))) = None ->
        analyzePattern pid seed cluster = Ok None)
  /\ (forall S e rest processed patterns,
        analyzePattern (newId (List.length patterns)) e (findSimilarExpenses e S) = Ok None ->
        detectLoop newId S (e :: rest) processed patterns
        = detectLoop newId S rest processed patterns).
Proof.
  intros Hok. split; [|split; [reflexivity|split; [|split]]].
  - unfold detectPatterns.
    destruct (detectLoop _ _ _ _ _) as [res|] eqn:Hloop.
    + eexists; reflexivity.
    + exfalso. revert Hloop. apply detectLoop_no_throw; [apply incl_refl|].
      intros e He. apply Hok.
      eapply Permutation_in; [apply sort_by_perm | exact He].
  - exact analyzePattern_same_date.
  - exact analyzePattern_no_band.
  - exact (detectLoop_no_pattern newId).
Qed.

Lemma gym_dates_in_range :
  forall e, In e [gym1; gym2; gym3] ->
  forall f, calculateNextExpectedDate (Expense.date e) f <> Throw.
Proof.
  intros e He f. destruct He as [<-|[<-|[<-|[]]]]; destruct f;
    vm_compute; discriminate.
Qed.

(** C7 witness: the gym scenario. *)
Lemma detectPatterns_degenerate_no_pattern_witness :
  (forall e, In e [gym1; gym2; gym3] ->
     forall f, calculateNextExpectedDate (Expense.date e) f <> Throw)
  /\ (exists patterns, detectPatterns scenarioIds [gym1; gym2; gym3] = Ok patterns)
  /\ detectPatterns scenarioIds [] = Ok []
  /\ (forall pid seed cluster d,
        Forall (fun e => Expense.date e = d) cluster ->
        analyzePattern pid seed cluster = Ok None)
  /\ (forall pid seed cluster,
        frequencyBand (avgInterval (intervalsOf (sort_by dateAfter cluster))) = None ->
        analyzePattern pid seed cluster = Ok None)
  /\ (forall S e rest processed patterns,
        analyzePattern (scenarioIds (List.length patterns)) e (findSimilarExpenses e S)
        = Ok None ->
        detectLoop scenarioIds S (e :: rest) processed patterns
        = detectLoop scenarioIds S rest processed patterns).
Proof.
  split; [exact gym_dates_in_range|].
  exact (detectPatterns_degenerate_no_pattern scenarioIds [gym1; gym2; gym3]
           gym_dates_in_range).
Defined.

(** ** C8: upcoming recurring expenses *)

Lemma dueAfter_asym a b : dueAfter a b = true -> dueAfter b a = false.
Proof.
  unfold dueAfter. rewrite !Z.gtb_ltb, Z.ltb_lt, Z.ltb_ge. lia.
Qed.

Lemma ceilDiv_ceiling x d :
  (0 < d)%Z -> (d * (ceilDiv x d - 1) < x <= d * ceilDiv x d)%Z.
Proof.
  intros Hd. unfold ceilDiv.
  pose proof (Z.div_mod (- x) d ltac:(lia)) as Hdm.
  pose proof (Z.mod_pos_bound (- x) d Hd) as Hb.
  nia.
Qed.

Lemma upcoming_entries today ps :
  Forall (fun u =>
            daysUntilDue u
            = ceilDiv (Pattern.nextExpectedDate (pattern u) - today) msPerDay
            /\ isOverdue u = (daysUntilDue u <? 0)%Z)
    (getUpcomingRecurringExpenses today ps).
Proof.
  unfold getUpcomingRecurringExpenses.
  eapply Permutation_Forall; [symmetry; apply sort_by_perm|].
  apply Forall_forall. intros u Hu.
  apply in_map_iff in Hu as [p [<- _]]. split; reflexivity.
Qed.

Lemma upcoming_patterns today ps :
  Permutation (map pattern (getUpcomingRecurringExpenses today ps))
    (filter Pattern.isConfirmed ps).
Proof.
  unfold getUpcomingRecurringExpenses.
  rewrite (Permutation_map pattern (sort_by_perm dueAfter _)).
  rewrite map_map. cbn. rewrite map_id. reflexivity.
Qed.

Lemma upcoming_sorted today ps :
  Sorted (fun a b => (daysUntilDue a <= daysUntilDue b)%Z)
    (getUpcomingRecurringExpenses today ps).
Proof.
  eapply Sorted_weaken; [|apply (sort_by_sorted dueAfter dueAfter_asym)].
  intros a b H. unfold dueAfter in H. rewrite Z.gtb_ltb, Z.ltb_ge in H. lia.
Qed.

(** C8: [getUpcomingRecurringExpenses today ps] lists exactly the
    confirmed patterns of [ps] (up to order), each with
    [daysUntilDue = ceil((nextExpectedDate - today) / 1 day)] (the
    integer [c] with [day*(c-1) < nextExpectedDate - today <= day*c]) and
    [isOverdue = (daysUntilDue < 0)]; the list is sorted ascending by
    [daysUntilDue]. A confirmed pattern due 3 days ago comes first with
    [daysUntilDue = -3], [isOverdue = true], before one due in 5 days
    with [daysUntilDue = 5], [isOverdue = false]. *)
Theorem getUpcoming_confirmed_sorted :
  (forall today ps,
     Permutation (map pattern (getUpcomingRecurringExpenses today ps))
       (filter Pattern.isConfirmed ps)
     /\ Forall (fun u =>
                  daysUntilDue u
                  = ceilDiv (Pattern.nextExpectedDate (pattern u) - today) msPerDay
                  /\ (msPerDay * (daysUntilDue u - 1)
                      < Pattern.nextExpectedDate (pattern u) - today
                      <= msPerDay * daysUntilDue u)%Z
                  /\ isOverdue u = (daysUntilDue u <? 0)%Z)
          (getUpcomingRecurringExpenses today ps)
     /\ Sorted (fun a b => (daysUntilDue a <= daysUntilDue b)%Z)
          (getUpcomingRecurringExpenses today ps))
  /\ getUpcomingRecurringExpenses today0 [dueSoon; dueUnconfirmed; duePast]
     = [mkUpcoming duePast (-3) true; mkUpcoming dueSoon 5 false].
Proof.
  split; [|reflexivity].
  intros today ps. split; [apply upcoming_patterns|split; [|apply upcoming_sorted]].
  eapply Forall_impl; [|apply upcoming_entries].
  intros u [Hd Ho]. split; [exact Hd|split; [|exact Ho]].
  rewrite Hd. apply ceilDiv_ceiling. unfold msPerDay. lia.
Qed.

(** ** C9: merge of detected patterns *)

Lemma mergeDetected_fold existing detected acc :
  fold_left
    (fun allPatterns newPattern =>
       if existsb (sameAsExisting newPattern) existing
       then allPatterns else allPatterns ++ [newPattern])
    detected acc
  = acc ++ filter (fun d => negb (existsb (sameAsExisting d) existing)) detected.
Proof.
  revert acc. induction detected as [|d ds IH]; intros acc; cbn.
  - now rewrite app_nil_r.
  - rewrite IH. destruct (existsb (sameAsExisting d) existing); cbn.
    + reflexivity.
    + now rewrite <- app_assoc.
Qed.

Lemma sameAsExisting_iff d e :
  sameAsExisting d e = true
  <-> Pattern.description e = Pattern.description d
      /\ Pattern.category e = Pattern.category d
      /\ Rabs (Pattern.averageAmount e - Pattern.averageAmount d) < 1.
Proof.
  unfold sameAsExisting. rewrite !andb_true_iff, !String.eqb_eq.
  unfold Rltb. destruct (Rlt_dec _ 1); intuition discriminate.
Qed.

(** C9: merging [detected] into [existing] keeps [existing] as it is and
    appends, in their order, exactly the detected patterns for which no
    existing pattern has the same description, the same category and an
    [averageAmount] less than 1 apart; a detected Netflix pattern at 15.50
    is not added next to an existing one at 15.99. *)
Theorem mergeDetected_appends_new :
  (forall existing detected,
     mergeDetected existing detected
     = existing ++ filter (fun d => negb (existsb (sameAsExisting d) existing)) detected
     /\ forall d,
          existsb (sameAsExisting d) existing = true
          <-> exists e, In e existing
                /\ Pattern.description e = Pattern.description d
                /\ Pattern.category e = Pattern.category d
                /\ Rabs (Pattern.averageAmount e - Pattern.averageAmount d) < 1)
  /\ mergeDetected [netflixExisting] [netflixDetected] = [netflixExisting]
  /\ List.length (mergeDetected [netflixExisting] [netflixDetected]) = 1%nat.
Proof.
  assert (Hnet : mergeDetected [netflixExisting] [netflixDetected] = [netflixExisting]).
  { unfold mergeDetected. cbn [fold_left existsb].
    assert (H : sameAsExisting netflixDetected netflixExisting = true).
    { apply sameAsExisting_iff. cbn. split; [reflexivity|split; [reflexivity|]].
      simpl_R. lra. }
    rewrite H. reflexivity. }
  split; [|split; [exact Hnet | rewrite Hnet; reflexivity]].
  intros existing detected. split; [apply mergeDetected_fold|].
  intros d. rewrite existsb_exists. split.
  - intros [e [He Hs]]. exists e. split; [exact He|]. now apply sameAsExisting_iff.
  - intros [e [He Hs]]. exists e. split; [exact He|]. now apply sameAsExisting_iff.
Qed.

(** ** C10: update after a new expense *)

(** 2024-01-15T00:00:00Z advanced by each cadence, and 2024-01-31 by one
    month, which [setMonth] carries over to 2024-03-02. *)
Lemma calculateNextExpectedDate_examples :
  calculateNextExpectedDate 1705276800000 weekly = Ok 1705881600000%Z
  /\ calculateNextExpectedDate 1705276800000 monthly = Ok 1707955200000%Z
  /\ calculateNextExpectedDate 1705276800000 quarterly = Ok 1713139200000%Z
  /\ calculateNextExpectedDate 1705276800000 yearly = Ok 1736899200000%Z
  /\ calculateNextExpectedDate 1706659200000 monthly = Ok 1709337600000%Z.
Proof. vm_compute. repeat split. Qed.

(** C10 (counterexample): a weekly pattern updated with the last valid
    JS date: advancing it by 7 days leaves the Date range, [toISOString]
    raises a [RangeError] and nothing is saved. *)
Lemma updatePatternAfterExpense_raises_at_date_limit :
  updatePatternAfterExpense "p_new" maxTimeValue [duePast; dueUnconfirmed] = Throw.
Proof. reflexivity. Qed.

Lemma find_id_app pid pre p post :
  Forall (fun q => Pattern.id q <> pid) pre -> Pattern.id p = pid ->
  find (fun q => String.eqb (Pattern.id q) pid) (pre ++ p :: post) = Some p.
Proof.
  intros Hpre Hp. induction Hpre as [|q pre Hq _ IH]; cbn.
  - now rewrite Hp, String.eqb_refl.
  - apply String.eqb_neq in Hq. now rewrite Hq.
Qed.

Lemma updateFirst_app pid f pre p post :
  Forall (fun q => Pattern.id q <> pid) pre -> Pattern.id p = pid ->
  updateFirst pid f (pre ++ p :: post) = pre ++ f p :: post.
Proof.
  intros Hpre Hp. induction Hpre as [|q pre Hq _ IH]; cbn.
  - now rewrite Hp, String.eqb_refl.
  - apply String.eqb_neq in Hq. now rewrite Hq, IH.
Qed.

(** C10 (amended): [updatePatternAfterExpense pid newDate] leaves the
    store unchanged when no stored pattern has the id [pid]. Otherwise,
    with [p] the first such pattern, it raises (the store is left as it
    was) when advancing [newDate] by [p]'s cadence leaves the JS Date
    range, and else replaces [p] by the pattern with [lastOccurrence =
    newDate], [nextExpectedDate] the advanced date and every other field
    as in [p], all other stored patterns staying in place. The cadence is
    [setDate(+7)], [setMonth(+1)], [setMonth(+3)] or [setFullYear(+1)], so
    2024-01-31 advanced by a month is 2024-03-02. *)
Theorem updatePatternAfterExpense_frame :
  (forall pid newDate stored,
     find (fun q => String.eqb (Pattern.id q) pid) stored = None ->
     updatePatternAfterExpense pid newDate stored = Ok stored)
  /\ (forall pid newDate pre p post,
        Forall (fun q => Pattern.id q <> pid) pre -> Pattern.id p = pid ->
        (calculateNextExpectedDate newDate (Pattern.frequency p) = Throw ->
         updatePatternAfterExpense pid newDate (pre ++ p :: post) = Throw)
        /\ forall next,
             calculateNextExpectedDate newDate (Pattern.frequency p) = Ok next ->
             exists p',
               updatePatternAfterExpense pid newDate (pre ++ p :: post)
               = Ok (pre ++ p' :: post)
               /\ Pattern.lastOccurrence p' = newDate
               /\ Pattern.nextExpectedDate p' = next
               /\ Pattern.id p' = Pattern.id p
               /\ Pattern.description p' = Pattern.description p
               /\ Pattern.category p' = Pattern.category p
               /\ Pattern.averageAmount p' = Pattern.averageAmount p
               /\ Pattern.frequency p' = Pattern.frequency p
               /\ Pattern.confidence p' = Pattern.confidence p
               /\ Pattern.expenseIds p' = Pattern.expenseIds p
               /\ Pattern.isConfirmed p' = Pattern.isConfirmed p)
  /\ updatePatternAfterExpense "p_soon" 1706659200000 [duePast; dueSoon]
     = Ok [duePast; setLastAndNext 1706659200000 1709337600000 dueSoon].
Proof.
  split; [|split].
  - intros pid newDate stored H. unfold updatePatternAfterExpense.
    now rewrite H.
  - intros pid newDate pre p post Hpre Hp. unfold updatePatternAfterExpense.
    rewrite (find_id_app pid pre p post Hpre Hp). split.
    + intros Hc. now rewrite Hc.
    + intros next Hc. rewrite Hc.
      exists (setLastAndNext newDate next p).
      rewrite (updateFirst_app pid _ pre p post Hpre Hp).
      repeat split.
  - unfold updatePatternAfterExpense. cbn [find Pattern.id duePast dueSoon mkStored].
    cbn [String.eqb Ascii.eqb Bool.eqb].
    unfold Pattern.frequency at 1. cbn [dueSoon mkStored].
    destruct (calculateNextExpectedDate_examples) as [_ [_ [_ [_ H]]]].
    rewrite H. reflexivity.
Qed.

(** * Proofs about the further code *)

(** ** Calendar arithmetic *)

Open Scope Z_scope.

Lemma forallZ_spec f lo n :
  forallZ f lo n = true -> forall z, lo <= z < lo + Z.of_nat n -> f z = true.
Proof.
  revert lo. induction n as [|n IH]; intros lo H z Hz; [lia|].
  cbn [forallZ] in H. apply andb_true_iff in H as [H1 H2].
  destruct (Z.eq_dec z lo) as [->|Hne]; [exact H1|].
  apply (IH (lo + 1)); [exact H2|lia].
Qed.

Lemma daysFromCivil_shift y m d k :
  daysFromCivil (y + 400 * k) m d = daysFromCivil y m d + 146097 * k.
Proof.
  unfold daysFromCivil. cbv zeta.
  destruct (m <=? 2);
    [ replace (y + 400 * k - 1) with ((y - 1) + k * 400) by ring
    | replace (y + 400 * k) with (y + k * 400) by ring ];
    rewrite Z.div_add by lia;
    match goal with
    | |- context [?a + k * 400 - (?a / 400 + k) * 400] =>
        replace (a + k * 400 - (a / 400 + k) * 400) with (a - a / 400 * 400) by ring
    end; ring.
Qed.

Lemma daysFromCivil_day y m d :
  daysFromCivil y m d = daysFromCivil y m 1 + d - 1.
Proof. unfold daysFromCivil. cbv zeta. ring. Qed.

Lemma civilFromDays_shift z k :
  civilFromDays (z + 146097 * k)
  = let '(y, m, d) := civilFromDays z in (y + 400 * k, m, d).
Proof.
  unfold civilFromDays. cbv zeta.
  replace (z + 146097 * k + 719468) with ((z + 719468) + k * 146097) by ring.
  rewrite Z.div_add by lia.
  match goal with
  | |- context [?a + k * 146097 - (?a / 146097 + k) * 146097] =>
      replace (a + k * 146097 - (a / 146097 + k) * 146097)
        with (a - a / 146097 * 146097) by ring
  end.
  destruct (_ <? 10); destruct (_ <=? 2); f_equal; f_equal; ring.
Qed.

Lemma forallZ_range f lo n :
  forallZ f lo (Z.to_nat n) = true -> forall z, lo <= z < lo + n -> f z = true.
Proof.
  intros H z Hz. destruct (Z_le_gt_dec 0 n) as [Hn|Hn]; [|lia].
  apply (forallZ_spec f lo (Z.to_nat n) H). rewrite Z2Nat.id; lia.
Qed.

Lemma civil_ok_era : forallZ civil_ok (-719468) (Z.to_nat 146097) = true.
Proof. vm_compute. reflexivity. Qed.

Lemma months_ok_era : forallZ months_ok 0 (Z.to_nat 4800) = true.
Proof. vm_compute. reflexivity. Qed.


Lemma monthStart_shift n q : monthStart (n + 4800 * q) = monthStart n + 146097 * q.
Proof.
  unfold monthStart.
  replace (n + 4800 * q) with (n + (400 * q) * 12) by ring.
  rewrite Z.div_add, Z_mod_plus_full by lia.
  apply daysFromCivil_shift.
Qed.

Lemma civilFromDays_spec z :
  let '(y, m, d) := civilFromDays z in
  daysFromCivil y (m + 1) d = z /\ 0 <= m <= 11 /\ 1 <= d <= 31
  /\ d - 1 < monthStart (12 * y + m + 1) - monthStart (12 * y + m).
Proof.
  set (k := (z + 719468) / 146097).
  set (z0 := (z + 719468) mod 146097 - 719468).
  assert (Hz : z = z0 + 146097 * k).
  { unfold z0, k. pose proof (Z.div_mod (z + 719468) 146097 ltac:(lia)). lia. }
  assert (Hr : -719468 <= z0 < -719468 + 146097).
  { unfold z0. pose proof (Z.mod_pos_bound (z + 719468) 146097 ltac:(lia)). lia. }
  pose proof (forallZ_range _ _ _ civil_ok_era z0 Hr) as Hok.
  rewrite Hz, civilFromDays_shift.
  unfold civil_ok in Hok.
  destruct (civilFromDays z0) as [[y m] d].
  rewrite !andb_true_iff, Z.eqb_eq, !Z.leb_le, Z.ltb_lt in Hok.
  destruct Hok as [[[[[H1 H2] H3] H4] H5] H6].
  rewrite daysFromCivil_shift, H1.
  replace (12 * (y + 400 * k) + m + 1) with ((12 * y + m + 1) + 4800 * k) by ring.
  replace (12 * (y + 400 * k) + m) with ((12 * y + m) + 4800 * k) by ring.
  rewrite !monthStart_shift. lia.
Qed.

Lemma months_ok_all n : months_ok n = true.
Proof.
  set (q := n / 4800). set (r := n mod 4800).
  assert (Hn : n = r + 4800 * q).
  { unfold r, q. pose proof (Z.div_mod n 4800 ltac:(lia)). lia. }
  assert (Hr : 0 <= r < 0 + 4800) by (unfold r; pose proof (Z.mod_pos_bound n 4800); lia).
  pose proof (forallZ_range _ _ _ months_ok_era r Hr) as H.
  unfold months_ok in *. rewrite Hn.
  replace (r + 4800 * q + 1) with ((r + 1) + 4800 * q) by ring.
  replace (r + 4800 * q + 3) with ((r + 3) + 4800 * q) by ring.
  replace (r + 4800 * q + 12) with ((r + 12) + 4800 * q) by ring.
  rewrite !monthStart_shift.
  replace (monthStart (r + 1) + 146097 * q - (monthStart r + 146097 * q))
    with (monthStart (r + 1) - monthStart r) by ring.
  replace (monthStart (r + 3) + 146097 * q - (monthStart r + 146097 * q))
    with (monthStart (r + 3) - monthStart r) by ring.
  replace (monthStart (r + 12) + 146097 * q - (monthStart r + 146097 * q))
    with (monthStart (r + 12) - monthStart r) by ring.
  exact H.
Qed.

Lemma months_ok_bounds n :
  28 <= monthStart (n + 1) - monthStart n <= 31
  /\ 89 <= monthStart (n + 3) - monthStart n <= 92
  /\ 365 <= monthStart (n + 12) - monthStart n <= 366.
Proof.
  pose proof (months_ok_all n) as H. unfold months_ok in H.
  rewrite !andb_true_iff, !Z.leb_le in H. lia.
Qed.

Lemma MakeDay_monthStart y m d : MakeDay y m d = monthStart (12 * y + m) + d - 1.
Proof.
  unfold MakeDay, monthStart.
  replace (12 * y + m) with (m + y * 12) by ring.
  rewrite Z.div_add, Z_mod_plus_full by lia.
  f_equal. f_equal. f_equal. ring.
Qed.

(** The day number [z] is day [d] of month [12 * y + m]. *)
Lemma civilFromDays_monthStart z :
  let '(y, m, d) := civilFromDays z in
  z = monthStart (12 * y + m) + d - 1 /\ 0 <= m <= 11 /\ 1 <= d <= 31
  /\ d - 1 < monthStart (12 * y + m + 1) - monthStart (12 * y + m).
Proof.
  pose proof (civilFromDays_spec z) as H.
  destruct (civilFromDays z) as [[y m] d]. destruct H as [H1 [H2 [H3 H4]]].
  split; [|lia].
  unfold monthStart.
  replace (12 * y + m) with (m + y * 12) by ring.
  rewrite Z.div_add, Z_mod_plus_full by lia.
  rewrite Z.div_small, Z.mod_small by lia.
  rewrite Z.add_0_l, <- daysFromCivil_day. lia.
Qed.


Lemma advanceDate_days t c :
  exists delta, cadenceDays c delta
    /\ advanceDate t c = TimeClip (t + delta * msPerDay).
Proof.
  unfold advanceDate. cbv zeta.
  pose proof (civilFromDays_monthStart (t / msPerDay)) as Hc.
  pose proof (Z.div_mod t msPerDay ltac:(unfold msPerDay; lia)) as Ht.
  destruct (civilFromDays (t / msPerDay)) as [[y m] d].
  destruct Hc as [Hday [Hm [Hd Hlen]]].
  pose proof (months_ok_bounds (12 * y + m)) as [H1 [H3 H12]].
  destruct c; rewrite MakeDay_monthStart.
  - exists 7. split; [reflexivity|]. f_equal. unfold msPerDay in *; lia.
  - exists (monthStart (12 * y + m + 1) - monthStart (12 * y + m)).
    split; [cbv [cadenceDays]; lia|]. f_equal.
    replace (12 * y + (m + 1)) with (12 * y + m + 1) by ring. unfold msPerDay in *; lia.
  - exists (monthStart (12 * y + m + 3) - monthStart (12 * y + m)).
    split; [cbv [cadenceDays]; lia|]. f_equal.
    replace (12 * y + (m + 3)) with (12 * y + m + 3) by ring. unfold msPerDay in *; lia.
  - exists (monthStart (12 * y + m + 12) - monthStart (12 * y + m)).
    split; [cbv [cadenceDays]; lia|]. f_equal.
    replace (12 * (y + 1) + m) with (12 * y + m + 12) by ring. unfold msPerDay in *; lia.
Qed.

Lemma monthStart_mono a k : monthStart a <= monthStart (a + Z.of_nat k).
Proof.
  induction k as [|k IH]; [rewrite Z.add_0_r; lia|].
  rewrite Nat2Z.inj_succ, <- Z.add_1_r, Z.add_assoc.
  pose proof (months_ok_bounds (a + Z.of_nat k)). lia.
Qed.

Lemma monthStart_le a b : a <= b -> monthStart a <= monthStart b.
Proof.
  intros H. replace b with (a + Z.of_nat (Z.to_nat (b - a))) by lia.
  apply monthStart_mono.
Qed.

(** A day lies in one month only. *)
Lemma monthStart_unique a b i j :
  0 <= i < monthStart (a + 1) - monthStart a ->
  0 <= j < monthStart (b + 1) - monthStart b ->
  monthStart a + i = monthStart b + j -> a = b.
Proof.
  intros Hi Hj Heq.
  destruct (Z.lt_total a b) as [Hlt|[Heq'|Hgt]]; [|exact Heq'|].
  - pose proof (monthStart_le (a + 1) b ltac:(lia)). lia.
  - pose proof (monthStart_le (b + 1) a ltac:(lia)). lia.
Qed.

Lemma civilFromDays_in_month n j :
  0 <= j < monthStart (n + 1) - monthStart n ->
  civilFromDays (monthStart n + j) = (n / 12, n mod 12, j + 1).
Proof.
  intros Hj.
  pose proof (civilFromDays_monthStart (monthStart n + j)) as Hc.
  destruct (civilFromDays (monthStart n + j)) as [[y m] d].
  destruct Hc as [Hz [Hm [Hd Hlen]]].
  assert (Hn : n = 12 * y + m).
  { apply (monthStart_unique n (12 * y + m) j (d - 1)); lia. }
  subst n.
  replace (12 * y + m) with (m + y * 12) by ring.
  rewrite Z.div_add, Z_mod_plus_full by lia.
  rewrite Z.div_small, Z.mod_small by lia.
  replace (m + y * 12) with (12 * y + m) in Hz by ring.
  repeat f_equal; lia.
Qed.

Lemma calculateNextExpectedDate_advance t c :
  calculateNextExpectedDate t c
  = match TimeClip t with
    | None => Throw
    | Some t0 => toISOString (advanceDate t0 c)
    end.
Proof.
  unfold calculateNextExpectedDate, advanceDate, toISOString.
  destruct (TimeClip t) as [t0|]; [|reflexivity]. cbv zeta.
  destruct (civilFromDays (t0 / msPerDay)) as [[y m] d].
  destruct (TimeClip _); reflexivity.
Qed.

Lemma TimeClip_valid t : Z.abs t <= maxTimeValue -> TimeClip t = Some t.
Proof. intros H. unfold TimeClip. now rewrite (proj2 (Z.leb_le _ _) H). Qed.

Lemma TimeClip_invalid t : Z.abs t > maxTimeValue -> TimeClip t = None.
Proof. intros H. unfold TimeClip. destruct (Z.leb_spec (Z.abs t) maxTimeValue); [lia|reflexivity]. Qed.

Lemma TimeClip_Some t t' : TimeClip t = Some t' -> t' = t /\ Z.abs t <= maxTimeValue.
Proof.
  unfold TimeClip. destruct (Z.leb_spec (Z.abs t) maxTimeValue) as [Hle|Hgt]; intros H;
    [injection H as <-; auto | discriminate].
Qed.

Lemma advanceDate_same_day t c y m d t' :
  civilFromDays (t / msPerDay) = (y, m, d) -> d <= 28 -> c <> weekly ->
  advanceDate t c = Some t' ->
  civilFromDays (t' / msPerDay)
    = ((12 * y + m + monthsOf c) / 12, (12 * y + m + monthsOf c) mod 12, d)
  /\ t' mod msPerDay = t mod msPerDay.
Proof.
  intros Hc Hd Hw Ha.
  pose proof (civilFromDays_monthStart (t / msPerDay)) as Hm. rewrite Hc in Hm.
  destruct Hm as [Hday [Hm [Hd1 Hlen]]].
  unfold advanceDate in Ha. cbv zeta in Ha. rewrite Hc in Ha.
  assert (Hnew : exists N, advanceDate t c = advanceDate t c
                 /\ N = 12 * y + m + monthsOf c
                 /\ TimeClip ((monthStart N + d - 1) * msPerDay + t mod msPerDay) = Some t').
  { exists (12 * y + m + monthsOf c). split; [reflexivity|split; [reflexivity|]].
    rewrite <- Ha. destruct c; [contradiction| | |]; rewrite MakeDay_monthStart;
      cbn [monthsOf].
    - now replace (12 * y + (m + 1)) with (12 * y + m + 1) by ring.
    - now replace (12 * y + (m + 3)) with (12 * y + m + 3) by ring.
    - now replace (12 * (y + 1) + m) with (12 * y + m + 12) by ring. }
  destruct Hnew as [N [_ [HN Hclip]]]. apply TimeClip_Some in Hclip as [-> _].
  pose proof (Z.mod_pos_bound t msPerDay ltac:(unfold msPerDay; lia)) as Hr.
  rewrite Z.div_add_l by (unfold msPerDay; lia).
  rewrite (Z.div_small (t mod msPerDay)) by lia. rewrite Z.add_0_r.
  replace (monthStart N + d - 1) with (monthStart N + (d - 1)) by ring.
  pose proof (months_ok_bounds N) as [HN1 _].
  rewrite civilFromDays_in_month by lia. subst N.
  split; [f_equal; ring|].
  rewrite Z.add_comm, Z_mod_plus_full. apply Z.mod_mod. unfold msPerDay; lia.
Qed.

(** X1: [calculateNextExpectedDate] throws on an invalid date; otherwise it moves the date by a whole number of days within the cadence of the frequency and, for a day of month up to 28 and a monthly, quarterly or yearly frequency, lands on the same day of month and time of day [monthsOf] months later. *)
Theorem calculateNextExpectedDate_cadence t c :
  (maxTimeValue < Z.abs t -> calculateNextExpectedDate t c = Throw)
  /\ (Z.abs t <= maxTimeValue ->
      exists delta, cadenceDays c delta
        /\ calculateNextExpectedDate t c = toISOString (TimeClip (t + delta * msPerDay)))
  /\ (forall y m d t',
        civilFromDays (t / msPerDay) = (y, m, d) -> d <= 28 -> c <> weekly ->
        calculateNextExpectedDate t c = Ok t' ->
        civilFromDays (t' / msPerDay)
          = ((12 * y + m + monthsOf c) / 12, (12 * y + m + monthsOf c) mod 12, d)
        /\ t' mod msPerDay = t mod msPerDay).
Proof.
  split; [|split].
  - intros H. rewrite calculateNextExpectedDate_advance, TimeClip_invalid by lia.
    reflexivity.
  - intros H. rewrite calculateNextExpectedDate_advance, TimeClip_valid by lia.
    destruct (advanceDate_days t c) as [delta [Hd Ha]].
    exists delta. now rewrite Ha.
  - intros y m d t' Hc Hd Hw H.
    rewrite calculateNextExpectedDate_advance in H.
    destruct (TimeClip t) as [t0|] eqn:Ht; [|discriminate].
    apply TimeClip_Some in Ht as [-> _].
    unfold toISOString in H. destruct (advanceDate t c) eqn:Ha; [|discriminate].
    injection H as <-. eapply advanceDate_same_day; eauto.
Qed.

Lemma cadenceDays_bounds c delta : cadenceDays c delta -> 7 <= delta <= 366.
Proof. destruct c; cbv [cadenceDays]; lia. Qed.

Lemma advanceDate_step t c today :
  - maxTimeValue <= t -> t <= today -> today + 366 * msPerDay <= maxTimeValue ->
  exists t', advanceDate t c = Some t' /\ t + 7 * msPerDay <= t' <= today + 366 * msPerDay.
Proof.
  intros Hlo Hle Hmax.
  destruct (advanceDate_days t c) as [delta [Hd Ha]].
  apply cadenceDays_bounds in Hd.
  exists (t + delta * msPerDay). rewrite Ha.
  split; [apply TimeClip_valid|]; unfold msPerDay in *; lia.
Qed.

Lemma advanceWhileNotAfter_run today c fuel :
  today + 366 * msPerDay <= maxTimeValue ->
  forall t, - maxTimeValue <= t <= maxTimeValue ->
  (Z.to_nat (today - t + 1) < fuel)%nat ->
  exists r, advanceWhileNotAfter fuel today c (Some t) = Some (Some r)
    /\ today < r /\ t <= r
    /\ (today < t -> r = t)
    /\ (t <= today -> r <= today + 366 * msPerDay
                      /\ exists p, t <= p <= today /\ advanceDate p c = Some r).
Proof.
  intros Hmax. induction fuel as [|fuel IH]; intros t Ht Hfuel; [lia|].
  cbn [advanceWhileNotAfter dateLe].
  destruct (Z.leb_spec t today) as [Hle|Hgt].
  - destruct (advanceDate_step t c today ltac:(lia) Hle Hmax) as [t' [Ha Ht']].
    rewrite Ha.
    assert (Hm : (Z.to_nat (today - t' + 1) < fuel)%nat).
    { assert (0 < msPerDay) by (unfold msPerDay; lia). lia. }
    destruct (IH t' ltac:(unfold msPerDay in *; lia) Hm)
      as [r [Hrun [Hr1 [Hr2 [Hr3 Hr4]]]]].
    exists r. split; [exact Hrun|]. split; [exact Hr1|].
    split; [unfold msPerDay in *; lia|]. split; [lia|].
    intros _. destruct (Z.leb_spec t' today) as [Hle'|Hgt'].
    + destruct (Hr4 Hle') as [Hb [p [Hp Hpa]]].
      split; [exact Hb|]. exists p. split; [unfold msPerDay in *; lia|exact Hpa].
    + rewrite (Hr3 Hgt') in *. split; [lia|]. exists t. split; [lia|exact Ha].
  - exists t. repeat split; lia.
Qed.

(** X2: [updateOverdueBillingDate] throws on a subscription without a date; otherwise, with enough fuel, it returns the date itself when it is after today, and else a date after today, at most 366 days after it, one billing cycle past a date between the old date and today. *)
Theorem updateOverdueBillingDate_first_after today s :
  today + 366 * msPerDay <= maxTimeValue ->
  (Subscription.nextBillingDate s = None ->
   forall fuel, updateOverdueBillingDate (S fuel) today s = Some Throw)
  /\ (forall t, Subscription.nextBillingDate s = Some t -> Z.abs t <= maxTimeValue ->
      exists n, forall fuel, (n <= fuel)%nat ->
        exists r, updateOverdueBillingDate fuel today s = Some (Ok r)
          /\ today < r /\ t <= r
          /\ (today < t -> r = t)
          /\ (t <= today -> r <= today + 366 * msPerDay
                /\ exists p, t <= p <= today
                     /\ advanceDate p (Subscription.billingCycle s) = Some r)).
Proof.
  intros Hmax. split.
  - intros Hn fuel. unfold updateOverdueBillingDate. rewrite Hn. reflexivity.
  - intros t Hn Ht. exists (S (Z.to_nat (today - t + 1))). intros fuel Hfuel.
    destruct (advanceWhileNotAfter_run today (Subscription.billingCycle s) fuel Hmax t
                ltac:(lia) ltac:(lia)) as [r [Hrun Hr]].
    exists r. unfold updateOverdueBillingDate. rewrite Hn, Hrun. split; [reflexivity|exact Hr].
Qed.

Lemma setHours0_valid t :
  Z.abs t <= maxTimeValue -> setHours0 (Some t) = Some (t / msPerDay * msPerDay).
Proof.
  intros H. unfold setHours0. apply TimeClip_valid.
  pose proof (Z.div_mod t msPerDay ltac:(unfold msPerDay; lia)).
  pose proof (Z.mod_pos_bound t msPerDay ltac:(unfold msPerDay; lia)).
  unfold maxTimeValue, msPerDay in *. lia.
Qed.

(** X3: [updateOverdueSubscriptions] rewrites exactly the active subscriptions whose billing day is before today's, each with a billing date after today one cycle past a date between its old one and today, and returns every other subscription unchanged. *)
Theorem updateOverdueSubscriptions_spec now subs :
  Z.abs now <= maxTimeValue ->
  now + 366 * msPerDay <= maxTimeValue ->
  Forall (fun s => forall t, Subscription.nextBillingDate s = Some t -> Z.abs t <= maxTimeValue)
    subs ->
  exists n, forall fuel, (n <= fuel)%nat ->
    exists subs', updateOverdueSubscriptions fuel now subs = Some (Ok subs')
      /\ Forall2 (fun s s' =>
           (forall t, Subscription.nextBillingDate s = Some t ->
              Subscription.isActive s = true -> t / msPerDay < now / msPerDay ->
              exists r, s' = withBillingUpdate s r now /\ now < r
                /\ exists p, t <= p <= now
                     /\ advanceDate p (Subscription.billingCycle s) = Some r)
           /\ ((forall t, Subscription.nextBillingDate s = Some t ->
                  Subscription.isActive s = true -> now / msPerDay <= t / msPerDay) ->
               s' = s))
         subs subs'.
Proof.
  intros Hnow Hmax Hvalid. unfold updateOverdueSubscriptions.
  induction Hvalid as [|s subs Hs Hvalid IH].
  - exists O. intros fuel _. exists []. split; [reflexivity|constructor].
  - destruct IH as [n IH].
    assert (Hone : exists m, forall fuel, (m <= fuel)%nat ->
              exists s', updateOverdueSubscription fuel now s = Some (Ok s')
                /\ (forall t, Subscription.nextBillingDate s = Some t ->
                      Subscription.isActive s = true -> t / msPerDay < now / msPerDay ->
                      exists r, s' = withBillingUpdate s r now /\ now < r
                        /\ exists p, t <= p <= now
                             /\ advanceDate p (Subscription.billingCycle s) = Some r)
                /\ ((forall t, Subscription.nextBillingDate s = Some t ->
                       Subscription.isActive s = true -> now / msPerDay <= t / msPerDay) ->
                    s' = s)).
    { unfold updateOverdueSubscription. rewrite (setHours0_valid now Hnow).
      destruct (Subscription.nextBillingDate s) as [t|] eqn:Hn.
      - rewrite (setHours0_valid t (Hs t eq_refl)). cbn [dateLt].
        destruct (Subscription.isActive s) eqn:Ha;
          [|exists O; intros fuel _; rewrite andb_false_r; exists s;
            split; [reflexivity|]; split; [discriminate|auto]].
        rewrite andb_true_r.
        assert (0 < msPerDay) by (unfold msPerDay; lia).
        destruct (Z.ltb_spec (t / msPerDay * msPerDay) (now / msPerDay * msPerDay))
          as [Hlt|Hge].
        + assert (Hday : t / msPerDay < now / msPerDay) by nia.
          destruct (proj2 (updateOverdueBillingDate_first_after now s Hmax) t Hn
                      (Hs t eq_refl)) as [m Hm].
          exists m. intros fuel Hfuel.
          destruct (Hm fuel Hfuel) as [r [Hrun [Hr1 [_ [_ Hr4]]]]].
          rewrite Hrun. exists (withBillingUpdate s r now). split; [reflexivity|].
          split.
          * intros t' Ht' _ _. injection Ht' as <-.
            assert (Htle : t <= now).
            { pose proof (Z.div_mod t msPerDay ltac:(lia)).
              pose proof (Z.mod_pos_bound t msPerDay ltac:(lia)).
              pose proof (Z.div_mod now msPerDay ltac:(lia)).
              pose proof (Z.mod_pos_bound now msPerDay ltac:(lia)). nia. }
            destruct (Hr4 Htle) as [_ Hp]. exists r. auto.
          * intros Hno. specialize (Hno t eq_refl eq_refl). lia.
        + exists O. intros fuel _. exists s. split; [reflexivity|].
          split; [|auto]. intros t' Ht' _ Hlt. injection Ht' as <-. nia.
      - exists O. intros fuel _. cbn [dateLt andb]. exists s.
        split; [reflexivity|]. split; [discriminate|auto]. }
    destruct Hone as [m Hm].
    exists (Nat.max n m). intros fuel Hfuel.
    destruct (Hm fuel ltac:(lia)) as [s' [Hrun Hrel]].
    destruct (IH fuel ltac:(lia)) as [subs' [Hrun' Hrel']].
    exists (s' :: subs'). cbn [mapRun]. rewrite Hrun, Hrun'.
    split; [reflexivity|]. constructor; [exact Hrel|exact Hrel'].
Qed.



Lemma formatRelativeDate_some t now :
  formatRelativeDate (Some t) now
  = let n := ceilDiv (t - now) msPerDay in
    if (n =? 0) then "Today"%string
    else if (n =? 1) then "Tomorrow"%string
    else if (n =? -1) then "Yesterday"%string
    else if (0 <? n) then
      String.append "in " (String.append (numberToString (Some n)) " days")
    else String.append (numberToString (Some (- n))) " days ago".
Proof.
  unfold formatRelativeDate, getDaysUntil. cbv zeta.
  destruct (ceilDiv (t - now) msPerDay) as [|[p|p|]|[p|p|]]; reflexivity.
Qed.

(** X5: [formatRelativeDate] labels a date by the 24-hour window from now it falls in: Today, Tomorrow, Yesterday, or the rounded-up day count in the future or in the past. *)
Theorem formatRelativeDate_windows date now :
  (date = None -> formatRelativeDate date now = "NaN day ago"%string)
  /\ forall t, date = Some t ->
     let n := ceilDiv (t - now) msPerDay in
     (now - msPerDay < t <= now -> formatRelativeDate date now = "Today"%string)
     /\ (now < t <= now + msPerDay -> formatRelativeDate date now = "Tomorrow"%string)
     /\ (now - 2 * msPerDay < t <= now - msPerDay ->
         formatRelativeDate date now = "Yesterday"%string)
     /\ (now + msPerDay < t ->
         2 <= n /\ msPerDay * (n - 1) < t - now <= msPerDay * n
         /\ formatRelativeDate date now
            = String.append "in " (String.append (numberToString (Some n)) " days"))
     /\ (t <= now - 2 * msPerDay ->
         2 <= - n /\ msPerDay * (- n) <= now - t < msPerDay * (- n + 1)
         /\ formatRelativeDate date now
            = String.append (numberToString (Some (- n))) " days ago").
Proof.
  split; [intros ->; reflexivity|].
  intros t -> n.
  pose proof (ceilDiv_ceiling (t - now) msPerDay ltac:(unfold msPerDay; lia)) as Hc.
  fold n in Hc. rewrite formatRelativeDate_some. cbv zeta. fold n.
  assert (0 < msPerDay) by (unfold msPerDay; lia).
  split; [intros Hw; replace n with 0 by nia; reflexivity|].
  split; [intros Hw; replace n with 1 by nia; reflexivity|].
  split; [intros Hw; replace n with (-1) by nia; reflexivity|].
  split.
  - intros Hw. assert (2 <= n) by nia.
    split; [lia|]. split; [lia|].
    destruct (Z.eqb_spec n 0); [lia|]. destruct (Z.eqb_spec n 1); [lia|].
    destruct (Z.eqb_spec n (-1)); [lia|]. destruct (Z.ltb_spec 0 n); [reflexivity|lia].
  - intros Hw. assert (n <= -2) by nia.
    split; [lia|]. split; [lia|].
    destruct (Z.eqb_spec n 0); [lia|]. destruct (Z.eqb_spec n 1); [lia|].
    destruct (Z.eqb_spec n (-1)); [lia|]. destruct (Z.ltb_spec 0 n); [lia|reflexivity].
Qed.

(** ** Stored patterns: [confirmPattern], [dismissPattern] and the component handlers *)

Lemma find_id_none pid l :
  find (fun p => String.eqb (Pattern.id p) pid) l = None ->
  Forall (fun p => Pattern.id p <> pid) l.
Proof.
  induction l as [|q l IH]; cbn; intros H; constructor;
    destruct (String.eqb_spec (Pattern.id q) pid); try discriminate; auto.
Qed.

Lemma find_id_some pid l p :
  find (fun p => String.eqb (Pattern.id p) pid) l = Some p ->
  exists pre post, l = pre ++ p :: post
    /\ Forall (fun q => Pattern.id q <> pid) pre /\ Pattern.id p = pid.
Proof.
  induction l as [|q l IH]; cbn; [discriminate|].
  destruct (String.eqb_spec (Pattern.id q) pid) as [Hq|Hq]; intros H.
  - injection H as <-. exists [], l. auto.
  - destruct (IH H) as (pre & post & -> & Hpre & Hid).
    exists (q :: pre), post. auto.
Qed.

Lemma updateFirst_none pid f l :
  Forall (fun q => Pattern.id q <> pid) l -> updateFirst pid f l = l.
Proof.
  induction 1 as [|q l Hq _ IH]; cbn; [reflexivity|].
  apply String.eqb_neq in Hq. now rewrite Hq, IH.
Qed.

Lemma setConfirmed_id p : Pattern.id (setConfirmed p) = Pattern.id p.
Proof. reflexivity. Qed.

Lemma setConfirmed_idem p : setConfirmed (setConfirmed p) = setConfirmed p.
Proof. reflexivity. Qed.

Lemma filter_other_id pid l :
  Forall (fun q => Pattern.id q <> pid) l ->
  filter (fun p => negb (String.eqb (Pattern.id p) pid)) l = l.
Proof.
  induction 1 as [|q l Hq _ IH]; cbn; [reflexivity|].
  apply String.eqb_neq in Hq. now rewrite Hq, IH.
Qed.

Lemma filter_other_id_Forall pid l :
  Forall (fun q => Pattern.id q <> pid)
    (filter (fun p => negb (String.eqb (Pattern.id p) pid)) l).
Proof.
  apply Forall_forall. intros q Hq. apply filter_In in Hq as [_ Hq].
  destruct (String.eqb_spec (Pattern.id q) pid); [discriminate|assumption].
Qed.

Lemma upcoming_In today l p :
  In p l -> Pattern.isConfirmed p = true ->
  In p (map pattern (getUpcomingRecurringExpenses today l)).
Proof.
  intros Hin Hc. unfold getUpcomingRecurringExpenses.
  eapply Permutation_in; [apply Permutation_map; apply Permutation_sym, sort_by_perm|].
  rewrite map_map. cbn. rewrite map_id. apply filter_In. auto.
Qed.

(** X10: [confirmPattern] leaves the store untouched when no pattern has the id, and otherwise marks the first such pattern confirmed, which then appears among the upcoming recurring expenses; confirming twice is confirming once. *)
Theorem confirmPattern_spec pid store today :
  match find (fun p => String.eqb (Pattern.id p) pid) (loadPatterns store) with
  | None => confirmPattern pid store = store
  | Some p =>
      exists pre post,
        loadPatterns store = pre ++ p :: post
        /\ Forall (fun q => Pattern.id q <> pid) pre
        /\ confirmPattern pid store = Some (pre ++ setConfirmed p :: post)
        /\ In (setConfirmed p)
             (map pattern (getUpcomingRecurringExpenses today
                             (loadPatterns (confirmPattern pid store))))
        /\ confirmPattern pid (confirmPattern pid store) = confirmPattern pid store
  end.
Proof.
  destruct (find _ (loadPatterns store)) as [p|] eqn:Hf.
  - destruct (find_id_some _ _ _ Hf) as (pre & post & Hl & Hpre & Hid).
    assert (Hc : confirmPattern pid store = Some (pre ++ setConfirmed p :: post)).
    { unfold confirmPattern. rewrite Hf, Hl, updateFirst_app by assumption. reflexivity. }
    exists pre, post. split; [exact Hl|]. split; [exact Hpre|]. split; [exact Hc|].
    rewrite Hc. split.
    + apply upcoming_In; [|reflexivity]. cbn. apply in_elt.
    + unfold confirmPattern at 1. cbn [loadPatterns].
      rewrite find_id_app by assumption.
      rewrite updateFirst_app by assumption. reflexivity.
  - unfold confirmPattern. rewrite Hf. reflexivity.
Qed.

(** X11: [dismissPattern] removes every pattern with the id and keeps all others; it is idempotent, and it absorbs [confirmPattern] of the same id on either side. *)
Theorem dismissPattern_spec pid store :
  Forall (fun q => Pattern.id q <> pid) (loadPatterns (dismissPattern pid store))
  /\ (forall p, In p (loadPatterns store) -> Pattern.id p <> pid ->
      In p (loadPatterns (dismissPattern pid store)))
  /\ dismissPattern pid (dismissPattern pid store) = dismissPattern pid store
  /\ dismissPattern pid (confirmPattern pid store) = dismissPattern pid store
  /\ confirmPattern pid (dismissPattern pid store) = dismissPattern pid store.
Proof.
  split; [apply filter_other_id_Forall|].
  split.
  { intros p Hp Hid. cbn. apply filter_In. split; [exact Hp|].
    apply String.eqb_neq in Hid. now rewrite Hid. }
  split.
  { unfold dismissPattern at 1. cbn [loadPatterns dismissPattern].
    unfold dismissPattern. rewrite filter_other_id by apply filter_other_id_Forall.
    reflexivity. }
  split.
  - unfold confirmPattern.
    destruct (find _ (loadPatterns store)) as [p|] eqn:Hf; [|reflexivity].
    destruct (find_id_some _ _ _ Hf) as (pre & post & Hl & Hpre & Hid).
    rewrite Hl, updateFirst_app by assumption.
    unfold dismissPattern. cbn [loadPatterns]. rewrite Hl, !filter_app. cbn.
    rewrite Hid, String.eqb_refl. reflexivity.
  - unfold confirmPattern.
    destruct (find _ (loadPatterns (dismissPattern pid store))) as [p|] eqn:Hf;
      [|reflexivity].
    exfalso. apply find_some in Hf as [Hin Heq].
    pose proof (filter_other_id_Forall pid (loadPatterns store)) as Hall.
    rewrite Forall_forall in Hall. apply (Hall p Hin). now apply String.eqb_eq.
Qed.

Lemma NoDup_map_filter {A B} (g : A -> B) (f : A -> bool) l :
  NoDup (map g l) -> NoDup (map g (filter f l)).
Proof.
  induction l as [|a l IH]; cbn; intros H; [constructor|].
  inversion H as [|x xs Hx Hnd]; subst.
  destruct (f a); cbn; [|auto].
  constructor; [|auto].
  intros Hin. apply Hx. apply in_map_iff in Hin as (b & Hb & Hbin).
  apply filter_In in Hbin as [Hbin _]. rewrite <- Hb. now apply in_map.
Qed.

Lemma map_id_confirmInState pid l :
  map Pattern.id (confirmInState pid l) = map Pattern.id l.
Proof.
  unfold confirmInState. rewrite map_map. apply map_ext. intros p.
  now destruct (String.eqb _ _).
Qed.

Lemma confirmInState_none pid l :
  Forall (fun q => Pattern.id q <> pid) l -> confirmInState pid l = l.
Proof.
  induction 1 as [|q l Hq _ IH]; cbn; [reflexivity|].
  apply String.eqb_neq in Hq. rewrite Hq. now f_equal.
Qed.

(** X12: With distinct pattern ids, the confirm and dismiss handlers of the patterns view change its state exactly as the manager changes the stored patterns, and keep the ids distinct. *)
Theorem handlers_keep_store_in_sync pid state :
  NoDup (map Pattern.id state) ->
  dismissPattern pid (Some state) = Some (dismissInState pid state)
  /\ confirmPattern pid (Some state) = Some (confirmInState pid state)
  /\ NoDup (map Pattern.id (dismissInState pid state))
  /\ NoDup (map Pattern.id (confirmInState pid state)).
Proof.
  intros Hnd. split; [reflexivity|]. split.
  - unfold confirmPattern. cbn [loadPatterns].
    destruct (find _ state) as [p|] eqn:Hf.
    + destruct (find_id_some _ _ _ Hf) as (pre & post & -> & Hpre & Hid).
      rewrite updateFirst_app by assumption. f_equal.
      unfold confirmInState. rewrite map_app. cbn.
      rewrite Hid, String.eqb_refl.
      fold (confirmInState pid pre) (confirmInState pid post).
      rewrite (confirmInState_none pid pre Hpre).
      rewrite (confirmInState_none pid post); [reflexivity|].
      rewrite map_app in Hnd. cbn in Hnd.
      apply NoDup_remove_2 in Hnd.
      apply Forall_forall. intros q Hq Heq. apply Hnd.
      apply in_or_app. right. rewrite Hid, <- Heq. now apply in_map.
    + apply find_id_none in Hf. rewrite confirmInState_none by exact Hf. reflexivity.
  - split; [now apply NoDup_map_filter|]. now rewrite map_id_confirmInState.
Qed.

(** ** Patterns returned by [detectPatterns]: labels and groups *)

Lemma detectPatterns_built newId expenses patterns :
  detectPatterns newId expenses = Ok patterns ->
  Forall (fun p => exists seed, In seed expenses
            /\ builtFrom seed (findSimilarExpenses seed (sort_by dateAfter expenses)) p)
    patterns.
Proof.
  unfold detectPatterns.
  destruct (detectLoop _ _ _ _ _) as [acc|] eqn:Hloop; [|discriminate].
  intros H; injection H as <-.
  apply (Permutation_Forall (Permutation_sym (sort_by_perm confidenceAfter acc))).
  apply detectLoop_good in Hloop; [| apply incl_refl | constructor].
  eapply Forall_impl; [|exact Hloop].
  intros p [seed [Hin Hb]]. exists seed. split; [|exact Hb].
  eapply Permutation_in; [apply sort_by_perm | exact Hin].
Qed.

(** X13: Every pattern [detectPatterns] returns is labelled High (green) or Medium (yellow) by the patterns view, never Low. *)
Theorem detectPatterns_confidence_label newId expenses patterns :
  detectPatterns newId expenses = Ok patterns ->
  Forall (fun p =>
      (getConfidenceText (Pattern.confidence p) = "High"%string
       /\ getConfidenceColor (Pattern.confidence p) = "text-green-600 bg-green-50"%string)
      \/ (getConfidenceText (Pattern.confidence p) = "Medium"%string
          /\ getConfidenceColor (Pattern.confidence p)
             = "text-yellow-600 bg-yellow-50"%string))
    patterns.
Proof.
  intros H. apply detectPatterns_built in H.
  eapply Forall_impl; [|exact H].
  intros p (seed & _ & _ & _ & _ & _ & Hc & _).
  unfold getConfidenceText, getConfidenceColor.
  destruct (Rgeb (Pattern.confidence p) 0.8); [left; auto|right].
  assert (E : Rgeb (Pattern.confidence p) 0.6 = true) by (apply Rgeb_true_iff; lra).
  rewrite E. auto.
Qed.

Lemma NoDup_map_inj {A B} (g : A -> B) l x y :
  NoDup (map g l) -> In x l -> In y l -> g x = g y -> x = y.
Proof.
  induction l as [|a l IH]; cbn; [tauto|].
  intros Hnd Hx Hy E. inversion Hnd as [|b bs Hb Hnd']; subst.
  destruct Hx as [<-|Hx], Hy as [<-|Hy]; auto.
  - exfalso. apply Hb. rewrite E. now apply in_map.
  - exfalso. apply Hb. rewrite <- E. now apply in_map.
Qed.

Lemma Permutation_filter_bool {A} (f : A -> bool) l l' :
  Permutation l l' -> Permutation (filter f l) (filter f l').
Proof.
  induction 1 as [|x l l' _ IH|x y l|l l' l'' _ IH1 _ IH2]; cbn.
  - constructor.
  - destruct (f x); auto.
  - destruct (f x), (f y); auto using Permutation_refl. apply perm_swap.
  - eapply perm_trans; eauto.
Qed.

(** X14: With distinct expense ids, the group [createRecurringGroup] builds from a detected pattern holds exactly the expenses similar to some expense, at least two of them. *)
Theorem createRecurringGroup_detected newId expenses patterns p groupId now :
  detectPatterns newId expenses = Ok patterns ->
  In p patterns ->
  NoDup (map Expense.id expenses) ->
  exists seed, In seed expenses
    /\ Group.expenses (createRecurringGroup groupId now p expenses)
       = filter (isSimilarTo seed) expenses
    /\ (2 <= List.length (Group.expenses (createRecurringGroup groupId now p expenses)))%nat.
Proof.
  intros Hd Hp Hnd.
  apply detectPatterns_built in Hd. rewrite Forall_forall in Hd.
  destruct (Hd p Hp) as (seed & Hseed & Hlen & Hids & _).
  set (sorted := sort_by dateAfter expenses) in *.
  set (cluster := findSimilarExpenses seed sorted) in *.
  assert (Hperm : Permutation sorted expenses) by apply sort_by_perm.
  assert (Hgroup : Group.expenses (createRecurringGroup groupId now p expenses)
                   = filter (isSimilarTo seed) expenses).
  { cbn. apply filter_ext_in. intros e He.
    rewrite Hids.
    destruct (existsb (String.eqb (Expense.id e)) _) eqn:Ex.
    - apply existsb_eqb_In in Ex. apply in_map_iff in Ex as (e' & Eid & He').
      eapply Permutation_in in He'; [|apply sort_by_perm].
      unfold cluster, findSimilarExpenses in He'. apply filter_In in He' as [He'in Hsim].
      eapply Permutation_in in He'in; [|exact Hperm].
      rewrite <- (NoDup_map_inj Expense.id expenses e' e Hnd He'in He Eid). now symmetry.
    - destruct (isSimilarTo seed e) eqn:Hs; [|reflexivity].
      rewrite <- Ex. apply existsb_eqb_In, in_map.
      eapply Permutation_in; [apply Permutation_sym, sort_by_perm|].
      apply filter_In. split; [|exact Hs].
      eapply Permutation_in; [apply Permutation_sym, Hperm|exact He]. }
  exists seed. split; [exact Hseed|]. split; [exact Hgroup|].
  rewrite Hgroup. unfold MIN_OCCURRENCES in Hlen.
  assert (Hc : Permutation cluster (filter (isSimilarTo seed) expenses))
    by (apply Permutation_filter_bool; exact Hperm).
  rewrite <- (Permutation_length Hc). exact Hlen.
Qed.

(** ** Month and year ranges *)

Lemma civil_index_range z y m d a b :
  civilFromDays z = (y, m, d) ->
  (monthStart a <= z < monthStart b <-> a <= 12 * y + m < b).
Proof.
  intros Hc. pose proof (civilFromDays_monthStart z) as H. rewrite Hc in H.
  destruct H as (Hz & Hm & Hd & Hlen).
  split.
  - intros [Ha Hb]. split.
    + destruct (Z_lt_le_dec (12 * y + m) a) as [Hlt|]; [|assumption].
      pose proof (monthStart_le (12 * y + m + 1) a ltac:(lia)). lia.
    + destruct (Z_lt_le_dec (12 * y + m) b) as [|Hge]; [assumption|].
      pose proof (monthStart_le b (12 * y + m) Hge). lia.
  - intros [Ha Hb].
    pose proof (monthStart_le a (12 * y + m) Ha).
    pose proof (monthStart_le (12 * y + m + 1) b ltac:(lia)). lia.
Qed.

(** Membership in [[monthStart a * ms, (monthStart b - 1) * ms]]. *)
Lemma range_membership a b t :
  monthStart a * msPerDay <= t <= (monthStart b - 1) * msPerDay
  <-> monthStart a <= t / msPerDay < monthStart b
      /\ (t / msPerDay < monthStart b - 1 \/ t mod msPerDay = 0).
Proof.
  pose proof (Z.div_mod t msPerDay ltac:(unfold msPerDay; lia)).
  pose proof (Z.mod_pos_bound t msPerDay ltac:(unfold msPerDay; lia)).
  unfold msPerDay in *. nia.
Qed.

Lemma newDateYMD_monthStart y m d :
  (y < 0 \/ 99 < y) ->
  Z.abs ((monthStart (12 * y + m) + d - 1) * msPerDay) <= maxTimeValue ->
  newDateYMD y m d = Some ((monthStart (12 * y + m) + d - 1) * msPerDay).
Proof.
  intros Hy Hv. unfold newDateYMD.
  replace ((0 <=? y) && (y <=? 99)) with false
    by (symmetry; apply andb_false_iff; destruct Hy; [left|right]; apply Z.leb_gt; lia).
  rewrite MakeDay_monthStart. apply TimeClip_valid. exact Hv.
Qed.

Lemma december_length y : monthStart (12 * y + 12) - monthStart (12 * y + 11) = 31.
Proof.
  unfold monthStart.
  replace (12 * y + 12) with (0 + (y + 1) * 12) by ring.
  replace (12 * y + 11) with (11 + y * 12) by ring.
  rewrite !Z.div_add, !Z_mod_plus_full by lia.
  change (0 / 12) with 0. change (11 / 12) with 0. change (0 mod 12) with 0.
  change (11 mod 12) with 11.
  unfold daysFromCivil.
  change (0 + 1 <=? 2) with true. change (11 + 1 <=? 2) with false. cbv iota.
  replace (0 + (y + 1) - 1) with y by ring. replace (0 + y) with y by ring.
  change ((153 * ((0 + 1 + 9) mod 12) + 2) / 5) with 306.
  change ((153 * ((11 + 1 + 9) mod 12) + 2) / 5) with 275.
  lia.
Qed.

(** X8: The range of [getCurrentMonthRange] holds exactly the dates of the current month, the last day at midnight only, and [getTotalExpensesForDateRange] over it sums the amounts of those expenses. *)
Theorem getCurrentMonthRange_total now y m d expenses :
  Z.abs now + 31 * msPerDay <= maxTimeValue ->
  civilFromDays (now / msPerDay) = (y, m, d) ->
  (y < 0 \/ 99 < y) ->
  let '(startDate, endDate) := currentMonthRange now in
  (forall t,
     dateLe startDate (Some t) && dateLe (Some t) endDate = true
     <-> exists d', civilFromDays (t / msPerDay) = (y, m, d')
           /\ (d' < monthStart (12 * y + m + 1) - monthStart (12 * y + m)
               \/ t mod msPerDay = 0))
  /\ getTotalExpensesForDateRange expenses startDate endDate
     = fold_left (fun total e => (total + Expense.amount e)%R)
         (filter (fun e =>
            let '(y', m', d') := civilFromDays (Expense.date e / msPerDay) in
            (y' =? y) && (m' =? m)
            && ((d' <? monthStart (12 * y + m + 1) - monthStart (12 * y + m))
                || (Expense.date e mod msPerDay =? 0)))
          expenses) 0%R.
Proof.
  intros Hnow Hc Hy.
  pose proof (civilFromDays_monthStart (now / msPerDay)) as Hn. rewrite Hc in Hn.
  destruct Hn as (Hz & Hm & Hd & Hlen).
  pose proof (months_ok_bounds (12 * y + m)) as [Hml _].
  pose proof (Z.div_mod now msPerDay ltac:(unfold msPerDay; lia)).
  pose proof (Z.mod_pos_bound now msPerDay ltac:(unfold msPerDay; lia)).
  unfold currentMonthRange. rewrite Hc.
  rewrite (newDateYMD_monthStart y m 1 Hy)
    by (unfold maxTimeValue, msPerDay in *; nia).
  rewrite (newDateYMD_monthStart y (m + 1) 0 Hy)
    by (replace (12 * y + (m + 1)) with (12 * y + m + 1) by ring;
        unfold maxTimeValue, msPerDay in *; nia).
  replace (12 * y + (m + 1)) with (12 * y + m + 1) by ring.
  replace (monthStart (12 * y + m) + 1 - 1) with (monthStart (12 * y + m)) by ring.
  replace (monthStart (12 * y + m + 1) + 0 - 1) with (monthStart (12 * y + m + 1) - 1)
    by ring.
  assert (Hmem : forall t,
     dateLe (Some (monthStart (12 * y + m) * msPerDay)) (Some t)
     && dateLe (Some t) (Some ((monthStart (12 * y + m + 1) - 1) * msPerDay)) = true
     <-> exists d', civilFromDays (t / msPerDay) = (y, m, d')
           /\ (d' < monthStart (12 * y + m + 1) - monthStart (12 * y + m)
               \/ t mod msPerDay = 0)).
  { intros t. cbn [dateLe]. rewrite andb_true_iff, !Z.leb_le.
    rewrite range_membership.
    pose proof (civilFromDays_monthStart (t / msPerDay)) as Ht.
    destruct (civilFromDays (t / msPerDay)) as [[y' m'] d'] eqn:Hct.
    destruct Ht as (Htz & Htm & Htd & Htlen).
    rewrite (civil_index_range _ _ _ _ (12 * y + m) (12 * y + m + 1) Hct).
    split.
    - intros [[Ha Hb] Hr]. assert (y' = y /\ m' = m) as [-> ->] by lia.
      exists d'. split; [reflexivity|]. lia.
    - intros (d'' & E & Hr). injection E as -> -> ->. lia. }
  split; [exact Hmem|].
  unfold getTotalExpensesForDateRange. f_equal.
  apply filter_ext. intros e. cbv zeta.
  apply eq_true_iff_eq. rewrite Hmem.
  destruct (civilFromDays (Expense.date e / msPerDay)) as [[y' m'] d'] eqn:Hce.
  rewrite !andb_true_iff, orb_true_iff, !Z.eqb_eq, Z.ltb_lt.
  split.
  - intros (d'' & E & Hr). injection E as -> -> ->. tauto.
  - intros [[-> ->] Hr]. exists d'. auto.
Qed.

(** X9: The range of [getCurrentYearRange] holds exactly the dates of the current year, December 31 at midnight only, and [getTotalExpensesForDateRange] over it sums the amounts of those expenses. *)
Theorem getCurrentYearRange_total now y m d expenses :
  Z.abs now + 366 * msPerDay <= maxTimeValue ->
  civilFromDays (now / msPerDay) = (y, m, d) ->
  (y < 0 \/ 99 < y) ->
  let '(startDate, endDate) := currentYearRange now in
  (forall t,
     dateLe startDate (Some t) && dateLe (Some t) endDate = true
     <-> exists m' d', civilFromDays (t / msPerDay) = (y, m', d')
           /\ (m' < 11 \/ d' < 31 \/ t mod msPerDay = 0))
  /\ getTotalExpensesForDateRange expenses startDate endDate
     = fold_left (fun total e => (total + Expense.amount e)%R)
         (filter (fun e =>
            let '(y', m', d') := civilFromDays (Expense.date e / msPerDay) in
            (y' =? y) && ((m' <? 11) || (d' <? 31) || (Expense.date e mod msPerDay =? 0)))
          expenses) 0%R.
Proof.
  intros Hnow Hc Hy.
  pose proof (civilFromDays_monthStart (now / msPerDay)) as Hn. rewrite Hc in Hn.
  destruct Hn as (Hz & Hm & Hd & Hlen).
  pose proof (months_ok_bounds (12 * y)) as (_ & _ & Hyl).
  pose proof (monthStart_le (12 * y) (12 * y + m) ltac:(lia)).
  pose proof (monthStart_le (12 * y + m + 1) (12 * y + 12) ltac:(lia)).
  pose proof (december_length y) as Hdec.
  pose proof (Z.div_mod now msPerDay ltac:(unfold msPerDay; lia)).
  pose proof (Z.mod_pos_bound now msPerDay ltac:(unfold msPerDay; lia)).
  unfold currentYearRange. rewrite Hc.
  rewrite (newDateYMD_monthStart y 0 1 Hy)
    by (rewrite Z.add_0_r; unfold maxTimeValue, msPerDay in *; nia).
  rewrite (newDateYMD_monthStart y 11 31 Hy)
    by (unfold maxTimeValue, msPerDay in *; nia).
  rewrite Z.add_0_r.
  replace (monthStart (12 * y) + 1 - 1) with (monthStart (12 * y)) by ring.
  replace (monthStart (12 * y + 11) + 31 - 1) with (monthStart (12 * (y + 1)) - 1)
    by (replace (12 * (y + 1)) with (12 * y + 12) by ring; lia).
  assert (Hmem : forall t,
     dateLe (Some (monthStart (12 * y) * msPerDay)) (Some t)
     && dateLe (Some t) (Some ((monthStart (12 * (y + 1)) - 1) * msPerDay)) = true
     <-> exists m' d', civilFromDays (t / msPerDay) = (y, m', d')
           /\ (m' < 11 \/ d' < 31 \/ t mod msPerDay = 0)).
  { intros t. cbn [dateLe]. rewrite andb_true_iff, !Z.leb_le.
    rewrite range_membership.
    pose proof (civilFromDays_monthStart (t / msPerDay)) as Ht.
    destruct (civilFromDays (t / msPerDay)) as [[y' m'] d'] eqn:Hct.
    destruct Ht as (Htz & Htm & Htd & Htlen).
    rewrite (civil_index_range _ _ _ _ (12 * y) (12 * (y + 1)) Hct).
    replace (12 * (y + 1)) with (12 * y + 12) by ring.
    split.
    - intros [[Ha Hb] Hr]. assert (y' = y) as -> by lia.
      exists m', d'. split; [reflexivity|].
      destruct Hr as [Hr|Hr]; [|tauto].
      destruct (Z_lt_le_dec m' 11) as [|Hm11]; [tauto|].
      assert (m' = 11) as -> by lia. right; left. lia.
    - intros (m'' & d'' & E & Hr). injection E as -> <- <-.
      split; [lia|].
      destruct Hr as [Hr|[Hr|Hr]]; [left|left|right; exact Hr].
      + pose proof (monthStart_le (12 * y + m' + 1) (12 * y + 11) ltac:(lia)). lia.
      + destruct (Z_lt_le_dec m' 11).
        * pose proof (monthStart_le (12 * y + m' + 1) (12 * y + 11) ltac:(lia)). lia.
        * assert (m' = 11) as -> by lia. lia. }
  split; [exact Hmem|].
  unfold getTotalExpensesForDateRange. f_equal.
  apply filter_ext. intros e. cbv zeta.
  apply eq_true_iff_eq. rewrite Hmem.
  destruct (civilFromDays (Expense.date e / msPerDay)) as [[y' m'] d'] eqn:Hce.
  rewrite !andb_true_iff, !orb_true_iff, !Z.eqb_eq, !Z.ltb_lt.
  split.
  - intros (m'' & d'' & E & Hr). injection E as -> -> ->. tauto.
  - intros [-> Hr]. exists m', d'. split; [reflexivity|tauto].
Qed.

(** ** [calculateNextBillingDate] and [isPastDate] *)

(** X6: [calculateNextBillingDate] throws on an invalid date and otherwise computes the same date as [calculateNextExpectedDate], a whole number of days within the cadence of the cycle later. *)
Theorem calculateNextBillingDate_cadence date c :
  (date = None -> calculateNextBillingDate date c = Throw)
  /\ forall t, date = Some t -> Z.abs t <= maxTimeValue ->
     calculateNextBillingDate date c = calculateNextExpectedDate t c
     /\ exists delta, cadenceDays c delta
          /\ calculateNextBillingDate date c = toISOString (TimeClip (t + delta * msPerDay)).
Proof.
  split; [intros ->; reflexivity|].
  intros t -> Ht.
  rewrite calculateNextExpectedDate_advance, TimeClip_valid by exact Ht.
  split; [reflexivity|].
  destruct (advanceDate_days t c) as [delta [Hd Ha]].
  exists delta. split; [exact Hd|]. unfold calculateNextBillingDate. now rewrite Ha.
Qed.

(** X7: [isPastDate] compares calendar days: it is false on an invalid date, holds when [getDaysUntil] is negative and implies that [getDaysUntil] is not positive. *)
Theorem isPastDate_days date now :
  Z.abs now <= maxTimeValue ->
  (date = None -> isPastDate date now = false)
  /\ forall t, date = Some t -> Z.abs t <= maxTimeValue ->
     isPastDate date now = (t / msPerDay <? now / msPerDay)
     /\ forall k, getDaysUntil date now = Some k ->
          (k < 0 -> isPastDate date now = true)
          /\ (isPastDate date now = true -> k <= 0).
Proof.
  intros Hnow. split; [intros ->; reflexivity|].
  intros t -> Ht.
  assert (E : isPastDate (Some t) now = (t / msPerDay <? now / msPerDay)).
  { unfold isPastDate. rewrite !setHours0_valid by assumption. cbn [dateLt].
    apply eq_true_iff_eq. rewrite !Z.ltb_lt.
    rewrite <- Z.mul_lt_mono_pos_r; [reflexivity | unfold msPerDay; lia]. }
  split; [exact E|].
  intros k Hk. cbn in Hk. injection Hk as <-.
  pose proof (ceilDiv_ceiling (t - now) msPerDay ltac:(unfold msPerDay; lia)) as Hc.
  pose proof (Z.div_mod t msPerDay ltac:(unfold msPerDay; lia)).
  pose proof (Z.mod_pos_bound t msPerDay ltac:(unfold msPerDay; lia)).
  pose proof (Z.div_mod now msPerDay ltac:(unfold msPerDay; lia)).
  pose proof (Z.mod_pos_bound now msPerDay ltac:(unfold msPerDay; lia)).
  rewrite E, Z.ltb_lt. unfold msPerDay in *. split; intros; nia.
Qed.

Close Scope Z_scope.

(** ** Duplicate checks of [DataIntegrityValidation] *)

Section Seen.
Context {A : Type}.
Variable eqb : A -> A -> bool.
Hypothesis eqb_iff : forall a b, eqb a b = true <-> a = b.

Lemma existsb_eqb_iff a l : existsb (eqb a) l = true <-> In a l.
Proof.
  rewrite existsb_exists. split.
  - intros (b & Hb & E). apply eqb_iff in E. now subst.
  - intros H. exists a. split; [exact H|]. now apply eqb_iff.
Qed.

Lemma existsb_shadow a b seen rest :
  In b seen -> existsb (eqb a) (seen ++ b :: rest) = existsb (eqb a) (seen ++ rest).
Proof.
  intros Hb. apply eq_true_iff_eq. rewrite !existsb_eqb_iff, !in_app_iff. cbn.
  split; [|tauto]. intros [H|[<-|H]]; auto.
Qed.

Lemma existsb_absorb b seen :
  existsb (eqb b) seen = true ->
  forall a, existsb (eqb a) seen = existsb (eqb a) (seen ++ [b]).
Proof.
  intros Hb a. apply existsb_eqb_iff in Hb. apply eq_true_iff_eq.
  rewrite !existsb_eqb_iff, in_app_iff. cbn. split; [tauto|].
  intros [H|[<-|[]]]; assumption.
Qed.

Lemma Forall_not_in_app (seen : list A) b l :
  Forall (fun x => ~ In x (seen ++ [b])) l <-> Forall (fun x => ~ In x seen) l /\ ~ In b l.
Proof.
  rewrite !Forall_forall. setoid_rewrite in_app_iff. cbn. split.
  - intros H. split; [intros x Hx Hs; apply (H x Hx); auto|].
    intros Hb. apply (H b Hb). auto.
  - intros [H Hb] x Hx [Hs|[<-|[]]]; [apply (H x Hx Hs)|apply Hb, Hx].
Qed.
End Seen.

Lemma in_combine_seq_ge {B} i n (l : list B) k x :
  In (k, x) (combine (seq i n) l) -> (i <= k)%nat.
Proof. intros H. apply in_combine_l, in_seq in H. lia. Qed.

Section ExpenseArray.

Let msgE (entry : nat * Expense.t) : string :=
  let '(index, expense) := entry in
  String.append "Duplicate expense ID found at index "
    (String.append (numberToString (Some (Z.of_nat index)))
       (String.append ": " (Expense.id expense))).

Lemma validateExpenseArrayLoop_spec l i seen :
  validateExpenseArrayLoop l i seen
  = map msgE
      (filter (fun '(k, e) =>
                 existsb (String.eqb (Expense.id e))
                   (seen ++ map Expense.id (firstn (k - i) l)))
         (combine (seq i (List.length l)) l)).
Proof.
  revert i seen. induction l as [|e rest IH]; intros i seen; [reflexivity|].
  cbn [validateExpenseArrayLoop List.length seq combine filter].
  rewrite Nat.sub_diag. cbn [firstn map]. rewrite app_nil_r.
  destruct (existsb (String.eqb (Expense.id e)) seen) eqn:Hs.
  - cbn [map]. f_equal. rewrite IH. f_equal. apply filter_ext_in.
    intros [k x] Hin. apply in_combine_seq_ge in Hin.
    replace (k - i)%nat with (S (k - S i)) by lia. cbn [firstn map].
    symmetry. apply existsb_shadow; [exact String.eqb_eq|].
    apply (existsb_eqb_iff String.eqb String.eqb_eq). exact Hs.
  - rewrite IH. f_equal. apply filter_ext_in.
    intros [k x] Hin. apply in_combine_seq_ge in Hin.
    replace (k - i)%nat with (S (k - S i)) by lia. cbn [firstn map].
    now rewrite <- app_assoc.
Qed.

Lemma validateExpenseArrayLoop_nil l i seen :
  validateExpenseArrayLoop l i seen = []
  <-> NoDup (map Expense.id l) /\ Forall (fun x => ~ In x seen) (map Expense.id l).
Proof.
  revert i seen. induction l as [|e rest IH]; intros i seen.
  - cbn. split; [intros _; split; constructor | reflexivity].
  - cbn [validateExpenseArrayLoop map].
    destruct (existsb (String.eqb (Expense.id e)) seen) eqn:Hs.
    + split; [discriminate|]. intros [_ H]. inversion H; subst.
      apply (existsb_eqb_iff String.eqb String.eqb_eq) in Hs. contradiction.
    + rewrite IH, Forall_not_in_app.
      assert (~ In (Expense.id e) seen).
      { intros Hin. apply (existsb_eqb_iff String.eqb String.eqb_eq) in Hin. congruence. }
      rewrite NoDup_cons_iff. split.
      * intros [Hnd [Hf Hn]]. split; [tauto|]. constructor; assumption.
      * intros [[Hn Hnd] Hf]. inversion Hf; subst. tauto.
Qed.

(** X15: [validateExpenseArray] reports one message per expense whose id occurs earlier, with its index, and is valid exactly when the ids are distinct. *)
Theorem validateExpenseArray_spec expenses :
  errors (validateExpenseArray expenses)
  = map (fun '(index, expense) =>
           String.append "Duplicate expense ID found at index "
             (String.append (numberToString (Some (Z.of_nat index)))
                (String.append ": " (Expense.id expense))))
      (filter (fun '(index, expense) =>
                 existsb (String.eqb (Expense.id expense))
                   (map Expense.id (firstn index expenses)))
         (combine (seq 0 (List.length expenses)) expenses))
  /\ (isValid (validateExpenseArray expenses) = true <-> NoDup (map Expense.id expenses)).
Proof.
  split.
  - cbn [errors validateExpenseArray]. rewrite validateExpenseArrayLoop_spec.
    f_equal. apply filter_ext. intros [k x]. now rewrite Nat.sub_0_r.
  - cbn [isValid validateExpenseArray]. rewrite Nat.eqb_eq, length_zero_iff_nil.
    rewrite validateExpenseArrayLoop_nil. split; [tauto|].
    intros H. split; [exact H|]. apply Forall_forall. intros x _ [].
Qed.

End ExpenseArray.

Lemma list_ascii_eqb_iff a b : list_ascii_eqb a b = true <-> a = b.
Proof. unfold list_ascii_eqb. destruct (list_eq_dec ascii_dec a b); split; congruence. Qed.

Section SubscriptionArray.

Let normalized (s : Subscription.t) : list ascii := jsTrim (toLowerCase (Subscription.name s)).

Let msgs (seenIds : list string) (seenNames : list (list ascii)) (entry : nat * Subscription.t)
    : list string :=
  let '(index, s) := entry in
  (if existsb (String.eqb (Subscription.id s)) seenIds
   then [String.append "Duplicate subscription ID found at index "
           (String.append (numberToString (Some (Z.of_nat index)))
              (String.append ": " (Subscription.id s)))]
   else [])
  ++ (if existsb (list_ascii_eqb (normalized s)) seenNames
      then [String.append "Duplicate subscription name found at index "
              (String.append (numberToString (Some (Z.of_nat index)))
                 (String.append ": " (Subscription.name s)))]
      else []).

Lemma validateSubscriptionArrayLoop_spec l i seenIds seenNames :
  validateSubscriptionArrayLoop l i seenIds seenNames
  = List.concat (map (fun '(k, s) =>
                   msgs (seenIds ++ map Subscription.id (firstn (k - i) l))
                        (seenNames ++ map normalized (firstn (k - i) l)) (k, s))
              (combine (seq i (List.length l)) l)).
Proof.
  revert i seenIds seenNames.
  induction l as [|e rest IH]; intros i seenIds seenNames; [reflexivity|].
  cbn [validateSubscriptionArrayLoop List.length seq combine map List.concat].
  rewrite Nat.sub_diag. cbn [firstn map]. rewrite !app_nil_r.
  unfold msgs at 1. fold (normalized e).
  assert (Htail : forall ids' names',
    (forall a, existsb (String.eqb a) ids'
               = existsb (String.eqb a) (seenIds ++ [Subscription.id e])) ->
    (forall a, existsb (list_ascii_eqb a) names'
               = existsb (list_ascii_eqb a) (seenNames ++ [normalized e])) ->
    validateSubscriptionArrayLoop rest (S i) ids' names'
    = List.concat (map (fun '(k, s) =>
                     msgs (seenIds ++ map Subscription.id (firstn (k - i) (e :: rest)))
                          (seenNames ++ map normalized (firstn (k - i) (e :: rest))) (k, s))
                (combine (seq (S i) (List.length rest)) rest))).
  { intros ids' names' Hids Hnames. rewrite IH. f_equal. apply map_ext_in.
    intros [k x] Hin. apply in_combine_seq_ge in Hin.
    replace (k - i)%nat with (S (k - S i)) by lia. cbn [firstn map].
    unfold msgs. rewrite !existsb_app, Hids, Hnames, !existsb_app.
    cbn [existsb]. rewrite !orb_false_r, !orb_assoc. reflexivity. }
  destruct (existsb (String.eqb (Subscription.id e)) seenIds) eqn:Hi,
           (existsb (list_ascii_eqb (normalized e)) seenNames) eqn:Hn;
    cbn [app]; rewrite ?Htail; try reflexivity; intros a;
    first [ now apply (existsb_absorb String.eqb String.eqb_eq)
          | now apply (existsb_absorb list_ascii_eqb list_ascii_eqb_iff)
          | reflexivity ].
Qed.

Lemma validateSubscriptionArrayLoop_nil l i seenIds seenNames :
  validateSubscriptionArrayLoop l i seenIds seenNames = []
  <-> (NoDup (map Subscription.id l)
       /\ Forall (fun x => ~ In x seenIds) (map Subscription.id l))
      /\ (NoDup (map normalized l) /\ Forall (fun x => ~ In x seenNames) (map normalized l)).
Proof.
  revert i seenIds seenNames.
  induction l as [|e rest IH]; intros i seenIds seenNames.
  - cbn. split; [intros _; repeat split; constructor | reflexivity].
  - cbn [validateSubscriptionArrayLoop map]. fold (normalized e).
    destruct (existsb (String.eqb (Subscription.id e)) seenIds) eqn:Hi.
    { split; [destruct (existsb _ seenNames); discriminate|].
      intros [[_ H] _]. inversion H; subst.
      apply (existsb_eqb_iff String.eqb String.eqb_eq) in Hi. contradiction. }
    destruct (existsb (list_ascii_eqb (normalized e)) seenNames) eqn:Hn.
    { split; [discriminate|].
      intros [_ [_ H]]. inversion H; subst.
      apply (existsb_eqb_iff list_ascii_eqb list_ascii_eqb_iff) in Hn. contradiction. }
    cbn [app]. rewrite IH, !Forall_not_in_app, !NoDup_cons_iff.
    assert (~ In (Subscription.id e) seenIds).
    { intros Hin. apply (existsb_eqb_iff String.eqb String.eqb_eq) in Hin. congruence. }
    assert (~ In (normalized e) seenNames).
    { intros Hin. apply (existsb_eqb_iff list_ascii_eqb list_ascii_eqb_iff) in Hin.
      congruence. }
    rewrite !Forall_cons_iff. tauto.
Qed.

(** X16: [validateSubscriptionArray] reports, per subscription, one message when its id occurs earlier and one when its trimmed lower-case name does, and is valid exactly when both are distinct. *)
Theorem validateSubscriptionArray_spec subscriptions :
  let normalizedName (s : Subscription.t) := jsTrim (toLowerCase (Subscription.name s)) in
  errors (validateSubscriptionArray subscriptions)
  = List.concat
      (map (fun '(index, s) =>
              (if existsb (String.eqb (Subscription.id s))
                    (map Subscription.id (firstn index subscriptions))
               then [String.append "Duplicate subscription ID found at index "
                       (String.append (numberToString (Some (Z.of_nat index)))
                          (String.append ": " (Subscription.id s)))]
               else [])
              ++ (if existsb (list_ascii_eqb (normalizedName s))
                       (map normalizedName (firstn index subscriptions))
                  then [String.append "Duplicate subscription name found at index "
                          (String.append (numberToString (Some (Z.of_nat index)))
                             (String.append ": " (Subscription.name s)))]
                  else []))
         (combine (seq 0 (List.length subscriptions)) subscriptions))
  /\ (isValid (validateSubscriptionArray subscriptions) = true
      <-> NoDup (map Subscription.id subscriptions)
          /\ NoDup (map normalizedName subscriptions)).
Proof.
  intros normalizedName. split.
  - cbn [errors validateSubscriptionArray]. rewrite validateSubscriptionArrayLoop_spec.
    f_equal. apply map_ext. intros [k x]. now rewrite Nat.sub_0_r.
  - cbn [isValid validateSubscriptionArray]. rewrite Nat.eqb_eq, length_zero_iff_nil.
    rewrite validateSubscriptionArrayLoop_nil.
    assert (Hnil : forall {B} (l : list B), Forall (fun x => ~ In x []) l)
      by (intros B l; apply Forall_forall; intros x _ []).
    split; [tauto|]. intros [H1 H2]. split; split; auto.
Qed.

End SubscriptionArray.

(** ** [FormValidationHelpers] *)

Lemma isPrefix_iff p s : isPrefix p s = true <-> exists b, s = p ++ b.
Proof.
  revert s. induction p as [|c p IH]; intros s; cbn.
  - split; [intros _; exists s; reflexivity|reflexivity].
  - destruct s as [|d s].
    + split; [discriminate|]. intros [b Hb]. discriminate.
    + rewrite andb_true_iff, IH, Ascii.eqb_eq. split.
      * intros [-> [b ->]]. exists b. reflexivity.
      * intros [b Hb]. injection Hb as -> ->. eauto.
Qed.

Lemma includes_iff s p : includes s p = true <-> exists a b, s = a ++ p ++ b.
Proof.
  induction s as [|c s IH]; cbn; rewrite orb_true_iff, isPrefix_iff.
  - split.
    + intros [[b Hb]|H]; [exists [], b; exact Hb|discriminate].
    + intros ([|x a] & b & H); [left; exists b; exact H|].
      discriminate.
  - rewrite IH. split.
    + intros [[b Hb]|(a & b & Hab)].
      * exists [], b. exact Hb.
      * exists (c :: a), b. cbn. now rewrite Hab.
    + intros ([|x a] & b & H).
      * left. exists b. exact H.
      * right. injection H as -> H. eauto.
Qed.

(** X17: [getFieldError] is null on a valid result; otherwise it is the first error mentioning the field case-insensitively, else the first error, and it is undefined only on an invalid result without errors. *)
Theorem getFieldError_spec r fieldName :
  let mentions (e : string) :=
    exists a b, toLowerCase e = a ++ toLowerCase fieldName ++ b in
  (isValid r = true -> getFieldError r fieldName = Null)
  /\ (isValid r = false ->
      forall pre e post, errors r = pre ++ e :: post ->
        Forall (fun x => ~ mentions x) pre -> mentions e ->
        getFieldError r fieldName = Value e)
  /\ (isValid r = false -> Forall (fun x => ~ mentions x) (errors r) ->
      getFieldError r fieldName
      = match errors r with [] => Undefined | e :: _ => Value e end)
  /\ (isValid r = (List.length (errors r) =? 0)%nat -> getFieldError r fieldName <> Undefined).
Proof.
  intros mentions.
  assert (Hm : forall e, includes (toLowerCase e) (toLowerCase fieldName) = true
                         <-> mentions e) by (intros e; apply includes_iff).
  assert (Hnone : forall l, Forall (fun x => ~ mentions x) l ->
            filter (fun error => includes (toLowerCase error) (toLowerCase fieldName)) l = []).
  { induction 1 as [|x l Hx _ IH]; cbn; [reflexivity|].
    destruct (includes _ _) eqn:E; [exfalso; apply Hx, Hm, E|exact IH]. }
  split; [intros H; unfold getFieldError; now rewrite H|].
  split; [|split].
  - intros Hv pre e post He Hpre Hme. unfold getFieldError. rewrite Hv, He.
    rewrite filter_app, (Hnone pre Hpre). cbn.
    apply Hm in Hme. now rewrite Hme.
  - intros Hv Hall. unfold getFieldError. rewrite Hv, (Hnone _ Hall). reflexivity.
  - intros Hwf. unfold getFieldError.
    destruct (isValid r); [discriminate|].
    destruct (filter _ _); [|discriminate].
    destruct (errors r); [discriminate|discriminate].
Qed.

(** X18: [getAllErrors] concatenates the errors in order, and on well-formed results [hasErrors] holds exactly when that list is not empty. *)
Theorem getAllErrors_hasErrors validationResults :
  Forall (fun r => isValid r = (List.length (errors r) =? 0)%nat) validationResults ->
  getAllErrors validationResults = List.concat (map errors validationResults)
  /\ (hasErrors validationResults = true <-> getAllErrors validationResults <> []).
Proof.
  intros Hwf.
  assert (Hall : getAllErrors validationResults = List.concat (map errors validationResults)).
  { unfold getAllErrors.
    assert (G : forall acc, fold_left (fun allErrors result => allErrors ++ errors result)
                              validationResults acc
                            = acc ++ List.concat (map errors validationResults)).
    { clear Hwf. induction validationResults as [|r rs IH]; intros acc; cbn.
      - now rewrite app_nil_r.
      - rewrite IH. now rewrite app_assoc. }
    apply G. }
  split; [exact Hall|]. rewrite Hall. clear Hall.
  unfold hasErrors. rewrite existsb_exists.
  induction Hwf as [|r rs Hr _ IH]; cbn.
  - split; [intros (x & [] & _)|intros H; contradiction].
  - split.
    + intros (x & [<-|Hx] & Hi).
      * rewrite Hr in Hi. destruct (errors r); [discriminate|]. cbn. discriminate.
      * intros Happ. apply app_eq_nil in Happ as [_ Hn]. apply IH; [|exact Hn].
        exists x. auto.
    + intros Hne. destruct (errors r) eqn:Er.
      * cbn in Hne. destruct IH as [_ IH]. destruct (IH Hne) as (x & Hx & Hi).
        exists x. auto.
      * exists r. split; [left; reflexivity|]. rewrite Hr. rewrite ?Er. reflexivity.
Qed.

(** ** [cn] *)

Lemma singleSpaced_weaken b l : singleSpaced b l -> singleSpaced false l.
Proof.
  destruct l as [|c r]; cbn; [auto|].
  destruct (isJsSpace c); [intros (? & _ & ?); auto|auto].
Qed.

Lemma singleSpaced_suffix b a l : singleSpaced b (a ++ l) -> singleSpaced false l.
Proof.
  revert b. induction a as [|c a IH]; intros b; cbn; [apply singleSpaced_weaken|].
  destruct (isJsSpace c); [intros (_ & _ & H)|intros H]; eapply IH; eauto.
Qed.

Lemma singleSpaced_prefix b l a : singleSpaced b (l ++ a) -> singleSpaced b l.
Proof.
  revert b. induction l as [|c l IH]; intros b; cbn; [auto|].
  destruct (isJsSpace c); [intros (? & ? & H)|intros H]; eauto.
Qed.

Lemma singleSpaced_space b l c : singleSpaced b l -> In c l -> isJsSpace c = true -> c = " "%char.
Proof.
  revert b. induction l as [|d l IH]; intros b; cbn; [tauto|].
  destruct (isJsSpace d) eqn:E; [intros (? & _ & H)|intros H];
    intros [<-|Hin] Hc; eauto; congruence.
Qed.

Lemma singleSpaced_no_double b l a r :
  singleSpaced b l -> l <> a ++ " "%char :: " "%char :: r.
Proof.
  revert b l. induction a as [|d a IH]; intros b l H E; subst l; cbn in H.
  - destruct H as (_ & _ & _ & H & _). discriminate.
  - destruct (isJsSpace d); [destruct H as (_ & _ & H)|]; eapply IH; eauto.
Qed.

Lemma replaceSpaceRuns_singleSpaced b l : singleSpaced b (replaceSpaceRuns b l).
Proof.
  revert b. induction l as [|c l IH]; intros b; cbn; [auto|].
  destruct (isJsSpace c) eqn:E.
  - destruct b; [apply IH|]. cbn [singleSpaced].
    replace (isJsSpace " ") with true by reflexivity. auto.
  - cbn [singleSpaced]. rewrite E. apply IH.
Qed.

Lemma dropLeadingSpace_split l :
  exists a, l = a ++ dropLeadingSpace l /\ Forall (fun c => isJsSpace c = true) a.
Proof.
  induction l as [|c l IH]; cbn; [exists []; auto|].
  destruct (isJsSpace c) eqn:E.
  - destruct IH as (a & Ha & Hs). exists (c :: a). cbn. rewrite <- Ha. auto.
  - exists []. auto.
Qed.

Lemma dropLeadingSpace_head l c r :
  dropLeadingSpace l = c :: r -> isJsSpace c = false.
Proof.
  induction l as [|d l IH]; cbn; [discriminate|].
  destruct (isJsSpace d) eqn:E; [exact IH|]. intros H. injection H as <- _. exact E.
Qed.

Lemma dropLeadingSpace_id l :
  (forall c r, l = c :: r -> isJsSpace c = false) -> dropLeadingSpace l = l.
Proof.
  destruct l as [|c r]; cbn; [reflexivity|]. intros H. now rewrite (H c r eq_refl).
Qed.


Lemma nonSpace_spaces a : Forall (fun c => isJsSpace c = true) a -> nonSpace a = [].
Proof. induction 1 as [|c a Hc _ IH]; cbn; [reflexivity|]. now rewrite Hc. Qed.

Lemma nonSpace_app a b : nonSpace (a ++ b) = nonSpace a ++ nonSpace b.
Proof. apply filter_app. Qed.

Lemma replaceSpaceRuns_nonSpace b l : nonSpace (replaceSpaceRuns b l) = nonSpace l.
Proof.
  revert b. induction l as [|c l IH]; intros b; cbn; [reflexivity|].
  destruct (isJsSpace c) eqn:E.
  - destruct b; [apply IH|]. cbn. replace (isJsSpace " ") with true by reflexivity.
    apply IH.
  - unfold nonSpace in *. cbn. rewrite E. cbn. f_equal. apply IH.
Qed.

Lemma replaceSpaceRuns_id b l : singleSpaced b l -> replaceSpaceRuns b l = l.
Proof.
  revert b. induction l as [|c l IH]; intros b; cbn; [reflexivity|].
  destruct (isJsSpace c) eqn:E.
  - intros (-> & -> & H). f_equal. apply IH, H.
  - intros H. f_equal. apply (IH false H).
Qed.

Lemma jsTrim_split l :
  exists a1 a2, l = a1 ++ jsTrim l ++ a2
    /\ Forall (fun c => isJsSpace c = true) a1 /\ Forall (fun c => isJsSpace c = true) a2
    /\ (forall c r, jsTrim l = c :: r -> isJsSpace c = false)
    /\ (forall r c, jsTrim l = r ++ [c] -> isJsSpace c = false).
Proof.
  unfold jsTrim.
  destruct (dropLeadingSpace_split l) as (a1 & H1 & S1).
  set (D := dropLeadingSpace l) in *.
  destruct (dropLeadingSpace_split (rev D)) as (a2 & H2 & S2).
  set (E := dropLeadingSpace (rev D)) in *.
  assert (HD : D = rev E ++ rev a2).
  { rewrite <- rev_app_distr, <- H2, rev_involutive. reflexivity. }
  exists a1, (rev a2). split; [|split; [exact S1|split; [|split]]].
  - rewrite H1 at 1. rewrite HD. reflexivity.
  - apply Forall_rev. exact S2.
  - intros c r Hc. apply (dropLeadingSpace_head l c (r ++ rev a2)). fold D.
    rewrite HD, Hc. reflexivity.
  - intros r c Hc. apply (dropLeadingSpace_head (rev D) c (rev r)). fold E.
    rewrite <- (rev_involutive E), Hc, rev_app_distr. reflexivity.
Qed.

Lemma jsTrim_id l :
  (forall c r, l = c :: r -> isJsSpace c = false) ->
  (forall r c, l = r ++ [c] -> isJsSpace c = false) ->
  jsTrim l = l.
Proof.
  intros Hh Hl. unfold jsTrim. rewrite (dropLeadingSpace_id l Hh).
  rewrite dropLeadingSpace_id; [apply rev_involutive|].
  intros c r Hr. apply (Hl (rev r)). rewrite <- (rev_involutive l), Hr. reflexivity.
Qed.

Lemma list_ascii_of_string_append a b :
  list_ascii_of_string (String.append a b) = list_ascii_of_string a ++ list_ascii_of_string b.
Proof. induction a as [|c a IH]; cbn; [reflexivity|]. now rewrite IH. Qed.

Lemma joinWith_nonSpace parts :
  nonSpace (list_ascii_of_string (joinWith " " parts))
  = nonSpace (List.concat (map list_ascii_of_string parts)).
Proof.
  induction parts as [|p [|q rest] IH]; [reflexivity| |].
  - cbn. now rewrite app_nil_r.
  - change (joinWith " " (p :: q :: rest))
      with (String.append p (String.append " " (joinWith " " (q :: rest)))).
    rewrite !list_ascii_of_string_append, !nonSpace_app, IH.
    cbn [map List.concat]. rewrite !nonSpace_app. reflexivity.
Qed.

(** X19: [cn] yields a string whose only white space is single spaces between classes, keeps the non-space characters of the truthy classes in order, and is a fixed point of [cn]. *)
Theorem cn_normal_form classes :
  let s := list_ascii_of_string (cn classes) in
  (forall c, In c s -> isJsSpace c = true -> c = " "%char)
  /\ (forall r, s <> " "%char :: r)
  /\ (forall r, s <> r ++ [" "%char])
  /\ (forall a r, s <> a ++ " "%char :: " "%char :: r)
  /\ filter (fun c => negb (isJsSpace c)) s
     = filter (fun c => negb (isJsSpace c))
         (List.concat (map (fun v => list_ascii_of_string (classText v))
                         (filter truthy classes)))
  /\ cn [CString (cn classes)] = cn classes.
Proof.
  intros s.
  set (J := list_ascii_of_string (joinWith " " (map classText (filter truthy classes)))).
  set (R := replaceSpaceRuns false J).
  assert (Hs : s = jsTrim R)
    by (unfold s, cn; apply list_ascii_of_string_of_list_ascii).
  destruct (jsTrim_split R) as (a1 & a2 & HR & S1 & S2 & Hh & Hl).
  rewrite <- Hs in HR, Hh, Hl.
  assert (Hsp : singleSpaced false s).
  { pose proof (replaceSpaceRuns_singleSpaced false J) as H. fold R in H.
    rewrite HR in H. apply singleSpaced_suffix in H.
    eapply singleSpaced_prefix. exact H. }
  assert (Hns : nonSpace s = nonSpace J).
  { rewrite <- (replaceSpaceRuns_nonSpace false J). fold R. rewrite HR.
    rewrite !nonSpace_app, (nonSpace_spaces a1 S1), (nonSpace_spaces a2 S2).
    now rewrite app_nil_r. }
  split; [intros c Hc; apply (singleSpaced_space false s c Hsp Hc)|].
  split; [intros r E; apply Hh in E; discriminate|].
  split; [intros r E; apply Hl in E; discriminate|].
  split; [intros a r; exact (singleSpaced_no_double false s a r Hsp)|].
  split.
  - change (nonSpace s = nonSpace (List.concat
                (map (fun v => list_ascii_of_string (classText v)) (filter truthy classes)))).
    rewrite Hns. unfold J. rewrite joinWith_nonSpace, map_map. reflexivity.
  - unfold cn at 1. cbn [filter truthy].
    destruct (String.eqb (cn classes) EmptyString) eqn:E.
    + apply String.eqb_eq in E. rewrite E. reflexivity.
    + cbn [negb map classText joinWith].
      fold s. rewrite replaceSpaceRuns_id by exact Hsp.
      rewrite jsTrim_id by assumption.
      unfold s. apply string_of_list_ascii_of_string.
Qed.

(** ** [Utils.sortBy] *)

Section SortByFacts.
Context {T : Type}.
Variable property : T -> R.
Variable direction : Direction.

(** The key [sortBy] orders by ascending. *)
Let key (x : T) : R := match direction with asc => property x | desc => - property x end.

Let after (a b : T) : bool := (sortByCompare property direction a b >? 0)%Z.

Lemma sortBy_after a b : after a b = true <-> key b < key a.
Proof.
  unfold after, key, sortByCompare, Rgtb.
  destruct (Rltb_spec (property a) (property b)), (Rltb_spec (property b) (property a)),
    direction; cbn; split; intros; try lra; try discriminate; reflexivity.
Qed.

Lemma sortBy_after_asym a b : after a b = true -> after b a = false.
Proof.
  rewrite sortBy_after. intros H. destruct (after b a) eqn:E; [|reflexivity].
  apply sortBy_after in E. lra.
Qed.

Lemma sortBy_sorted_key l : StronglySorted (fun a b => key a <= key b) (sort_by after l).
Proof.
  apply Sorted_StronglySorted; [intros x y z; lra|].
  eapply Sorted_weaken; [|apply (sort_by_sorted after sortBy_after_asym)].
  intros a b H. cbn in H. destruct (Rle_dec (key a) (key b)) as [|Hn]; [assumption|].
  assert (after a b = true) by (apply sortBy_after; lra). congruence.
Qed.

Let sameKey (v : R) (x : T) : bool := if Req_EM_T (property x) v then true else false.

Lemma filter_all_false {A} (f : A -> bool) l :
  (forall z, In z l -> f z = false) -> filter f l = [].
Proof.
  induction l as [|a l IH]; intros H; cbn; [reflexivity|].
  rewrite (H a (or_introl eq_refl)). apply IH. intros z Hz. apply H. now right.
Qed.

Lemma key_eq a b : property a = property b -> key a = key b.
Proof. unfold key. intros E. destruct direction; now rewrite E. Qed.

Lemma insert_by_sameKey v x acc :
  StronglySorted (fun a b => key a <= key b) acc ->
  filter (sameKey v) (insert_by after x acc) = filter (sameKey v) acc ++ filter (sameKey v) [x].
Proof.
  induction acc as [|y acc IH]; intros Hs; cbn [insert_by]; [reflexivity|].
  inversion Hs as [|y' acc' Hs' Hall]; subst.
  destruct (after y x) eqn:E.
  - apply sortBy_after in E.
    change (filter (sameKey v) (x :: y :: acc))
      with (if sameKey v x then x :: filter (sameKey v) (y :: acc)
            else filter (sameKey v) (y :: acc)).
    change (filter (sameKey v) [x]) with (if sameKey v x then [x] else []).
    destruct (sameKey v x) eqn:Hx.
    + rewrite filter_all_false; [reflexivity|].
      intros z Hz. unfold sameKey in *.
      destruct (Req_EM_T (property x) v) as [Ex|]; [|discriminate].
      destruct (Req_EM_T (property z) v) as [Ez|]; [|reflexivity].
      exfalso. assert (key z = key x) by (apply key_eq; congruence).
      destruct Hz as [<-|Hz]; [lra|].
      rewrite Forall_forall in Hall. specialize (Hall z Hz). lra.
    + rewrite app_nil_r. reflexivity.
  - cbn [filter]. rewrite IH by exact Hs'.
    destruct (sameKey v y); reflexivity.
Qed.

Lemma insert_by_StronglySorted x acc :
  StronglySorted (fun a b => key a <= key b) acc ->
  StronglySorted (fun a b => key a <= key b) (insert_by after x acc).
Proof.
  intros Hs. apply StronglySorted_Sorted in Hs.
  assert (Hs' : Sorted (fun a b => after a b = false) acc).
  { eapply Sorted_weaken; [|exact Hs]. intros a b H.
    destruct (after a b) eqn:E; [|reflexivity]. apply sortBy_after in E. lra. }
  apply (insert_by_sorted after sortBy_after_asym x) in Hs'.
  apply Sorted_StronglySorted; [intros a b c; lra|].
  eapply Sorted_weaken; [|exact Hs']. intros a b H.
  destruct (Rle_dec (key a) (key b)) as [|Hn]; [assumption|].
  assert (after a b = true) by (apply sortBy_after; lra). congruence.
Qed.

(** X20: [sortBy] returns a permutation of the array ordered by the property in the given direction, keeping the original order of elements with equal property. *)
Theorem sortBy_spec array :
  Permutation (sortBy property array direction) array
  /\ Sorted (fun a b => match direction with
                        | asc => property a <= property b
                        | desc => property b <= property a
                        end)
       (sortBy property array direction)
  /\ forall v,
       filter (fun x => if Req_EM_T (property x) v then true else false)
         (sortBy property array direction)
       = filter (fun x => if Req_EM_T (property x) v then true else false) array.
Proof.
  split; [apply sort_by_perm|]. split.
  - unfold sortBy. fold after.
    eapply Sorted_weaken; [|apply StronglySorted_Sorted, sortBy_sorted_key].
    intros a b H. unfold key in H. destruct direction; lra.
  - intros v. fold (sameKey v). unfold sortBy, sort_by. fold after.
    assert (G : forall l acc, StronglySorted (fun a b => key a <= key b) acc ->
              filter (sameKey v) (fold_left (fun acc x => insert_by after x acc) l acc)
              = filter (sameKey v) acc ++ filter (sameKey v) l).
    { induction l as [|x l IH]; intros acc Hacc; cbn [fold_left].
      - now rewrite app_nil_r.
      - rewrite IH by (apply insert_by_StronglySorted; exact Hacc).
        rewrite insert_by_sameKey by exact Hacc.
        rewrite <- app_assoc. cbn [filter]. destruct (sameKey v x); reflexivity. }
    rewrite G by constructor. reflexivity.
Qed.

End SortByFacts.

(** ** [getExpensesByCategory] and [getSubscriptionsByCategory] *)

Section ByKey.
Context {A : Type}.
Variable key : A -> string.
Variable value : A -> R.

Let step (acc : NumberRecord) (x : A) : NumberRecord :=
  recordSet acc (key x) (orZero (recordGet acc (key x)) + value x).

Let total (l : list A) (k : string) : R :=
  fold_left (fun t x => t + value x) (filter (fun x => String.eqb (key x) k) l) 0.

Let seenStep (seen : list string) (k : string) : list string :=
  if existsb (String.eqb k) seen then seen else seen ++ [k].

Lemma firstOccurrences_app ks k :
  firstOccurrences (ks ++ [k]) = seenStep (firstOccurrences ks) k.
Proof. unfold firstOccurrences. rewrite fold_left_app. reflexivity. Qed.

Lemma seenStep_fold_NoDup ks seen :
  NoDup seen -> NoDup (fold_left seenStep ks seen).
Proof.
  revert seen. induction ks as [|k ks IH]; intros seen Hs; cbn; [exact Hs|].
  apply IH. unfold seenStep. destruct (existsb (String.eqb k) seen) eqn:E; [exact Hs|].
  apply NoDup_app; [exact Hs|repeat constructor; intros []|].
  intros y Hy [Ek|[]]. subst k.
  assert (existsb (String.eqb y) seen = true) by (apply existsb_exists; exists y; split; [exact Hy|apply String.eqb_refl]).
  congruence.
Qed.

Lemma seenStep_fold_In ks seen c :
  In c (fold_left seenStep ks seen) <-> In c seen \/ In c ks.
Proof.
  revert seen. induction ks as [|k ks IH]; intros seen; cbn; [tauto|].
  rewrite IH. unfold seenStep. destruct (existsb (String.eqb k) seen) eqn:E.
  - apply existsb_exists in E as (y & Hy & Ey). apply String.eqb_eq in Ey. subst y.
    split; [tauto|]. intros [H|[<-|H]]; auto.
  - rewrite in_app_iff. cbn. intuition.
Qed.

Lemma recordGet_map (h : string -> R) ks k :
  recordGet (map (fun c => (c, h c)) ks) k
  = if existsb (String.eqb k) ks then Some (h k) else None.
Proof.
  induction ks as [|c ks IH]; cbn; [reflexivity|].
  rewrite (String.eqb_sym k c). destruct (String.eqb c k) eqn:E; [|exact IH].
  apply String.eqb_eq in E. subst. reflexivity.
Qed.

Lemma recordSet_map_in (h : string -> R) ks k v :
  NoDup ks -> In k ks ->
  recordSet (map (fun c => (c, h c)) ks) k v
  = map (fun c => (c, if String.eqb c k then v else h c)) ks.
Proof.
  induction 1 as [|c ks Hc Hnd IH]; intros Hin; [destruct Hin|].
  cbn. destruct (String.eqb c k) eqn:E.
  - apply String.eqb_eq in E. subst c. f_equal.
    apply map_ext_in. intros c Hin'. destruct (String.eqb c k) eqn:E'; [|reflexivity].
    apply String.eqb_eq in E'. subst. contradiction.
  - f_equal. apply IH. destruct Hin as [->|Hin]; [rewrite String.eqb_refl in E; discriminate|exact Hin].
Qed.

Lemma recordSet_map_notin (h : string -> R) ks k v :
  ~ In k ks ->
  recordSet (map (fun c => (c, h c)) ks) k v = map (fun c => (c, h c)) ks ++ [(k, v)].
Proof.
  induction ks as [|c ks IH]; intros Hn; cbn; [reflexivity|].
  destruct (String.eqb c k) eqn:E.
  - apply String.eqb_eq in E. subst. exfalso. apply Hn. left. reflexivity.
  - f_equal. apply IH. intros H. apply Hn. right. exact H.
Qed.

Lemma total_app l x k :
  total (l ++ [x]) k = if String.eqb (key x) k then total l k + value x else total l k.
Proof.
  unfold total. rewrite filter_app. cbn. destruct (String.eqb (key x) k).
  - rewrite fold_left_app. reflexivity.
  - rewrite app_nil_r. reflexivity.
Qed.

Lemma total_none l k : ~ In k (map key l) -> total l k = 0.
Proof.
  intros Hn. unfold total.
  replace (filter (fun x => String.eqb (key x) k) l) with (@nil A); [reflexivity|].
  induction l as [|x l IH]; cbn; [reflexivity|].
  destruct (String.eqb (key x) k) eqn:E.
  - apply String.eqb_eq in E. exfalso. apply Hn. left. exact E.
  - apply IH. intros H. apply Hn. right. exact H.
Qed.

Lemma fold_byKey l :
  fold_left step l [] = map (fun c => (c, total l c)) (firstOccurrences (map key l)).
Proof.
  induction l as [|x l IH] using rev_ind; [reflexivity|].
  rewrite fold_left_app, IH. cbn [fold_left]. unfold step.
  rewrite map_app. cbn [map]. rewrite firstOccurrences_app.
  assert (Hnd : NoDup (firstOccurrences (map key l)))
    by (apply seenStep_fold_NoDup; constructor).
  assert (Hin : forall c, In c (firstOccurrences (map key l)) <-> In c (map key l)).
  { intros c. unfold firstOccurrences. fold seenStep. rewrite seenStep_fold_In. cbn. tauto. }
  rewrite recordGet_map. unfold seenStep.
  destruct (existsb (String.eqb (key x)) (firstOccurrences (map key l))) eqn:E.
  - cbn [orZero]. apply existsb_exists in E as (y & Hy & Ey).
    apply String.eqb_eq in Ey. subst y.
    rewrite recordSet_map_in by assumption.
    apply map_ext. intros c. rewrite total_app, (String.eqb_sym (key x) c).
    destruct (String.eqb c (key x)) eqn:Ec; [|reflexivity].
    apply String.eqb_eq in Ec. subst. reflexivity.
  - assert (Hn : ~ In (key x) (firstOccurrences (map key l))).
    { intros H. assert (existsb (String.eqb (key x)) (firstOccurrences (map key l)) = true)
        by (apply existsb_exists; exists (key x); split; [exact H|apply String.eqb_refl]).
      congruence. }
    rewrite recordSet_map_notin by exact Hn. rewrite map_app. cbn [map]. f_equal.
    + apply map_ext_in. intros c Hc. rewrite total_app.
      destruct (String.eqb (key x) c) eqn:Ec; [|reflexivity].
      apply String.eqb_eq in Ec. subst. contradiction.
    + rewrite total_app, String.eqb_refl, total_none; [cbn; reflexivity|].
      intros H. apply Hn, Hin, H.
Qed.

Lemma recordGet_byKey l k :
  recordGet (fold_left step l []) k
  = if existsb (String.eqb k) (map key l) then Some (total l k) else None.
Proof.
  rewrite fold_byKey, recordGet_map.
  assert (Hin : In k (firstOccurrences (map key l)) <-> In k (map key l)).
  { unfold firstOccurrences. fold seenStep. rewrite seenStep_fold_In. cbn. tauto. }
  destruct (existsb (String.eqb k) (firstOccurrences (map key l))) eqn:E1,
           (existsb (String.eqb k) (map key l)) eqn:E2; try reflexivity.
  - apply existsb_exists in E1 as (y & Hy & Ey). apply String.eqb_eq in Ey. subst y.
    assert (existsb (String.eqb k) (map key l) = true)
      by (apply existsb_exists; exists k; split; [apply Hin, Hy|apply String.eqb_refl]).
    congruence.
  - apply existsb_exists in E2 as (y & Hy & Ey). apply String.eqb_eq in Ey. subst y.
    assert (existsb (String.eqb k) (firstOccurrences (map key l)) = true)
      by (apply existsb_exists; exists k; split; [apply Hin, Hy|apply String.eqb_refl]).
    congruence.
Qed.

End ByKey.

(** X21: [getExpensesByCategory] has one property per category, in order of first
    occurrence, holding the sum of that category's amounts in array order;
    any other category reads [undefined]. *)
Theorem getExpensesByCategory_spec expenses :
  let total c :=
    fold_left (fun t e => t + Expense.amount e)
      (filter (fun e => String.eqb (Expense.category e) c) expenses) 0 in
  getExpensesByCategory expenses
  = map (fun c => (c, total c)) (firstOccurrences (map Expense.category expenses))
  /\ forall c,
       recordGet (getExpensesByCategory expenses) c
       = if existsb (String.eqb c) (map Expense.category expenses) then Some (total c) else None.
Proof.
  split.
  - exact (fold_byKey Expense.category Expense.amount expenses).
  - intros c. exact (recordGet_byKey Expense.category Expense.amount expenses c).
Qed.

(** X22: [getSubscriptionsByCategory] has one property per category, in order of
    first occurrence, holding the sum of the monthly costs of that category's
    subscriptions in array order; any other category reads [undefined]. *)
Theorem getSubscriptionsByCategory_spec subscriptions :
  let total c :=
    fold_left (fun t s => t + getMonthlySubscriptionCost s)
      (filter (fun s => String.eqb (Subscription.category s) c) subscriptions) 0 in
  getSubscriptionsByCategory subscriptions
  = map (fun c => (c, total c)) (firstOccurrences (map Subscription.category subscriptions))
  /\ forall c,
       recordGet (getSubscriptionsByCategory subscriptions) c
       = if existsb (String.eqb c) (map Subscription.category subscriptions)
         then Some (total c) else None.
Proof.
  split.
  - exact (fold_byKey Subscription.category getMonthlySubscriptionCost subscriptions).
  - intros c.
    exact (recordGet_byKey Subscription.category getMonthlySubscriptionCost subscriptions c).
Qed.

(** ** [validateSubscriptionIntegrity], [validateName], [validateDescription] *)

(** X23: [validateSubscriptionIntegrity] passes exactly when the id is non-empty and
    both dates are valid and in order; the order message appears exactly when both
    dates are valid and out of order; there are at most three messages. *)
Theorem validateSubscriptionIntegrity_spec subscription :
  let result := validateSubscriptionIntegrity subscription in
  (isValid result = true
   <-> Subscription.id subscription <> ""%string
       /\ exists created updated,
            Subscription.createdAt subscription = Some created
            /\ Subscription.updatedAt subscription = Some updated
            /\ (created <= updated)%Z)
  /\ (In "Update date cannot be before creation date"%string (errors result)
      <-> exists created updated,
            Subscription.createdAt subscription = Some created
            /\ Subscription.updatedAt subscription = Some updated
            /\ (updated < created)%Z)
  /\ (List.length (errors result) <= 3)%nat.
Proof.
  cbv zeta. unfold validateSubscriptionIntegrity. cbn [isValid errors].
  destruct (String.eqb (Subscription.id subscription) "") eqn:Eid;
  [apply String.eqb_eq in Eid|apply String.eqb_neq in Eid];
  destruct (Subscription.createdAt subscription) as [c|];
  destruct (Subscription.updatedAt subscription) as [u|];
  try destruct (Z.ltb_spec u c) as [Hlt|Hge];
  cbn [app List.length Nat.eqb]; (split; [|split]); try lia.
  all: split; [intros Hv|intros (Hv1 & Hv2)]; try discriminate.
  all: repeat match goal with
         | H : exists _, _ |- _ => destruct H
         | H : _ /\ _ |- _ => destruct H
         | H : Some _ = Some _ |- _ => injection H as <-
         end.
  all: try discriminate; try contradiction; try reflexivity; try lia.
  all: try (cbn in Hv; intuition discriminate).
  all: try (cbn; tauto).
  all: try (split; [assumption|]).
  all: try (exists c, u; repeat split; lia).
Qed.

Lemma trimmedLength_empty value :
  String.eqb value "" = true -> List.length (jsTrim (list_ascii_of_string value)) = O.
Proof. intros E. apply String.eqb_eq in E. subst. reflexivity. Qed.

(** X24: [validateName] and [validateDescription] pass exactly when the trimmed
    length is between 1 and the maximum; otherwise they give exactly one message:
    required for a blank value, too long above the maximum. *)
Theorem validateName_validateDescription_spec maxLength value :
  let trimmedLength := Z.of_nat (List.length (jsTrim (list_ascii_of_string value))) in
  (isValid (validateName maxLength value) = true <-> (1 <= trimmedLength <= maxLength)%Z)
  /\ errors (validateName maxLength value)
     = (if (trimmedLength =? 0)%Z then ["Subscription name is required"%string]
        else if (maxLength <? trimmedLength)%Z then
          [String.append "Subscription name must be "
             (String.append (numberToString (Some maxLength)) " characters or less")]
        else [])
  /\ (isValid (validateDescription maxLength value) = true
      <-> (1 <= trimmedLength <= maxLength)%Z)
  /\ errors (validateDescription maxLength value)
     = (if (trimmedLength =? 0)%Z then ["Expense description is required"%string]
        else if (maxLength <? trimmedLength)%Z then
          [String.append "Expense description must be "
             (String.append (numberToString (Some maxLength)) " characters or less")]
        else []).
Proof.
  cbv zeta. unfold validateName, validateDescription, isValidString. cbn [isValid errors].
  set (n := Z.of_nat (List.length (jsTrim (list_ascii_of_string value)))).
  assert (Hn : (0 <= n)%Z) by apply Nat2Z.is_nonneg.
  assert (He : String.eqb value "" = true -> n = 0%Z)
    by (intros E; unfold n; rewrite (trimmedLength_empty value E); reflexivity).
  destruct (String.eqb value "") eqn:Ev; cbn [orb].
  - rewrite (He eq_refl). cbn. repeat split; try lia; discriminate.
  - destruct (Z.leb_spec 1 n), (Z.leb_spec n maxLength), (Z.eqb_spec n 0),
             (Z.ltb_spec maxLength n); cbn; repeat split; try lia; try discriminate;
      try reflexivity.
Qed.

(** ** Witnesses *)

(** X2 witness: the gym subscription billed on 2024-01-01, on 2024-06-01. *)
Lemma updateOverdueBillingDate_first_after_witness :
  (today0 + 366 * msPerDay <= maxTimeValue)%Z
  /\ exists n, forall fuel, (n <= fuel)%nat ->
       exists r, updateOverdueBillingDate fuel today0 gymSubscription = Some (Ok r)
         /\ (today0 < r)%Z.
Proof.
  assert (H : (today0 + 366 * msPerDay <= maxTimeValue)%Z)
    by (unfold today0, msPerDay, maxTimeValue; lia).
  split; [exact H|].
  destruct (updateOverdueBillingDate_first_after today0 gymSubscription H) as [_ H2].
  assert (Ht : (Z.abs 1704067200000 <= maxTimeValue)%Z) by (unfold maxTimeValue; lia).
  destruct (H2 1704067200000%Z eq_refl Ht) as (n & Hn).
  exists n. intros fuel Hf. destruct (Hn fuel Hf) as (r & E & Hlt & _).
  exists r. split; assumption.
Defined.

(** X3 witness: the overdue gym subscription is rewritten with a date after today. *)
Lemma updateOverdueSubscriptions_spec_witness :
  (Z.abs today0 <= maxTimeValue)%Z
  /\ (today0 + 366 * msPerDay <= maxTimeValue)%Z
  /\ exists n, forall fuel, (n <= fuel)%nat ->
       exists r, updateOverdueSubscriptions fuel today0 [gymSubscription]
                 = Some (Ok [withBillingUpdate gymSubscription r today0])
         /\ (today0 < r)%Z.
Proof.
  assert (H1 : (Z.abs today0 <= maxTimeValue)%Z)
    by (unfold today0, maxTimeValue; lia).
  assert (H2 : (today0 + 366 * msPerDay <= maxTimeValue)%Z)
    by (unfold today0, msPerDay, maxTimeValue; lia).
  assert (H3 : Forall (fun s => forall t, Subscription.nextBillingDate s = Some t ->
                                  (Z.abs t <= maxTimeValue)%Z) [gymSubscription]).
  { constructor; [|constructor]. intros t E. cbn in E. injection E as <-.
    unfold maxTimeValue; lia. }
  split; [exact H1|]. split; [exact H2|].
  destruct (updateOverdueSubscriptions_spec today0 [gymSubscription] H1 H2 H3) as (n & Hn).
  exists n. intros fuel Hf. destruct (Hn fuel Hf) as (subs' & E & F).
  inversion F as [|s s' l l' [Hover _] Hrest]; subst.
  inversion Hrest; subst.
  destruct (Hover 1704067200000%Z eq_refl eq_refl) as (r & -> & Hlt & _).
  { vm_compute. reflexivity. }
  exists r. split; assumption.
Defined.


(** X7 witness: 2024-01-01 is past on 2024-06-01. *)
Lemma isPastDate_days_witness :
  (Z.abs today0 <= maxTimeValue)%Z
  /\ isPastDate (Some 1704067200000%Z) today0 = true.
Proof.
  assert (H : (Z.abs today0 <= maxTimeValue)%Z) by (unfold today0, maxTimeValue; lia).
  split; [exact H|].
  destruct (isPastDate_days (Some 1704067200000%Z) today0 H) as [_ H2].
  assert (Ht : (Z.abs 1704067200000 <= maxTimeValue)%Z) by (unfold maxTimeValue; lia).
  destruct (H2 1704067200000%Z eq_refl Ht) as [-> _]. vm_compute. reflexivity.
Defined.

(** X12 witness: two stored patterns with distinct ids. *)
Lemma handlers_keep_store_in_sync_witness :
  let state :=
    [Pattern.mk "p1" "Gym" "health" 100 monthly (9 / 10) ["e1"; "e2"]%string
       1706659200000%Z 1709251200000%Z false;
     Pattern.mk "p2" "Netflix" "entertainment" 15 monthly (7 / 10) ["e5"; "e6"]%string
       1706659200000%Z 1709251200000%Z false] in
  NoDup (map Pattern.id state)
  /\ dismissPattern "p1" (Some state) = Some (dismissInState "p1" state)
  /\ confirmPattern "p1" (Some state) = Some (confirmInState "p1" state).
Proof.
  intros state.
  assert (H : NoDup (map Pattern.id state)).
  { cbn. constructor; [cbn; intros [E|[]]; discriminate|].
    constructor; [intros []|constructor]. }
  destruct (handlers_keep_store_in_sync "p1" state H) as (A & B & _).
  split; [exact H|]. split; [exact A|exact B].
Defined.

(** X13 witness: the gym scenario. *)
Lemma detectPatterns_confidence_label_witness :
  exists patterns,
    detectPatterns scenarioIds [gym1; gym2; gym3] = Ok patterns
    /\ patterns <> []
    /\ Forall (fun p =>
         (getConfidenceText (Pattern.confidence p) = "High"%string
          /\ getConfidenceColor (Pattern.confidence p) = "text-green-600 bg-green-50"%string)
         \/ (getConfidenceText (Pattern.confidence p) = "Medium"%string
             /\ getConfidenceColor (Pattern.confidence p)
                = "text-yellow-600 bg-yellow-50"%string))
       patterns.
Proof.
  destruct detect_gym as (pA & pB & H & _ & _).
  exists [pA; pB]. split; [exact H|]. split; [discriminate|].
  exact (detectPatterns_confidence_label scenarioIds [gym1; gym2; gym3] [pA; pB] H).
Defined.

(** X14 witness: the group of the first gym pattern. *)
Lemma createRecurringGroup_detected_witness :
  exists patterns p,
    detectPatterns scenarioIds [gym1; gym2; gym3] = Ok patterns
    /\ In p patterns
    /\ NoDup (map Expense.id [gym1; gym2; gym3])
    /\ (2 <= List.length
              (Group.expenses (createRecurringGroup "g1" today0 p [gym1; gym2; gym3])))%nat.
Proof.
  destruct detect_gym as (pA & pB & H & _ & _).
  assert (Hin : In pA [pA; pB]) by (left; reflexivity).
  assert (Hnd : NoDup (map Expense.id [gym1; gym2; gym3])).
  { cbn. constructor; [cbn; intros [E|[E|[]]]; discriminate|].
    constructor; [cbn; intros [E|[]]; discriminate|].
    constructor; [intros []|constructor]. }
  exists [pA; pB], pA. split; [exact H|]. split; [exact Hin|]. split; [exact Hnd|].
  destruct (createRecurringGroup_detected scenarioIds [gym1; gym2; gym3] [pA; pB] pA
              "g1" today0 H Hin Hnd) as (seed & _ & _ & Hlen).
  exact Hlen.
Defined.

(** X18 witness: the results of two expense array checks, one failing. *)
Lemma getAllErrors_hasErrors_witness :
  let rs := [validateExpenseArray [gym1; gym2]; validateExpenseArray [gym1; gym1]] in
  Forall (fun r => isValid r = (List.length (errors r) =? 0)%nat) rs
  /\ getAllErrors rs = List.concat (map errors rs)
  /\ (hasErrors rs = true <-> getAllErrors rs <> []).
Proof.
  intros rs.
  assert (H : Forall (fun r => isValid r = (List.length (errors r) =? 0)%nat) rs).
  { constructor; [reflexivity|]. constructor; [reflexivity|constructor]. }
  split; [exact H|]. exact (getAllErrors_hasErrors rs H).
Defined.

(** X8 witness: the month of 2024-06-01. *)
Lemma getCurrentMonthRange_total_witness :
  (Z.abs today0 + 31 * msPerDay <= maxTimeValue)%Z
  /\ civilFromDays (today0 / msPerDay) = (2024, 5, 1)%Z
  /\ let '(startDate, endDate) := currentMonthRange today0 in
     (forall t,
        (dateLe startDate (Some t) && dateLe (Some t) endDate)%bool = true
        <-> exists d', civilFromDays (t / msPerDay) = (2024, 5, d')%Z
              /\ ((d' < monthStart (12 * 2024 + 5 + 1) - monthStart (12 * 2024 + 5))%Z
                  \/ (t mod msPerDay = 0)%Z)).
Proof.
  assert (H1 : (Z.abs today0 + 31 * msPerDay <= maxTimeValue)%Z)
    by (unfold today0, msPerDay, maxTimeValue; lia).
  assert (H2 : civilFromDays (today0 / msPerDay) = (2024, 5, 1)%Z) by (vm_compute; reflexivity).
  assert (H3 : (2024 < 0 \/ 99 < 2024)%Z) by lia.
  split; [exact H1|]. split; [exact H2|].
  pose proof (getCurrentMonthRange_total today0 2024 5 1 [] H1 H2 H3) as H.
  destruct (currentMonthRange today0) as [startDate endDate].
  exact (proj1 H).
Defined.

(** X9 witness: the year of 2024-06-01, over the gym expenses. *)
Lemma getCurrentYearRange_total_witness :
  (Z.abs today0 + 366 * msPerDay <= maxTimeValue)%Z
  /\ civilFromDays (today0 / msPerDay) = (2024, 5, 1)%Z
  /\ let '(startDate, endDate) := currentYearRange today0 in
     getTotalExpensesForDateRange [gym1; gym2; gym3] startDate endDate
     = fold_left (fun total e => (total + Expense.amount e)%R)
         (filter (fun e =>
            let '(y', m', d') := civilFromDays (Expense.date e / msPerDay) in
            ((y' =? 2024) && ((m' <? 11) || (d' <? 31) || (Expense.date e mod msPerDay =? 0)))%Z%bool)
          [gym1; gym2; gym3]) 0%R.
Proof.
  assert (H1 : (Z.abs today0 + 366 * msPerDay <= maxTimeValue)%Z)
    by (unfold today0, msPerDay, maxTimeValue; lia).
  assert (H2 : civilFromDays (today0 / msPerDay) = (2024, 5, 1)%Z) by (vm_compute; reflexivity).
  assert (H3 : (2024 < 0 \/ 99 < 2024)%Z) by lia.
  split; [exact H1|]. split; [exact H2|].
  pose proof (getCurrentYearRange_total today0 2024 5 1 [gym1; gym2; gym3] H1 H2 H3) as H.
  destruct (currentYearRange today0) as [startDate endDate].
  exact (proj2 H).
Defined.

